(** * HydroShare: consistency check between Django file records and iRODS

    A shallow embedding of [hs_core/management/commands/check_irods_files.py]:
    the path helpers cloned from [BaseResource] / [ResourceFile], the
    effective-path inference [get_effective_path], and the three-step check
    [resource_check_irods_files] with its recursive directory walk.

    Python strings are [string]; [None]-able values are [option]; the
    [all_paths] dict (used as a set) is a [gmap string Z]; printing, logging
    and iRODS calls are events of a writer monad that also carries raised
    exceptions. *)

From Stdlib Require Import Ascii String.
From stdpp Require Import gmap strings.

Local Open Scope string_scope.
Local Open Scope list_scope.

(** ** Python string primitives and [os.path] (posixpath) *)

Module Py.

(** [s.startswith(p)] *)
Fixpoint startswith (s p : string) {struct p} : bool :=
  match p with
  | EmptyString => true
  | String b p' =>
      match s with
      | EmptyString => false
      | String a s' => Ascii.eqb a b && startswith s' p'
      end
  end.

(** [s[n:]] *)
Fixpoint slice_from (n : nat) (s : string) : string :=
  match n, s with
  | O, _ => s
  | S _, EmptyString => EmptyString
  | S n', String _ s' => slice_from n' s'
  end.

(** [s[:n]] *)
Fixpoint slice_to (n : nat) (s : string) : string :=
  match n, s with
  | O, _ => EmptyString
  | S _, EmptyString => EmptyString
  | S n', String a s' => String a (slice_to n' s')
  end.

(** [s.endswith(c)] for a one-character [c] *)
Fixpoint endswith (s : string) (c : ascii) : bool :=
  match s with
  | EmptyString => false
  | String a EmptyString => Ascii.eqb a c
  | String _ s' => endswith s' c
  end.

(** [c in s] for a one-character [c] *)
Fixpoint contains (c : ascii) (s : string) : bool :=
  match s with
  | EmptyString => false
  | String a s' => Ascii.eqb a c || contains c s'
  end.

(** [s.rfind(c)], with [None] for Python's [-1] *)
Fixpoint rfind (c : ascii) (s : string) : option nat :=
  match s with
  | EmptyString => None
  | String a s' =>
      match rfind c s' with
      | Some k => Some (S k)
      | None => if Ascii.eqb a c then Some O else None
      end
  end.

(** [s.rstrip(c)] *)
Fixpoint rstrip (c : ascii) (s : string) : string :=
  match s with
  | EmptyString => EmptyString
  | String a s' =>
      match rstrip c s' with
      | EmptyString => if Ascii.eqb a c then EmptyString else String a EmptyString
      | r => String a r
      end
  end.

(** [s == c * len(s)] *)
Fixpoint all_char (c : ascii) (s : string) : bool :=
  match s with
  | EmptyString => true
  | String a s' => Ascii.eqb a c && all_char c s'
  end.

(** truthiness of a string: non-empty *)
Definition nonempty (s : string) : bool :=
  match s with EmptyString => false | String _ _ => true end.

(** [str(x)] for a value that is a string or [None] *)
Definition str (x : option string) : string :=
  match x with Some s => s | None => "None" end.

Definition sep : ascii := "/"%char.

(** One round of the loop of [posixpath.join]:
    [if b.startswith(sep): path = b
     elif not path or path.endswith(sep): path += b
     else: path += sep + b] *)
Definition join_step (path b : string) : string :=
  if startswith b "/" then b
  else if negb (nonempty path) || endswith path sep then path +:+ b
  else path +:+ "/" +:+ b.

(** [os.path.join(a, *p)] *)
Definition os_path_join (a : string) (p : list string) : string :=
  fold_left join_step p a.

(** [os.path.split(p)]:
    [i = p.rfind(sep) + 1; head, tail = p[:i], p[i:]
     if head and head != sep*len(head): head = head.rstrip(sep)] *)
Definition os_path_split (p : string) : string * string :=
  let i := match rfind sep p with Some k => S k | None => O end in
  let head := slice_to i p in
  let tail := slice_from i p in
  let head := if nonempty head && negb (all_char sep head)
              then rstrip sep head else head in
  (head, tail).

End Py.

(** ** Data model *)

(** The columns of one [ResourceFile] row: [resource_file.name],
    [fed_resource_file.name], [fed_resource_file_name_or_path] and
    [file_folder]; each is a string or [None]. *)
Record FileRecord := {
  resource_file_name : option string;
  fed_resource_file_name : option string;
  fed_resource_file_name_or_path : option string;
  file_folder : option string
}.

(** A [BaseResource]: the attributes the checker reads.  [title] stands for
    [metadata.title.value]; [files] are the rows [self.files.all()] yields. *)
Record Resource := {
  short_id : string;
  resource_federation_path : option string;
  resource_type : string;
  title : string;
  files : list FileRecord
}.

(** A [ResourceFile] instance: its row and the back-reference [file.resource]. *)
Record ResourceFile := {
  resource : Resource;
  record : FileRecord
}.

(** [self.files.all()] *)
Definition files_all (self : Resource) : list ResourceFile :=
  map (fun r => {| resource := self; record := r |}) (files self).

(** [IrodsStorage()] and [IrodsStorage("federated")] *)
Inductive IrodsStorage := IrodsStorageDefault | IrodsStorageFederated.

(** What the checker consumes from its surroundings: the Django setting and
    the two iRODS calls.  [irods_listdir] gives [(directories, files)], or
    [None] when the call raises [SessionException]. *)
Record Env := {
  REMOTE_USE_IRODS : bool;
  irods_exists : IrodsStorage -> string -> bool;
  irods_listdir : IrodsStorage -> string -> option (list string * list string)
}.

(** Keyword arguments of [resource_check_irods_files]. *)
Record Options := {
  stop_on_error : bool;
  log_errors : bool;
  echo_errors : bool;
  return_errors : bool
}.

(** ** Effects: output sinks, storage calls, exceptions *)

Inductive Event :=
| Print (msg : string)                          (* print(msg) *)
| LoggerInfo (msg : string)                     (* logger.info(msg) *)
| LoggerError (msg : string)                    (* logger.error(msg) *)
| CallExists (st : IrodsStorage) (path : string)   (* istorage.exists(path) *)
| CallListdir (st : IrodsStorage) (path : string). (* istorage.listdir(path) *)

Inductive Exn :=
| ValidationError (msg : string)
| TypeError (msg : string).

Inductive Outcome (A : Type) :=
| Return (a : A)
| Raise (e : Exn)
| OutOfFuel.
Arguments Return {A} a.
Arguments Raise {A} e.
Arguments OutOfFuel {A}.

(** A computation: the events it emitted, in order, and how it ended. *)
Definition M (A : Type) : Type := list Event * Outcome A.

Definition ret {A} (a : A) : M A := ([], Return a).

Definition bind {A B} (m : M A) (k : A -> M B) : M B :=
  match m with
  | (t, Return a) => let (t', o) := k a in (t ++ t', o)
  | (t, Raise e) => (t, Raise e)
  | (t, OutOfFuel) => (t, OutOfFuel)
  end.

Definition emit (e : Event) : M unit := ([e], Return tt).
Definition raise {A} (e : Exn) : M A := ([], Raise e).
Definition print (msg : string) : M unit := emit (Print msg).
Definition logger_info (msg : string) : M unit := emit (LoggerInfo msg).
Definition logger_error (msg : string) : M unit := emit (LoggerError msg).

(** [if b: m] *)
Definition when (b : bool) (m : M unit) : M unit := if b then m else ret tt.

(** [try: body  except ValidationError: handler] *)
Definition try_except_ValidationError {A} (body handler : M A) : M A :=
  match body with
  | (t, Raise (ValidationError _)) => let (t', o) := handler in (t ++ t', o)
  | r => r
  end.

Declare Scope py_scope.
Delimit Scope py_scope with py.
Notation "'let*' p ':=' c1 'in' c2" := (bind c1 (fun p => c2))
  (at level 10, p pattern, c1 at level 100, c2 at level 200) : py_scope.
Notation "c1 ;; c2" := (bind c1 (fun _ => c2))
  (at level 100, c2 at level 200, right associativity) : py_scope.
Local Open Scope py_scope.

(** [for x in l: s = body(s, x)] *)
Fixpoint for_each {A S} (body : S -> A -> M S) (l : list A) (s : S) : M S :=
  match l with
  | [] => ret s
  | x :: l' => let* s' := body s x in for_each body l' s'
  end.

(** [istorage.exists(path)] *)
Definition exists_ (env : Env) (st : IrodsStorage) (path : string) : M bool :=
  ([CallExists st path], Return (irods_exists env st path)).

(** The projections of a trace on its sinks. *)
Definition stdout (t : list Event) : list string :=
  flat_map (fun e => match e with Print m => [m] | _ => [] end) t.
Definition error_log (t : list Event) : list string :=
  flat_map (fun e => match e with LoggerError m => [m] | _ => [] end) t.
Definition is_storage_call (e : Event) : bool :=
  match e with CallExists _ _ | CallListdir _ _ => true | _ => false end.
Definition storage_calls (t : list Event) : list Event :=
  List.filter is_storage_call t.

(** ** Clones of the [BaseResource] / [ResourceFile] path routines *)

Import Py.

(** [resource.resource_federation_path is not None and
     resource.resource_federation_path != ''] *)
Definition is_federated (resource : Resource) : bool :=
  match resource_federation_path resource with
  | Some f => nonempty f
  | None => false
  end.

Definition root_path (resource : Resource) : string :=
  if is_federated resource
  then os_path_join (str (resource_federation_path resource)) [short_id resource]
  else short_id resource.

Definition file_path (resource : Resource) : string :=
  os_path_join (root_path resource) ["data"; "contents"].

Definition get_resource_file_path
    (resource : Resource) (filename : string) (folder : option string) : string :=
  match folder with
  | Some folder => os_path_join (file_path resource) [folder; filename]
  | None => os_path_join (file_path resource) [filename]
  end.

Definition get_path (rfile : ResourceFile) (filename : string)
    (folder : option string) : string :=
  get_resource_file_path (resource rfile) filename folder.

Definition get_irods_storage (resource : Resource) : IrodsStorage :=
  if is_federated resource then IrodsStorageFederated else IrodsStorageDefault.

(** [if test_exists and not storage.exists(path): raise ValidationError(msg)] *)
Definition check_exists (env : Env) (test_exists : bool) (storage : IrodsStorage)
    (path msg : string) : M unit :=
  if test_exists then
    let* e := exists_ env storage path in
    if negb e then raise (ValidationError msg) else ret tt
  else ret tt.

Definition resource_path_is_acceptable (env : Env) (resource : Resource)
    (path : string) (test_exists : bool) : M (option string * string) :=
  let storage := get_irods_storage resource in
  let locpath := os_path_join (short_id resource) ["data"; "contents"] +:+ "/" in
  let relpath := path in
  let fedpath := resource_federation_path resource in
  let* relpath :=
    match fedpath with
    | Some fed =>
        if nonempty fed && startswith relpath (fed +:+ "/") then
          check_exists env test_exists storage path
            "Federated path does not exist in irods" ;;
          let plen := String.length (fed +:+ "/") in
          let relpath := slice_from plen relpath in
          (* strip resource id from path *)
          if startswith relpath locpath then
            let plen := String.length locpath in
            ret (slice_from plen relpath)
          else raise (ValidationError "Malformed federated resource path")
        else if startswith path locpath then
          check_exists env test_exists storage path
            "Local path does not exist in irods" ;;
          let plen := String.length locpath in
          ret (slice_from plen relpath)
        else ret relpath
    | None =>
        if startswith path locpath then
          check_exists env test_exists storage path
            "Local path does not exist in irods" ;;
          let plen := String.length locpath in
          ret (slice_from plen relpath)
        else ret relpath
    end in
  if contains sep relpath then
    let '(folder, base) := os_path_split relpath in
    let abspath := get_resource_file_path resource base (Some folder) in
    check_exists env test_exists storage abspath
      "Local path does not exist in irods" ;;
    ret (Some folder, base)
  else
    let folder := None in
    let base := relpath in
    let abspath := get_resource_file_path resource base folder in
    check_exists env test_exists storage abspath
      "Local path does not exist in irods" ;;
    ret (folder, base).

Definition path_is_acceptable (env : Env) (rfile : ResourceFile)
    (path : string) (test_exists : bool) : M (option string * string) :=
  resource_path_is_acceptable env (resource rfile) path test_exists.

Definition get_path_from_storage_path (env : Env) (rfile : ResourceFile)
    (path : string) (test_exists : bool) : M string :=
  let* (folder, base) := path_is_acceptable env rfile path test_exists in
  ret (get_path rfile base folder).

Definition get_path_from_short_path (env : Env) (rfile : ResourceFile)
    (path : string) (test_exists : bool) : M string :=
  let '(folder, base) := os_path_split path in
  let folder := if String.eqb folder "" then None else Some folder in
  let path := get_path rfile base folder in
  (if test_exists then
     let resource := resource rfile in
     let istorage := get_irods_storage resource in
     let* e := exists_ env istorage path in
     if negb e then
       raise (ValidationError ("path " +:+ path +:+ " does not exist in iRODS"))
     else ret tt
   else ret tt) ;;
  ret path.

(** ** Effective-path inference *)

(** What [get_effective_path] hands back: the bare [None] of its early
    [return None], or the triple [(inferred_path, file_file_folder, orig_path)]. *)
Inductive EffectivePath :=
| BareNone
| Triple (inferred_path file_file_folder orig_path : option string).

(** [if name == "" or name == "None": name = None] *)
Definition normalize_name (name : option string) : option string :=
  match name with
  | Some s => if String.eqb s "" || String.eqb s "None" then None else Some s
  | None => None
  end.

(** [if name is not None: nnames.append(name)] *)
Definition append_name (nnames : list string) (name : option string) : list string :=
  match name with
  | Some n => nnames ++ [n]
  | None => nnames
  end.

(** [get_path_from_short_path(file, base, test_exists=False)] under the
    record's folder, as both unqualified branches call it. *)
Definition qualify_in_record_folder (env : Env) (file : ResourceFile)
    (file_file_folder : option string) (base : string) : M string :=
  match file_file_folder with
  | None => get_path_from_short_path env file base false
  | Some ff => get_path_from_short_path env file (os_path_join ff [base]) false
  end.

(** Part 1 of [get_effective_path] (the body of
    [if file_resource_file_name is not None]); gives the new [inferred_path]. *)
Definition effective_path_part1 (env : Env) (file : ResourceFile) (path : string)
    (file_file_folder inferred_path : option string) : M (option string) :=
  let resource := resource file in
  let istorage := get_irods_storage resource in
  if is_federated resource then
    print ("ERROR: unfederated file declared for federated resource "
           +:+ short_id resource +:+ " (" +:+ resource_type resource +:+ "): "
           +:+ path) ;;
    ret inferred_path
  else if startswith path (file_path resource) then
    (* fully qualified unfederated name *)
    try_except_ValidationError
      (let* (folder, base) := path_is_acceptable env file path true in
       ret (Some path))
      (print ("ERROR: existing path " +:+ path +:+ " is not conformant for "
              +:+ short_id resource +:+ " (" +:+ resource_type resource +:+ ")") ;;
       ret inferred_path)
  else
    (* not fully qualified: strip headers and qualify *)
    let* path :=
      if startswith path "data/contents/" then
        print ("INFO stripping data/contents/ from unfederated path " +:+ path) ;;
        let plen := String.length "data/contents/" in
        ret (slice_from plen path)
      else ret path in
    let '(folder, base) := os_path_split path in
    let folder := if String.eqb folder "" then None else Some folder in
    when (bool_decide (folder ≠ None) && bool_decide (file_file_folder ≠ folder))
      (print ("WARNING: declared folder " +:+ str file_file_folder
              +:+ " is not path folder " +:+ str folder +:+ " for "
              +:+ short_id resource +:+ " (" +:+ resource_type resource +:+ ")") ;;
       print ("INFO: Assuming folder is " +:+ str file_file_folder)) ;;
    let* inferred_path := qualify_in_record_folder env file file_file_folder base in
    let* e := exists_ env istorage inferred_path in
    (if negb e then
       print ("ERROR: inferred path " +:+ inferred_path +:+ " does not exist")
     else
       (* the [.format] binds to the second literal only *)
       print ("INFO: found unqualified unfederated name '{}' with folder {}"
              +:+ (" qualified to '" +:+ path +:+ "'"))) ;;
    ret (Some inferred_path).

(** Part 2 (the body of [if file_fed_resource_file_name is not None]); gives
    the new [(inferred_path, file_file_folder)]. *)
Definition effective_path_part2 (env : Env) (file : ResourceFile) (path : string)
    (file_file_folder inferred_path : option string)
    : M (option string * option string) :=
  let resource := resource file in
  let istorage := get_irods_storage resource in
  when (negb (is_federated resource))
    (print ("ERROR: federated file declared for unfederated resource "
            +:+ short_id resource +:+ " (" +:+ resource_type resource +:+ "): "
            +:+ path)) ;;
  if startswith path (file_path resource) then
    (* fully qualified federated name *)
    try_except_ValidationError
      (let* (folder, base) := path_is_acceptable env file path true in
       (* At this point, path exists *)
       let inferred_path := Some path in
       let folder := if bool_decide (folder = Some "") then None else folder in
       if bool_decide (folder ≠ None) && bool_decide (file_file_folder ≠ folder) then
         print ("WARNING: declared folder " +:+ str file_file_folder
                +:+ " is not path folder " +:+ str folder +:+ " for "
                +:+ short_id resource +:+ " (" +:+ resource_type resource +:+ ")") ;;
         ret (inferred_path, folder)
       else ret (inferred_path, file_file_folder))
      (print ("ERROR: existing path " +:+ path +:+ " is not conformant for "
              +:+ short_id resource +:+ " (" +:+ resource_type resource +:+ ")") ;;
       ret (inferred_path, file_file_folder))
  else if startswith path (short_id resource) then
    print ("ERROR: unfederated path " +:+ path
           +:+ " used for federated resource for "
           +:+ short_id resource +:+ " (" +:+ resource_type resource +:+ ")") ;;
    ret (inferred_path, file_file_folder)
  else if startswith path "/" then
    print ("ERROR: non-conformant full path " +:+ path
           +:+ " for federated resource "
           +:+ short_id resource +:+ " (" +:+ resource_type resource +:+ ")") ;;
    ret (inferred_path, file_file_folder)
  else
    let* path :=
      if startswith path "data/contents/" then
        print ("WARNING: path " +:+ path +:+ " starts with extra data header for "
               +:+ short_id resource +:+ " (" +:+ resource_type resource +:+ ")") ;;
        let plen := String.length "data/contents/" in
        ret (slice_from plen path)
      else ret path in
    (* next thing should be folder *)
    let '(folder, base) := os_path_split path in
    when (bool_decide (Some folder ≠ file_file_folder))
      (print ("ERROR: inferred folder " +:+ folder +:+ " != folder of record "
              +:+ str file_file_folder +:+ ", using folder of record")) ;;
    print ("INFO: Assuming folder is " +:+ str file_file_folder) ;;
    let* inferred_path := qualify_in_record_folder env file file_file_folder base in
    let* e := exists_ env istorage inferred_path in
    (if negb e then
       print ("ERROR: inferred path " +:+ inferred_path +:+ " does not exist")
     else
       print ("INFO: found unqualified federated name '{}'"
              +:+ (" with folder '" +:+ path +:+ "' qualified to '"
                   +:+ str file_file_folder +:+ "'"))) ;;
    ret (Some inferred_path, file_file_folder).

(** Part 3 (the body of [elif file_fed_resource_file_name_or_path is not None]);
    gives the new [inferred_path]. *)
Definition effective_path_part3 (env : Env) (file : ResourceFile) (path : string)
    : M (option string) :=
  let resource := resource file in
  when (negb (is_federated resource))
    (print ("WARNING: federated file name or path"
            +:+ (" declared for unfederated resource " +:+ short_id resource
                 +:+ " (" +:+ resource_type resource +:+ "): " +:+ path))) ;;
  let* path :=
    if startswith path "data/contents/" then
      let plen := String.length "data/contents/" in
      let path := slice_from plen path in
      print ("INFO: data/contents/ stripped from fed name or path: " +:+ path
             +:+ " for " +:+ short_id resource
             +:+ " (" +:+ resource_type resource +:+ ")") ;;
      ret path
    else ret path in
  let* inferred_path :=
    if startswith path (file_path resource)
    then get_path_from_storage_path env file path false
    else get_path_from_short_path env file path false in
  ret (Some inferred_path).

Definition get_effective_path (env : Env) (file : ResourceFile) : M EffectivePath :=
  let resource := resource file in
  (* First, normalize state of each potential file name. *)
  let file_resource_file_name := resource_file_name (record file) in
  let file_fed_resource_file_name := fed_resource_file_name (record file) in
  let file_fed_resource_file_name_or_path :=
    fed_resource_file_name_or_path (record file) in
  let file_file_folder := file_folder (record file) in
  (* convert meaningless values to None *)
  let file_resource_file_name := normalize_name file_resource_file_name in
  let file_fed_resource_file_name := normalize_name file_fed_resource_file_name in
  let file_fed_resource_file_name_or_path :=
    normalize_name file_fed_resource_file_name_or_path in
  let nnames := [] in
  let nnames := append_name nnames file_resource_file_name in
  let nnames := append_name nnames file_fed_resource_file_name in
  let nnames := append_name nnames file_fed_resource_file_name_or_path in
  if Nat.ltb 1 (List.length nnames) then
    print "ERROR: more than one name for file:" ;;
    for_each (fun _ n => print ("   " +:+ n)) nnames tt ;;
    ret BareNone
  else
    (* if I find the proper path, this is set. *)
    let inferred_path := None in
    let orig_path := None in
    (* part 1: unfederated name can be qualified in several ways *)
    let* (inferred_path, orig_path) :=
      match file_resource_file_name with
      | Some path =>
          let* inferred_path :=
            effective_path_part1 env file path file_file_folder inferred_path in
          ret (inferred_path, Some path)
      | None => ret (inferred_path, orig_path)
      end in
    let* (inferred_path, file_file_folder, orig_path) :=
      match file_fed_resource_file_name with
      | Some path =>
          let* (inferred_path, file_file_folder) :=
            effective_path_part2 env file path file_file_folder inferred_path in
          ret (inferred_path, file_file_folder, Some path)
      | None =>
          match file_fed_resource_file_name_or_path with
          | Some path =>
              let* inferred_path := effective_path_part3 env file path in
              ret (inferred_path, file_file_folder, Some path)
          | None => ret (inferred_path, file_file_folder, orig_path)
          end
      end in
    match inferred_path with
    | Some p =>
        let istorage := get_irods_storage resource in
        let* e := exists_ env istorage p in
        when (negb e)
          (print ("ERROR: inferred path '" +:+ p +:+ "' does not exist"))
    | None => ret tt
    end ;;
    when (bool_decide (inferred_path = None))
      (print ("ERROR: no valid file name defined for " +:+ short_id resource
              +:+ " (" +:+ resource_type resource +:+ ")")) ;;
    ret (Triple inferred_path file_file_folder orig_path).

(** ** The check: Django records against iRODS *)

(** [istorage.listdir(dir)]; [None] stands for the [SessionException] the
    call raises, which the [try] around it catches. *)
Definition listdir (env : Env) (st : IrodsStorage) (dir : string)
    : M (option (list string * list string)) :=
  ([CallListdir st dir], Return (irods_listdir env st dir)).

(** The body of the files loop of [__resource_check_irods_directory], on the
    loop's variables [(errors, ecount)]. *)
Definition check_storage_file (all_paths : gmap string Z) (opts : Options)
    (dir : string) (s : list string * nat) (fname : string)
    : M (list string * nat) :=
  let '(errors, ecount) := s in
  let fullpath := os_path_join dir [fname] in
  match all_paths !! fullpath with
  | None =>
      let ecount := ecount + 1 in
      let msg := "check_irods_files: file " +:+ fullpath
                 +:+ " in iRODs does not exist in Django" in
      when (echo_errors opts) (print msg) ;;
      when (log_errors opts) (logger_error msg) ;;
      let errors := if return_errors opts then errors ++ [msg] else errors in
      when (stop_on_error opts) (raise (ValidationError msg)) ;;
      ret (errors, ecount)
  | Some _ => ret (errors, ecount)
  end.

(** [__resource_check_irods_directory].  The only statement of the [try]
    block that can raise [SessionException] is the [listdir] call at its top
    (a recursive call catches its own), so the handler runs with
    [errors = []] and [ecount = 0].  [fuel] bounds the depth of the walk. *)
Fixpoint resource_check_irods_directory (fuel : nat) (env : Env) (self : Resource)
    (dir : string) (all_paths : gmap string Z) (opts : Options)
    : M (list string * nat) :=
  match fuel with
  | O => ([], OutOfFuel)
  | S fuel =>
      let errors : list string := [] in
      let ecount := 0 in
      let istorage := get_irods_storage self in
      let* listing := listdir env istorage dir in
      match listing with
      | Some listing =>
          let* (errors, ecount) :=
            for_each (check_storage_file all_paths opts dir)
              (snd listing) (errors, ecount) in
          for_each
            (fun '(errors, ecount) dname =>
               let* (error2, ecount2) :=
                 resource_check_irods_directory fuel env self
                   (os_path_join dir [dname]) all_paths opts in
               ret (errors ++ error2, ecount + ecount2))
            (fst listing) (errors, ecount)
      | None =>
          (* except SessionException *)
          let ecount := ecount + 1 in
          let msg := "check_irods_files: listing of iRODS directory " +:+ dir
                     +:+ " failed" in
          when (echo_errors opts) (print msg) ;;
          when (log_errors opts) (logger_error msg) ;;
          let errors := if return_errors opts then errors ++ [msg] else errors in
          when (stop_on_error opts) (raise (ValidationError msg)) ;;
          ret (errors, ecount)
      end
  end.

(** The body of the Step 1 loop, on the loop's variables
    [(all_paths, errors, ecount)].  Unpacking a bare [None] into
    [path, folder, orig] raises [TypeError]. *)
Definition check_file (env : Env) (self : Resource) (opts : Options)
    (s : gmap string Z * list string * nat) (f : ResourceFile)
    : M (gmap string Z * list string * nat) :=
  let '(all_paths, errors, ecount) := s in
  let istorage := get_irods_storage self in
  let* r := get_effective_path env f in
  match r with
  | BareNone => raise (TypeError "'NoneType' object is not iterable")
  | Triple path folder orig =>
      let all_paths :=
        match path with
        | Some p => <[p := 1%Z]> all_paths  (* all_paths is utilized as set *)
        | None => all_paths
        end in
      let* missing :=
        match path with
        | None => ret true
        | Some p => let* e := exists_ env istorage p in ret (negb e)
        end in
      if missing then
        let ecount := ecount + 1 in
        let msg := ("check_irods_files: django file " +:+ str orig
                    +:+ " in folder " +:+ str folder +:+ ","
                    +:+ " resolved to " +:+ str path
                    +:+ ", does not exist in iRODS") in
        when (echo_errors opts) (print msg) ;;
        when (log_errors opts) (logger_error msg) ;;
        let errors := if return_errors opts then errors ++ [msg] else errors in
        when (stop_on_error opts) (raise (ValidationError msg)) ;;
        ret (all_paths, errors, ecount)
      else ret (all_paths, errors, ecount)
  end.

(** The federation banner and the [if ... else] holding Steps 1 and 2;
    gives [(errors, ecount)] as they stand before Step 3. *)
Definition check_steps_1_2 (fuel : nat) (env : Env) (self : Resource)
    (opts : Options) : M (list string * nat) :=
  let errors : list string := [] in
  let ecount := 0 in
  when (is_federated self)
    (let msg := "check_irods_files: federation prefix is "
                +:+ str (resource_federation_path self) in
     when (echo_errors opts) (print msg) ;;
     when (log_errors opts) (logger_info msg)) ;;
  (* skip federated resources if not configured to handle these *)
  if is_federated self && negb (REMOTE_USE_IRODS env) then
    let msg := "check_irods_files: skipping check of federated resource "
               +:+ short_id self in
    when (echo_errors opts) (print msg) ;;
    when (log_errors opts) (logger_info msg) ;;
    ret (errors, ecount)
  else
    let all_paths : gmap string Z := ∅ in
    (* Step 1: does every file here refer to an existing file in iRODS? *)
    let* (all_paths, errors, ecount) :=
      for_each (check_file env self opts) (files_all self)
        (all_paths, errors, ecount) in
    (* Step 2: does every iRODS file correspond to a record in files? *)
    let* (error2, ecount2) :=
      resource_check_irods_directory fuel env self (file_path self)
        all_paths opts in
    ret (errors ++ error2, ecount + ecount2).

(** Step 3: does resource exist at all? *)
Definition check_step_3 (env : Env) (self : Resource) (opts : Options)
    (s : list string * nat) : M (list string * nat) :=
  let '(errors, ecount) := s in
  let istorage := get_irods_storage self in
  let rpath :=
    if is_federated self
    then os_path_join (str (resource_federation_path self)) [short_id self]
    else short_id self in
  let* e := exists_ env istorage rpath in
  if negb e then
    let ecount := ecount + 1 in
    let msg := "iRODS directory for resource " +:+ short_id self
               +:+ " does not exist at all" in
    when (echo_errors opts) (print msg) ;;
    when (log_errors opts) (logger_error msg) ;;
    let errors := if return_errors opts then errors ++ [msg] else errors in
    ret (errors, ecount)
  else ret (errors, ecount).

(** The message of the closing block. *)
Definition affected_resource_msg (self : Resource) : string :=
  "check_irods_files: affected resource " +:+ short_id self
  +:+ " type is " +:+ resource_type self
  +:+ ", title is '" +:+ title self +:+ "'".

(** [if ecount > 0:] print information about the affected resource
    (not really an error). *)
Definition check_summary (self : Resource) (opts : Options)
    (s : list string * nat) : M (list string * nat) :=
  let '(errors, ecount) := s in
  if Nat.ltb 0 ecount then
    let msg := affected_resource_msg self in
    when (log_errors opts) (logger_error msg) ;;
    when (echo_errors opts) (print msg) ;;
    let errors := if return_errors opts then errors ++ [msg] else errors in
    ret (errors, ecount)
  else ret (errors, ecount).

Definition resource_check_irods_files (fuel : nat) (env : Env) (self : Resource)
    (opts : Options) : M (list string * nat) :=
  let* s := check_steps_1_2 fuel env self opts in
  let* s := check_step_3 env self opts s in
  let* s := check_summary self opts s in
  ret s.  (* errors is empty unless return_errors=True *)

(** ** Dumping a resource, and the management command *)

(** [prefix = ""; for i in range(depth): prefix += " "] *)
Definition indent (depth : nat) : string :=
  Nat.iter depth (fun prefix => prefix +:+ " ") "".

(** [resource_list].  [session_output istorage path] stands for
    [(ex.stdout, ex.stderr)] of the [SessionException] that [listdir] raises
    at [path]; as in the walk of the check, only the [listdir] call at the top
    of the [try] block can raise it.  [fuel] bounds the depth. *)
Fixpoint resource_list (fuel : nat) (env : Env)
    (session_output : IrodsStorage -> string -> string * string)
    (istorage : IrodsStorage) (path : string) (depth : nat) : M unit :=
  match fuel with
  | O => ([], OutOfFuel)
  | S fuel =>
      let prefix := indent depth in
      let* contents := listdir env istorage path in
      match contents with
      | Some contents =>
          print (prefix +:+ path +:+ ": (directory)") ;;
          for_each (fun _ f => print (prefix +:+ " " +:+ f +:+ " (file)"))
            (snd contents) tt ;;
          for_each
            (fun _ f =>
               resource_list fuel env session_output istorage
                 (os_path_join path [f]) (depth + 1))
            (fst contents) tt
      | None =>
          (* except SessionException as ex *)
          let ex := session_output istorage path in
          print (prefix +:+ path +:+ ": (directory CANNOT BE LISTED)") ;;
          print (prefix +:+ "stdout: " +:+ fst ex) ;;
          print (prefix +:+ "stderr: " +:+ snd ex)
      end
  end.

(** [resource_dump].  Its third [print] is given two arguments;
    [print_args] stands for the line Python writes for them. *)
Definition resource_dump (fuel : nat) (env : Env)
    (print_args : list string -> string)
    (session_output : IrodsStorage -> string -> string * string)
    (resource : Resource) : M unit :=
  print ("contents of " +:+ short_id resource) ;;
  print "According to Django:" ;;
  print (print_args [" resource_federation_path is {}";
                     str (resource_federation_path resource)]) ;;
  print " Files are:" ;;
  for_each
    (fun _ f =>
       print ("  f.resource_file.name is "
              +:+ str (resource_file_name (record f))) ;;
       print ("  f.fed_resource_file.name is "
              +:+ str (fed_resource_file_name (record f))) ;;
       print ("  f.fed_resource_file_name_or_path is "
              +:+ str (fed_resource_file_name_or_path (record f))))
    (files_all resource) tt ;;
  print "According to iRODS, files are:" ;;
  let istorage := get_irods_storage resource in
  resource_list fuel env session_output istorage
    (os_path_join (root_path resource) ["data"; "contents"]) 1.

(** [options] of [Command.handle]. *)
Record CommandOptions := {
  resource_ids : list string;
  log : bool
}.

(** [BaseResource.objects.get(short_id=rid)] on the rows [objects]: the one
    match, or [DoesNotExist], or [MultipleObjectsReturned]. *)
Inductive GetResult :=
| Found (r : Resource)
| DoesNotExist
| MultipleObjectsReturned.

Definition objects_get (objects : list Resource) (rid : string) : GetResult :=
  match List.filter (fun r => String.eqb (short_id r) rid) objects with
  | [] => DoesNotExist
  | [r] => Found r
  | _ => MultipleObjectsReturned
  end.

(** How [Command.handle] ends. *)
Inductive CommandOutcome :=
| Finished
| UnboundLocalError (name : string)   (* a local variable read before assignment *)
| MultipleObjectsReturnedError        (* from [objects.get], not caught *)
| Propagated (e : Exn)
| DumpOutOfFuel.

(** The loop of [Command.handle] over [options['resource_ids']];
    [resource] is the local variable of that name, [None] while unassigned. *)
Fixpoint handle_resource_ids (fuel : nat) (env : Env)
    (print_args : list string -> string)
    (session_output : IrodsStorage -> string -> string * string)
    (objects : list Resource) (rids : list string) (resource : option Resource)
    : list Event * CommandOutcome :=
  match rids with
  | [] => ([], Finished)
  | rid :: rids =>
      match objects_get objects rid with
      | MultipleObjectsReturned => ([], MultipleObjectsReturnedError)
      | got =>
          let '(t1, resource) :=
            match got with
            | Found r => ([], Some r)
            | _ =>
                (* except BaseResource.DoesNotExist *)
                let msg := "Resource with id " +:+ rid
                           +:+ " not found in Django Resources" in
                ([Print msg], resource)
            end in
          let t2 := [Print ("LOOKING FOR ERRORS FOR RESOURCE " +:+ rid)] in
          match resource with
          | None => (t1 ++ t2, UnboundLocalError "resource")
          | Some r =>
              match resource_dump fuel env print_args session_output r with
              | (t3, Return _) =>
                  let '(t4, o) :=
                    handle_resource_ids fuel env print_args session_output
                      objects rids (Some r) in
                  (t1 ++ t2 ++ t3 ++ t4, o)
              | (t3, Raise e) => (t1 ++ t2 ++ t3, Propagated e)
              | (t3, OutOfFuel) => (t1 ++ t2 ++ t3, DumpOutOfFuel)
              end
          end
      end
  end.

(** The [else] branch of [Command.handle]: check all resources. *)
Definition handle_all_resources (env : Env) (objects : list Resource) : M unit :=
  print "LOOKING FOR ERRORS FOR ALL RESOURCES" ;;
  for_each
    (fun _ r =>
       let istorage := get_irods_storage r in
       let* e := exists_ env istorage (root_path r) in
       when (negb e) (print ("ERROR: " +:+ root_path r +:+ " does not exist")))
    objects tt.

(** [Command.handle]; [objects] are the rows of [BaseResource.objects]. *)
Definition handle (fuel : nat) (env : Env)
    (print_args : list string -> string)
    (session_output : IrodsStorage -> string -> string * string)
    (objects : list Resource) (options : CommandOptions)
    : list Event * CommandOutcome :=
  if Nat.ltb 0 (List.length (resource_ids options)) then
    handle_resource_ids fuel env print_args session_output objects
      (resource_ids options) None
  else
    match handle_all_resources env objects with
    | (t, Return _) => (t, Finished)
    | (t, Raise e) => (t, Propagated e)
    | (t, OutOfFuel) => (t, DumpOutOfFuel)
    end.

(** * Vocabulary of the properties *)

(** The row with its three name columns folded by [normalize_name]. *)
Definition normalize_record (r : FileRecord) : FileRecord :=
  {| resource_file_name := normalize_name (resource_file_name r);
     fed_resource_file_name := normalize_name (fed_resource_file_name r);
     fed_resource_file_name_or_path :=
       normalize_name (fed_resource_file_name_or_path r);
     file_folder := file_folder r |}.

(** The names [get_effective_path] collects in [nnames]. *)
Definition present_names (r : FileRecord) : list string :=
  append_name
    (append_name
       (append_name [] (normalize_name (resource_file_name r)))
       (normalize_name (fed_resource_file_name r)))
    (normalize_name (fed_resource_file_name_or_path r)).

(** Every emitted event satisfies [P]. *)
Definition quiet {A} (P : Event -> Prop) (m : M A) : Prop := Forall P (fst m).

(** If the computation returns, its value satisfies [Q]. *)
Definition post {A} (Q : A -> Prop) (m : M A) : Prop :=
  forall a, snd m = Return a -> Q a.

(** The computation returns (it neither raises nor runs out of fuel). *)
Definition returns {A} (m : M A) : Prop := exists t a, m = (t, Return a).

(** A message that is not the closing "affected resource" line. *)
Definition not_summary (s : string) : Prop :=
  startswith s "check_irods_files: a" = false.

(** An event that does not put an "affected resource" line on stdout or in
    the error log. *)
Definition itemized (e : Event) : Prop :=
  match e with
  | Print s | LoggerError s => not_summary s
  | _ => True
  end.

(** The loop variables [(errors, ecount)]: with [return_errors] every counted
    error has its line in [errors], without it [errors] stays empty; no line
    is an "affected resource" line. *)
Definition counted (opts : Options) (s : list string * nat) : Prop :=
  List.length (fst s) = (if return_errors opts then snd s else 0)
  /\ Forall not_summary (fst s).

(** The check up to and including Step 3, before the closing block. *)
Definition check_steps_1_3 (fuel : nat) (env : Env) (self : Resource)
    (opts : Options) : M (list string * nat) :=
  let* s := check_steps_1_2 fuel env self opts in
  check_step_3 env self opts s.

(** How many times [m] occurs in [l]. *)
Definition occurrences (m : string) (l : list string) : nat :=
  List.length (List.filter (String.eqb m) l).

(** What the closing block sends to the log and to stdout, and what it
    appends to [errors]. *)
Definition summary_events (self : Resource) (opts : Options) (ecount : nat)
    : list Event :=
  if Nat.ltb 0 ecount then
    (if log_errors opts then [LoggerError (affected_resource_msg self)] else [])
    ++ (if echo_errors opts then [Print (affected_resource_msg self)] else [])
  else [].

Definition summary_lines (self : Resource) (opts : Options) (ecount : nat)
    : list string :=
  if Nat.ltb 0 ecount && return_errors opts
  then [affected_resource_msg self] else [].

(** The directories below [dir] nest at most [n] deep, as far as their
    listings succeed: the walk from [dir] ends within fuel [n]. *)
Inductive walk_bounded (env : Env) (st : IrodsStorage) : nat -> string -> Prop :=
| walk_bounded_failed n dir :
    irods_listdir env st dir = None ->
    walk_bounded env st (S n) dir
| walk_bounded_listed n dir ds fs :
    irods_listdir env st dir = Some (ds, fs) ->
    (forall d, In d ds -> walk_bounded env st n (os_path_join dir [d])) ->
    walk_bounded env st (S n) dir.

(** The record is one [get_effective_path] maps to a triple. *)
Definition infers_triple (env : Env) (f : ResourceFile) : Prop :=
  exists t path folder orig,
    get_effective_path env f = (t, Return (Triple path folder orig)).

(** The message of Step 3 and where it goes. *)
Definition root_missing_msg (self : Resource) : string :=
  "iRODS directory for resource " +:+ short_id self +:+ " does not exist at all".

Definition root_missing_events (self : Resource) (opts : Options) : list Event :=
  (if echo_errors opts then [Print (root_missing_msg self)] else [])
  ++ (if log_errors opts then [LoggerError (root_missing_msg self)] else []).

Definition root_missing_lines (self : Resource) (opts : Options) : list string :=
  if return_errors opts then [root_missing_msg self] else [].

Definition missing_record_msg (fullpath : string) : string :=
  "check_irods_files: file " +:+ fullpath +:+ " in iRODs does not exist in Django".

Definition listing_failed_msg (dir : string) : string :=
  "check_irods_files: listing of iRODS directory " +:+ dir +:+ " failed".

(** What one itemized error sends to stdout and the log, and what it appends
    to [errors]. *)
Definition error_events (opts : Options) (msg : string) : list Event :=
  (if echo_errors opts then [Print msg] else [])
  ++ (if log_errors opts then [LoggerError msg] else []).

Definition error_lines (opts : Options) (msg : string) : list string :=
  if return_errors opts then [msg] else [].

(** The message reached every enabled sink. *)
Definition reported (opts : Options) (t : list Event) (errors : list string)
    (msg : string) : Prop :=
  (echo_errors opts = true -> In (Print msg) t)
  /\ (log_errors opts = true -> In (LoggerError msg) t)
  /\ (return_errors opts = true -> In msg errors).

(** The lines and the count of a walk that returned. *)
Definition walk_lines (m : M (list string * nat)) : list string :=
  match snd m with Return (errors, _) => errors | _ => [] end.

Definition walk_count (m : M (list string * nat)) : nat :=
  match snd m with Return (_, ecount) => ecount | _ => 0 end.

(** The share of one file name of a listing. *)
Definition file_events (all_paths : gmap string Z) (opts : Options)
    (dir fname : string) : list Event :=
  match all_paths !! os_path_join dir [fname] with
  | None => error_events opts (missing_record_msg (os_path_join dir [fname]))
  | Some _ => []
  end.

Definition file_lines (all_paths : gmap string Z) (opts : Options)
    (dir fname : string) : list string :=
  match all_paths !! os_path_join dir [fname] with
  | None => error_lines opts (missing_record_msg (os_path_join dir [fname]))
  | Some _ => []
  end.

Definition file_count (all_paths : gmap string Z) (dir fname : string) : nat :=
  match all_paths !! os_path_join dir [fname] with
  | None => 1
  | Some _ => 0
  end.

(** The loop over the sub-directories, for any walk [W] of one of them. *)
Definition dirs_loop (W : string -> M (list string * nat)) :=
  for_each (fun '(errors, ecount) dname =>
              let* (error2, ecount2) := W dname in
              ret (errors ++ error2, ecount + ecount2)).

(** [p] is the full path of a file listed in [dir] or, through listings that
    succeed, below it. *)
Inductive storage_file (env : Env) (st : IrodsStorage) : string -> string -> Prop :=
| storage_file_here dir ds fs f :
    irods_listdir env st dir = Some (ds, fs) -> In f fs ->
    storage_file env st dir (os_path_join dir [f])
| storage_file_below dir ds fs d p :
    irods_listdir env st dir = Some (ds, fs) -> In d ds ->
    storage_file env st (os_path_join dir [d]) p ->
    storage_file env st dir p.

(** [d] is [dir] or a directory reached from it through listings that
    succeed, and the listing of [d] fails. *)
Inductive failed_directory (env : Env) (st : IrodsStorage) : string -> string -> Prop :=
| failed_directory_here dir :
    irods_listdir env st dir = None ->
    failed_directory env st dir dir
| failed_directory_below dir ds fs d p :
    irods_listdir env st dir = Some (ds, fs) -> In d ds ->
    failed_directory env st (os_path_join dir [d]) p ->
    failed_directory env st dir p.

(** A separator directly followed by another. *)
Fixpoint has_double_sep (s : string) : bool :=
  match s with
  | EmptyString => false
  | String a s' => (Ascii.eqb a sep && startswith s' "/") || has_double_sep s'
  end.

(** A relative path in canonical form: no leading separator and no doubled
    separator, so that every folder segment is non-empty. *)
Definition clean_relative (rel : string) : bool :=
  negb (startswith rel "/") && negb (has_double_sep rel).

(** The federation path of a federated resource carries no trailing
    separator, and its short id is not an absolute path. *)
Definition plain_federation (r : Resource) : bool :=
  if is_federated r then
    negb (endswith (str (resource_federation_path r)) sep)
    && negb (startswith (short_id r) "/")
  else true.

(** The root of a resource as the data model writes it:
    [federation_path/short_id] if federated, else [short_id]. *)
Definition canonical_root (r : Resource) : string :=
  if is_federated r
  then str (resource_federation_path r) +:+ "/" +:+ short_id r
  else short_id r.

(** [p] is a well-formed fully-qualified path of the resource: it is
    [root/data/contents/rel] for the resource's root, and none of its
    segments is empty (the resource has a short id, and no separator is
    directly followed by another). *)
Definition well_formed_fully_qualified (r : Resource) (p : string) : bool :=
  nonempty (short_id r)
  && startswith p (canonical_root r +:+ "/data/contents/")
  && negb (has_double_sep p).

(** The computation neither runs out of fuel nor raises anything but an
    exception in [R]. *)
Definition safe {A} (R : Exn -> Prop) (m : M A) : Prop :=
  match snd m with
  | Return _ => True
  | Raise e => R e
  | OutOfFuel => False
  end.

Definition is_ValidationError (e : Exn) : Prop :=
  exists msg, e = ValidationError msg.

(** An event that is no [listdir] call and, if an [exists] call, goes to the
    storage [st]. *)
Definition asks_only (st : IrodsStorage) (e : Event) : Prop :=
  match e with
  | CallExists st' _ => st' = st
  | CallListdir _ _ => False
  | _ => True
  end.

(** A storage call of the event, if it is one, goes to the storage [st]. *)
Definition stays_on (st : IrodsStorage) (e : Event) : Prop :=
  match e with
  | CallExists st' _ | CallListdir st' _ => st' = st
  | _ => True
  end.

(** The path [get_effective_path] infers for the record, if it returns one. *)
Definition record_path (env : Env) (f : ResourceFile) : option string :=
  match snd (get_effective_path env f) with
  | Return (Triple path _ _) => path
  | _ => None
  end.

(** Step 1 counts the record: nothing is inferred for it, or the inferred
    path is not in the storage of [self]. *)
Definition record_missing (env : Env) (self : Resource) (f : ResourceFile) : bool :=
  match record_path env f with
  | None => true
  | Some p => negb (irods_exists env (get_irods_storage self) p)
  end.

(** The line of Step 1 for the record. *)
Definition record_msg (env : Env) (f : ResourceFile) : string :=
  match snd (get_effective_path env f) with
  | Return (Triple path folder orig) =>
      "check_irods_files: django file " +:+ str orig
      +:+ " in folder " +:+ str folder +:+ ","
      +:+ " resolved to " +:+ str path +:+ ", does not exist in iRODS"
  | _ => ""
  end.

Definition record_lines (env : Env) (self : Resource) (opts : Options)
    (f : ResourceFile) : list string :=
  if record_missing env self f then error_lines opts (record_msg env f) else [].

(** [all_paths] after the Step 1 loop over the records [l]. *)
Definition claimed_paths (env : Env) (l : list ResourceFile)
    (all_paths : gmap string Z) : gmap string Z :=
  fold_left
    (fun all_paths f =>
       match record_path env f with
       | Some p => <[p := 1%Z]> all_paths
       | None => all_paths
       end)
    l all_paths.

(** The line is justified by the storage below [dir]: it names a file found
    there that [all_paths] does not hold, or a directory found there whose
    listing fails. *)
Definition justified_line (env : Env) (st : IrodsStorage)
    (all_paths : gmap string Z) (dir line : string) : Prop :=
  (exists p, storage_file env st dir p /\ all_paths !! p = None
             /\ line = missing_record_msg p)
  \/ (exists d, failed_directory env st dir d /\ line = listing_failed_msg d).

(** A line about a storage file without a record: lines of the other kinds
    differ from it within their first twenty characters. *)
Definition is_file_line (s : string) : bool :=
  startswith s "check_irods_files: f".

(** The two computations make the same storage calls in the same order, and
    one returns exactly when the other does. *)
Definition same_storage_calls {A B} (m1 : M A) (m2 : M B) : Prop :=
  storage_calls (fst m1) = storage_calls (fst m2)
  /\ (returns m1 <-> returns m2).

(** The computation returns without a storage call. *)
Definition silent {A} (m : M A) : Prop :=
  storage_calls (fst m) = [] /\ returns m.

(** The computation ends without an exception: it returns or runs out of
    fuel. *)
Definition never_raises {A} (m : M A) : Prop := forall e, snd m <> Raise e.

(** An event that is no [listdir] call. *)
Definition no_listdir (e : Event) : Prop :=
  match e with
  | CallListdir _ _ => False
  | _ => True
  end.

(** The options with [stop_on_error] off and [return_errors] on: the run
    that goes on after an error and keeps the line of each. *)
Definition without_stop (opts : Options) : Options :=
  {| stop_on_error := false; log_errors := log_errors opts;
     echo_errors := echo_errors opts; return_errors := true |}.

(** [m] stops at the first error of a run that goes on, whose trace is [t]
    and whose lines are [errors]: if there is no line, [m] has the same
    trace and returns [clean]; otherwise [m] raises [ValidationError] with
    the first line, after a prefix of [t]. *)
Definition stops_at_first_error {A} (t : list Event) (errors : list string)
    (clean : A) (m : M A) : Prop :=
  match errors with
  | [] => m = (t, Return clean)
  | msg :: _ =>
      exists t' rest, t = t' ++ rest /\ m = (t', Raise (ValidationError msg))
  end.

(** * Sample resources, records and storage *)

Definition two_names_resource : Resource :=
  {| short_id := "abc"; resource_federation_path := None;
     resource_type := "GenericResource"; title := "T";
     files := [ {| resource_file_name := Some "a.txt";
                   fed_resource_file_name := Some "b.txt";
                   fed_resource_file_name_or_path := None;
                   file_folder := None |} ] |}.

Definition everything_exists : Env :=
  {| REMOTE_USE_IRODS := true;
     irods_exists := fun _ _ => true;
     irods_listdir := fun _ _ => Some ([], []) |}.

Definition report_all : Options :=
  {| stop_on_error := false; log_errors := true;
     echo_errors := false; return_errors := true |}.

Definition unfederated_resource_with_fed_name : Resource :=
  {| short_id := "abc"; resource_federation_path := None;
     resource_type := "GenericResource"; title := "T";
     files := [ {| resource_file_name := None;
                   fed_resource_file_name := Some "abc/data/contents/f.txt";
                   fed_resource_file_name_or_path := None;
                   file_folder := None |} ] |}.

Definition storage_with_f_txt : Env :=
  {| REMOTE_USE_IRODS := true;
     irods_exists := fun _ p =>
       String.eqb p "abc" || String.eqb p "abc/data/contents/f.txt";
     irods_listdir := fun _ p =>
       if String.eqb p "abc/data/contents" then Some ([], ["f.txt"]) else None |}.

Definition missing_everything : Env :=
  {| REMOTE_USE_IRODS := false;
     irods_exists := fun _ _ => false;
     irods_listdir := fun _ _ => None |}.

Definition empty_resource : Resource :=
  {| short_id := "abc"; resource_federation_path := None;
     resource_type := "GenericResource"; title := "T"; files := [] |}.

Definition sub_folder_storage : Env :=
  {| REMOTE_USE_IRODS := true;
     irods_exists := fun _ _ => true;
     irods_listdir := fun _ p =>
       if String.eqb p "abc/data/contents" then Some (["sub"], ["f.txt"])
       else if String.eqb p "abc/data/contents/sub" then Some ([], ["g.txt"])
       else None |}.

Definition one_record_resource : Resource :=
  {| short_id := "abc"; resource_federation_path := None;
     resource_type := "GenericResource"; title := "T";
     files := [ {| resource_file_name := Some "f.txt";
                   fed_resource_file_name := None;
                   fed_resource_file_name_or_path := None;
                   file_folder := None |} ] |}.

Definition nameless_record_resource : Resource :=
  {| short_id := "abc"; resource_federation_path := None;
     resource_type := "GenericResource"; title := "T";
     files := [ {| resource_file_name := None;
                   fed_resource_file_name := None;
                   fed_resource_file_name_or_path := None;
                   file_folder := None |} ] |}.

Definition stop_at_first : Options :=
  {| stop_on_error := true; log_errors := true;
     echo_errors := false; return_errors := true |}.

Definition federated_resource : Resource :=
  {| short_id := "abc";
     resource_federation_path := Some "/otherZone/home/proxy";
     resource_type := "GenericResource"; title := "T";
     files := [ {| resource_file_name := None;
                   fed_resource_file_name :=
                     Some "/otherZone/home/proxy/abc/data/contents/f.txt";
                   fed_resource_file_name_or_path := None;
                   file_folder := None |} ] |}.

(** An existing root directory with nothing in it: the content directory
    [abc/data/contents] is not there, and listing it fails. *)
Definition empty_root_directory : Env :=
  {| REMOTE_USE_IRODS := true;
     irods_exists := fun _ p => String.eqb p "abc";
     irods_listdir := fun _ p =>
       if String.eqb p "abc" then Some ([], []) else None |}.

(** A content directory with a file that has a record, a sub-directory that
    cannot be listed, and next to it a sub-directory holding, one level
    further down, a file without a record. *)
Definition storage_with_failed_sibling : Env :=
  {| REMOTE_USE_IRODS := true;
     irods_exists := fun _ _ => true;
     irods_listdir := fun _ p =>
       if String.eqb p "abc/data/contents" then Some (["bad"; "sub"], ["f.txt"])
       else if String.eqb p "abc/data/contents/sub" then Some (["deep"], [])
       else if String.eqb p "abc/data/contents/sub/deep" then Some ([], ["g.txt"])
       else None |}.

Definition recorded_paths : gmap string Z :=
  <["abc/data/contents/f.txt" := 1%Z]> ∅.

Definition sub_folder_file : ResourceFile :=
  {| resource := one_record_resource;
     record := {| resource_file_name := Some "abc/data/contents/sub/g.txt";
                  fed_resource_file_name := None;
                  fed_resource_file_name_or_path := None;
                  file_folder := Some "sub" |} |}.

Definition federated_file : ResourceFile :=
  {| resource := federated_resource;
     record := {| resource_file_name := None;
                  fed_resource_file_name :=
                    Some "/otherZone/home/proxy/abc/data/contents/f.txt";
                  fed_resource_file_name_or_path := None;
                  file_folder := None |} |}.

Definition malformed_name_or_path_file : ResourceFile :=
  {| resource := federated_resource;
     record := {| resource_file_name := None;
                  fed_resource_file_name := None;
                  fed_resource_file_name_or_path :=
                    Some "/otherZone/home/proxy/abc/data/contentsX/f.txt";
                  file_folder := None |} |}.

Definition nameless_file : ResourceFile :=
  {| resource := nameless_record_resource;
     record := {| resource_file_name := Some "None";
                  fed_resource_file_name := Some "";
                  fed_resource_file_name_or_path := None;
                  file_folder := Some "sub" |} |}.

(** Echo to stdout only, as the command would with [return_errors=False]. *)
Definition echo_only : Options :=
  {| stop_on_error := false; log_errors := false;
     echo_errors := true; return_errors := false |}.

(** A row whose only name is an absolute path outside the resource. *)
Definition absolute_name_file : ResourceFile :=
  {| resource := one_record_resource;
     record := {| resource_file_name := None;
                  fed_resource_file_name := None;
                  fed_resource_file_name_or_path :=
                    Some "/otherZone/home/bob/x.txt";
                  file_folder := None |} |}.

(** A row of a federated resource that only has an unfederated name. *)
Definition unfederated_name_file : ResourceFile :=
  {| resource := federated_resource;
     record := {| resource_file_name := Some "f.txt";
                  fed_resource_file_name := None;
                  fed_resource_file_name_or_path := None;
                  file_folder := None |} |}.

(** A row whose name carries another folder than the row declares. *)
Definition misfiled_file : ResourceFile :=
  {| resource := one_record_resource;
     record := {| resource_file_name := Some "x/f.txt";
                  fed_resource_file_name := None;
                  fed_resource_file_name_or_path := None;
                  file_folder := Some "y" |} |}.

(** [print] of several arguments writes them separated by one space. *)
Definition python_print_args (args : list string) : string :=
  String.concat " " args.

(** A [SessionException] without captured output. *)
Definition no_session_output (st : IrodsStorage) (path : string)
    : string * string := ("", "").

(** * Properties *)

(** ** [os.path] on samples *)

Example os_path_join_ex1 :
  Py.os_path_join "abc" ["data"; "contents"] = "abc/data/contents".
Proof. reflexivity. Qed.

Example os_path_join_ex2 : Py.os_path_join "/zone/" ["abc"; "/x"; "y"] = "/x/y".
Proof. reflexivity. Qed.

Example os_path_split_ex1 : Py.os_path_split "a/b/c.txt" = ("a/b", "c.txt").
Proof. reflexivity. Qed.

Example os_path_split_ex2 : Py.os_path_split "c.txt" = ("", "c.txt").
Proof. reflexivity. Qed.

Example os_path_split_ex3 : Py.os_path_split "/c.txt" = ("/", "c.txt").
Proof. reflexivity. Qed.

Example os_path_split_ex4 : Py.os_path_split "a//b" = ("a", "b").
Proof. reflexivity. Qed.

(** ** Sentinel normalization *)

Lemma normalize_name_idem name :
  normalize_name (normalize_name name) = normalize_name name.
Proof.
  destruct name as [s|]; simpl; [|reflexivity].
  destruct (String.eqb s "" || String.eqb s "None") eqn:E; simpl; [reflexivity|].
  rewrite E. reflexivity.
Qed.

Lemma get_effective_path_normalized env resource r :
  get_effective_path env {| resource := resource; record := r |} =
  get_effective_path env {| resource := resource; record := normalize_record r |}.
Proof.
  unfold get_effective_path; simpl.
  rewrite !normalize_name_idem. reflexivity.
Qed.

(** C9. In each of the three name columns, the empty string and the literal
    text ["None"] are folded to [None] before [get_effective_path] branches:
    the call on the row equals the call on the row with that column absent
    (same events, same result), and the call on any row equals the call on
    its normalized row. *)
Theorem get_effective_path_sentinel_is_absent :
  forall env resource (a b c folder : option string),
    let gep a b c :=
      get_effective_path env
        {| resource := resource;
           record := {| resource_file_name := a;
                        fed_resource_file_name := b;
                        fed_resource_file_name_or_path := c;
                        file_folder := folder |} |} in
    (gep (Some "") b c = gep None b c /\ gep (Some "None") b c = gep None b c)
    /\ (gep a (Some "") c = gep a None c /\ gep a (Some "None") c = gep a None c)
    /\ (gep a b (Some "") = gep a b None /\ gep a b (Some "None") = gep a b None)
    /\ gep a b c = gep (normalize_name a) (normalize_name b) (normalize_name c).
Proof.
  intros env resource a b c folder gep.
  repeat split; subst gep; cbv beta;
    try (rewrite get_effective_path_normalized; symmetry;
         rewrite get_effective_path_normalized; reflexivity).
  rewrite get_effective_path_normalized. reflexivity.
Qed.

(** ** Monad laws used below *)

Lemma bind_Return {A B} t (a : A) (k : A -> M B) :
  bind (t, Return a) k = (t ++ fst (k a), snd (k a)).
Proof. unfold bind. destruct (k a); reflexivity. Qed.

Lemma bind_ret {A B} (a : A) (k : A -> M B) : bind (ret a) k = k a.
Proof. unfold ret. rewrite bind_Return. destruct (k a); reflexivity. Qed.

Lemma bind_Raise {A B} t e (k : A -> M B) : bind (t, Raise e) k = (t, Raise e).
Proof. reflexivity. Qed.

Lemma bind_OutOfFuel {A B} t (k : A -> M B) :
  bind (t, OutOfFuel) k = (t, OutOfFuel).
Proof. reflexivity. Qed.

Lemma bind_emit {B} e (k : unit -> M B) :
  bind (emit e) k = (e :: fst (k tt), snd (k tt)).
Proof. unfold emit. rewrite bind_Return. reflexivity. Qed.

Lemma for_each_print_names (f : string -> string) l :
  for_each (fun (_ : unit) n => print (f n)) l tt =
  (map (fun n => Print (f n)) l, Return tt).
Proof.
  induction l as [|n l IH]; [reflexivity|].
  cbn [for_each map]. unfold print at 1. rewrite bind_emit, IH. reflexivity.
Qed.

(** ** More than one name *)

(** C1 (what the code does). For a row with more than one name left after
    normalization, [get_effective_path] prints one
    "more than one name for file" line followed by the names, and returns a
    bare [None], not a triple; the unpacking at its only call site, in
    Step 1, then raises [TypeError]. *)
Theorem get_effective_path_multiple_names :
  forall env file,
    1 < List.length (present_names (record file)) ->
    get_effective_path env file =
      (Print "ERROR: more than one name for file:"
         :: map (fun n => Print ("   " +:+ n)) (present_names (record file)),
       Return BareNone)
    /\ forall self opts s,
        snd (check_file env self opts s file) =
          Raise (TypeError "'NoneType' object is not iterable").
Proof.
  intros env file H.
  assert (E : get_effective_path env file =
      (Print "ERROR: more than one name for file:"
         :: map (fun n => Print ("   " +:+ n)) (present_names (record file)),
       Return BareNone)).
  { unfold get_effective_path. fold (present_names (record file)).
    apply Nat.ltb_lt in H. rewrite H.
    unfold print at 1. rewrite bind_emit.
    rewrite for_each_print_names. rewrite bind_Return. simpl.
    rewrite app_nil_r. reflexivity. }
  split; [exact E|].
  intros self opts [[all_paths errors] ecount].
  unfold check_file. rewrite E. reflexivity.
Qed.

Lemma get_effective_path_multiple_names_witness :
  get_effective_path everything_exists
    {| resource := two_names_resource;
       record := {| resource_file_name := Some "a.txt";
                    fed_resource_file_name := Some "b.txt";
                    fed_resource_file_name_or_path := None;
                    file_folder := None |} |} =
    ([Print "ERROR: more than one name for file:";
      Print "   a.txt"; Print "   b.txt"], Return BareNone)
  /\ resource_check_irods_files 1 everything_exists two_names_resource report_all =
       ([Print "ERROR: more than one name for file:";
         Print "   a.txt"; Print "   b.txt"],
        Raise (TypeError "'NoneType' object is not iterable")).
Proof.
  split; [|vm_compute; reflexivity].
  apply (get_effective_path_multiple_names everything_exists
           {| resource := two_names_resource;
              record := {| resource_file_name := Some "a.txt";
                           fed_resource_file_name := Some "b.txt";
                           fed_resource_file_name_or_path := None;
                           file_folder := None |} |}).
  vm_compute. lia.
Defined.

(** ** Federation mismatch *)

(** A name in [resource_file.name] on a federated resource: the mismatch is
    reported and nothing is inferred (the [elif] chain of part 1 ends there). *)
Lemma local_name_on_federated_resource env res path folder :
  is_federated res = true ->
  normalize_name (Some path) = Some path ->
  get_effective_path env
    {| resource := res;
       record := {| resource_file_name := Some path;
                    fed_resource_file_name := None;
                    fed_resource_file_name_or_path := None;
                    file_folder := folder |} |} =
    ([Print ("ERROR: unfederated file declared for federated resource "
             +:+ short_id res +:+ " (" +:+ resource_type res +:+ "): "
             +:+ path);
      Print ("ERROR: no valid file name defined for " +:+ short_id res
             +:+ " (" +:+ resource_type res +:+ ")")],
     Return (Triple None folder (Some path))).
Proof.
  intros Hfed Hnorm.
  unfold get_effective_path. cbn [record resource resource_file_name
    fed_resource_file_name fed_resource_file_name_or_path file_folder].
  rewrite Hnorm. cbn [normalize_name append_name List.length app Nat.ltb Nat.leb].
  unfold effective_path_part1. cbn [resource]. rewrite Hfed.
  reflexivity.
Qed.

(** C2 (what the code does). A name in [fed_resource_file.name] on an
    unfederated resource: the mismatch line is printed, but part 2 goes on
    (an [if] where part 1 has an [elif]), resolves the path, and returns it;
    Step 1 finds it in storage and counts no error, so the whole check
    reports the resource as consistent. *)
Theorem fed_name_on_unfederated_resource_accepted :
  get_effective_path storage_with_f_txt
    {| resource := unfederated_resource_with_fed_name;
       record := {| resource_file_name := None;
                    fed_resource_file_name := Some "abc/data/contents/f.txt";
                    fed_resource_file_name_or_path := None;
                    file_folder := None |} |} =
    ([Print ("ERROR: federated file declared for unfederated resource abc "
             +:+ "(GenericResource): abc/data/contents/f.txt");
      CallExists IrodsStorageDefault "abc/data/contents/f.txt";
      CallExists IrodsStorageDefault "abc/data/contents/f.txt";
      CallExists IrodsStorageDefault "abc/data/contents/f.txt"],
     Return (Triple (Some "abc/data/contents/f.txt") None
               (Some "abc/data/contents/f.txt")))
  /\ snd (resource_check_irods_files 2 storage_with_f_txt
            unfederated_resource_with_fed_name report_all) = Return ([], 0).
Proof. split; vm_compute; reflexivity. Qed.

(** ** [resource_path_is_acceptable] without existence tests *)

Lemma check_exists_off env storage path msg :
  check_exists env false storage path msg = ret tt.
Proof. reflexivity. Qed.

(** C10. With [test_exists=False], [resource_path_is_acceptable] emits no
    event at all (so no iRODS call), gives the same result under any two
    environments and for any two resources that agree on [short_id] and
    [resource_federation_path], and ends either with a [(folder, base)] pair
    or with the "Malformed federated resource path" [ValidationError]. *)
Theorem resource_path_is_acceptable_without_test_exists :
  forall env env' sid fed ty ty' ti ti' fs fs' path,
    let r := {| short_id := sid; resource_federation_path := fed;
                resource_type := ty; title := ti; files := fs |} in
    let r' := {| short_id := sid; resource_federation_path := fed;
                 resource_type := ty'; title := ti'; files := fs' |} in
    fst (resource_path_is_acceptable env r path false) = []
    /\ resource_path_is_acceptable env r path false =
       resource_path_is_acceptable env' r' path false
    /\ ((exists folder base,
           snd (resource_path_is_acceptable env r path false) =
             Return (folder, base))
        \/ snd (resource_path_is_acceptable env r path false) =
             Raise (ValidationError "Malformed federated resource path")).
Proof.
  intros env env' sid fed ty ty' ti ti' fs fs' path r r'.
  split; [|split].
  - unfold resource_path_is_acceptable. rewrite !check_exists_off.
    cbn [resource_federation_path r].
    destruct fed as [f|];
      repeat (match goal with
              | |- context [if ?b then _ else _] => destruct b
              | |- context [let '(_, _) := ?p in _] => destruct p
              end; rewrite ?bind_ret; cbn [fst ret raise bind]);
      reflexivity.
  - reflexivity.
  - unfold resource_path_is_acceptable. rewrite !check_exists_off.
    cbn [resource_federation_path r].
    destruct fed as [f|];
      repeat (match goal with
              | |- context [if ?b then _ else _] => destruct b
              | |- context [let '(_, _) := ?p in _] => destruct p
              end; rewrite ?bind_ret; cbn [snd ret raise bind]);
      eauto.
Qed.

(** ** Reasoning about computations: traces, results, termination *)

Section Hoare.

Variable P : Event -> Prop.

Lemma quiet_ret {A} (a : A) : quiet P (ret a).
Proof. constructor. Qed.

Lemma quiet_raise {A} e : quiet P (raise (A:=A) e).
Proof. constructor. Qed.

Lemma quiet_emit e : P e -> quiet P (emit e).
Proof. intros H. repeat constructor. exact H. Qed.

Lemma quiet_bind {A B} (m : M A) (k : A -> M B) :
  quiet P m -> (forall a, quiet P (k a)) -> quiet P (bind m k).
Proof.
  unfold quiet. destruct m as [t [a| |]]; simpl; intros Hm Hk; try exact Hm.
  specialize (Hk a). destruct (k a) as [t' o]. simpl in *.
  apply Forall_app; split; assumption.
Qed.

Lemma quiet_when b (m : M unit) : quiet P m -> quiet P (when b m).
Proof. destruct b; [trivial | constructor]. Qed.

Lemma quiet_try {A} (body handler : M A) :
  quiet P body -> quiet P handler ->
  quiet P (try_except_ValidationError body handler).
Proof.
  unfold quiet, try_except_ValidationError.
  destruct body as [t [a|[msg|msg]|]]; simpl; intros Hb Hh; try exact Hb.
  destruct handler as [t' o]. simpl in *. apply Forall_app; split; assumption.
Qed.

Lemma quiet_exists env st path :
  P (CallExists st path) -> quiet P (exists_ env st path).
Proof. intros H. repeat constructor. exact H. Qed.

Lemma quiet_listdir env st dir :
  P (CallListdir st dir) -> quiet P (listdir env st dir).
Proof. intros H. repeat constructor. exact H. Qed.

Lemma quiet_for_each {A S} (body : S -> A -> M S) l s :
  (forall s x, quiet P (body s x)) -> quiet P (for_each body l s).
Proof.
  intros Hb. revert s. induction l as [|x l IH]; intros s; cbn [for_each].
  - apply quiet_ret.
  - apply quiet_bind; [apply Hb | intros s'; apply IH].
Qed.

(** Results *)

Lemma post_ret {A} (Q : A -> Prop) a : Q a -> post Q (ret a).
Proof. intros H b E. inversion E. subst. exact H. Qed.

Lemma post_raise {A} (Q : A -> Prop) e : post Q (raise e).
Proof. intros b E. discriminate E. Qed.

Lemma post_bind {A B} (Q1 : A -> Prop) (Q : B -> Prop) (m : M A) (k : A -> M B) :
  post Q1 m -> (forall a, Q1 a -> post Q (k a)) -> post Q (bind m k).
Proof.
  unfold post. destruct m as [t [a| |]]; simpl; intros Hm Hk b E;
    try discriminate E.
  specialize (Hk a (Hm a eq_refl) b). destruct (k a) as [t' o].
  simpl in *. auto.
Qed.

Lemma post_weaken {A} (Q Q' : A -> Prop) (m : M A) :
  post Q m -> (forall a, Q a -> Q' a) -> post Q' m.
Proof. unfold post. auto. Qed.

Lemma post_for_each {A S} (I : S -> Prop) (body : S -> A -> M S) l s :
  (forall s x, I s -> post I (body s x)) -> I s -> post I (for_each body l s).
Proof.
  intros Hb. revert s. induction l as [|x l IH]; intros s Hs; cbn [for_each].
  - apply post_ret, Hs.
  - eapply post_bind; [apply Hb, Hs | intros s' Hs'; apply IH, Hs'].
Qed.

(** Termination *)

Lemma returns_ret {A} (a : A) : returns (ret a).
Proof. exists [], a. reflexivity. Qed.

Lemma returns_bind {A B} (Q : A -> Prop) (m : M A) (k : A -> M B) :
  returns m -> post Q m -> (forall a, Q a -> returns (k a)) ->
  returns (bind m k).
Proof.
  intros (t & a & ->) Hq Hk. destruct (Hk a (Hq a eq_refl)) as (t' & b & E).
  exists (t ++ t'), b. unfold bind. rewrite E. reflexivity.
Qed.

Lemma returns_when b (m : M unit) : returns m -> returns (when b m).
Proof. intros H. destruct b; [exact H | apply (returns_ret tt)]. Qed.

Lemma returns_emit e : returns (emit e).
Proof. exists [e], tt. reflexivity. Qed.

Lemma returns_for_each {A S} (I : S -> Prop) (body : S -> A -> M S) l s :
  (forall s x, In x l -> I s -> returns (body s x) /\ post I (body s x)) ->
  I s -> returns (for_each body l s).
Proof.
  revert s. induction l as [|x l IH]; intros s Hb Hs; cbn [for_each].
  - apply returns_ret.
  - destruct (Hb s x (or_introl eq_refl) Hs) as [Hr Hp].
    eapply returns_bind; [exact Hr | exact Hp |].
    intros s' Hs'. apply IH; [|exact Hs'].
    intros s0 y Hy. apply Hb. right. exact Hy.
Qed.

End Hoare.

(** ** Itemized diagnostics and the error count *)

Lemma counted_nil opts : counted opts ([], 0).
Proof. split; [destruct (return_errors opts); reflexivity | constructor]. Qed.

Lemma counted_error opts errors ecount msg :
  counted opts (errors, ecount) -> not_summary msg ->
  counted opts (if return_errors opts then errors ++ [msg] else errors, ecount + 1).
Proof.
  unfold counted; simpl. intros [Hl Hf] Hm.
  destruct (return_errors opts).
  - split; [rewrite length_app, Hl; reflexivity|].
    apply Forall_app; split; [exact Hf | repeat constructor; exact Hm].
  - split; assumption.
Qed.

Lemma counted_extend opts errors ecount error2 ecount2 :
  counted opts (errors, ecount) -> counted opts (error2, ecount2) ->
  counted opts (errors ++ error2, ecount + ecount2).
Proof.
  unfold counted; simpl. intros [Hl Hf] [Hl2 Hf2]. split.
  - rewrite length_app, Hl, Hl2. destruct (return_errors opts); reflexivity.
  - apply Forall_app; split; assumption.
Qed.

Create HintDb quiet.

Ltac quiet_auto :=
  repeat first
    [ solve [auto 1 with quiet nocore]
    | progress cbv zeta
    | apply quiet_ret
    | apply quiet_raise
    | apply quiet_emit; first [exact I | reflexivity]
    | apply quiet_exists; exact I
    | apply quiet_listdir; exact I
    | apply quiet_when
    | apply quiet_try
    | apply quiet_bind; [|intros ?]
    | match goal with
      | |- quiet _ (if ?b then _ else _) => destruct b
      | |- quiet _ (match ?x with _ => _ end) => destruct x
      end ].

Lemma resource_path_is_acceptable_itemized env res path test_exists :
  quiet itemized (resource_path_is_acceptable env res path test_exists).
Proof.
  unfold resource_path_is_acceptable, check_exists. quiet_auto.
Qed.

#[local] Hint Resolve resource_path_is_acceptable_itemized : quiet.

Lemma get_path_from_short_path_itemized env file path test_exists :
  quiet itemized (get_path_from_short_path env file path test_exists).
Proof.
  unfold get_path_from_short_path. quiet_auto.
Qed.

#[local] Hint Resolve get_path_from_short_path_itemized : quiet.

Lemma qualify_in_record_folder_itemized env file folder base :
  quiet itemized (qualify_in_record_folder env file folder base).
Proof.
  unfold qualify_in_record_folder.
  destruct folder; apply get_path_from_short_path_itemized.
Qed.

#[local] Hint Resolve qualify_in_record_folder_itemized : quiet.

Lemma get_effective_path_itemized env file :
  quiet itemized (get_effective_path env file).
Proof.
  unfold get_effective_path, effective_path_part1, effective_path_part2,
    effective_path_part3, get_path_from_storage_path, path_is_acceptable.
  repeat first [ apply quiet_for_each; intros ? ? | progress quiet_auto ].
Qed.

#[local] Hint Resolve get_effective_path_itemized : quiet.

Ltac post_skip :=
  eapply post_bind with (Q1 := fun _ => True);
  [ intros ? _; exact I | intros ? _ ].

Lemma check_file_itemized env self opts s f :
  quiet itemized (check_file env self opts s f).
Proof.
  unfold check_file. destruct s as [[all_paths errors] ecount]. quiet_auto.
Qed.

Lemma check_file_counted env self opts s f :
  counted opts (snd (fst s), snd s) ->
  post (fun s' => counted opts (snd (fst s'), snd s'))
    (check_file env self opts s f).
Proof.
  destruct s as [[all_paths errors] ecount]; cbn [fst snd]. intros Hs.
  unfold check_file. post_skip. destruct a as [|path folder orig].
  - apply post_raise.
  - cbv zeta. post_skip. destruct a.
    + do 3 post_skip. apply post_ret. cbn [fst snd].
      apply counted_error; [exact Hs | reflexivity].
    + apply post_ret. exact Hs.
Qed.

Lemma resource_check_irods_directory_itemized fuel env self dir all_paths opts :
  quiet itemized (resource_check_irods_directory fuel env self dir all_paths opts).
Proof.
  revert dir. induction fuel as [|fuel IH]; intros dir;
    cbn [resource_check_irods_directory]; [constructor|].
  cbv zeta. apply quiet_bind; [apply quiet_listdir; exact I|].
  intros [[ds fs]|].
  - apply quiet_bind.
    + apply quiet_for_each. intros [errors ecount] fname.
      unfold check_storage_file. quiet_auto.
    + intros [errors ecount]. apply quiet_for_each.
      intros [errors' ecount'] dname. apply quiet_bind; [apply IH|].
      intros [error2 ecount2]. apply quiet_ret.
  - quiet_auto.
Qed.

Lemma resource_check_irods_directory_counted fuel env self dir all_paths opts :
  post (counted opts)
    (resource_check_irods_directory fuel env self dir all_paths opts).
Proof.
  revert dir. induction fuel as [|fuel IH]; intros dir;
    cbn [resource_check_irods_directory]; [intros a E; discriminate E|].
  cbv zeta. post_skip. destruct a as [[ds fs]|].
  - eapply post_bind with (Q1 := counted opts).
    + apply post_for_each; [|apply counted_nil].
      intros [errors ecount] fname Hs. unfold check_storage_file.
      cbv zeta. destruct (all_paths !! _).
      * apply post_ret. exact Hs.
      * do 3 post_skip. apply post_ret.
        apply counted_error; [exact Hs | reflexivity].
    + intros [errors ecount] Hs. cbn [fst].
      apply post_for_each; [|exact Hs].
      intros [errors' ecount'] dname Hs'.
      eapply post_bind; [apply IH|].
      intros [error2 ecount2] H2. apply post_ret.
      apply counted_extend; assumption.
  - do 3 post_skip. apply post_ret.
    apply (counted_error opts [] 0); [apply counted_nil | reflexivity].
Qed.

#[local] Hint Resolve check_file_itemized
  resource_check_irods_directory_itemized : quiet.

Lemma check_steps_1_2_itemized fuel env self opts :
  quiet itemized (check_steps_1_2 fuel env self opts).
Proof.
  unfold check_steps_1_2.
  repeat first [ apply quiet_for_each; intros ? ? | progress quiet_auto ].
Qed.

Lemma check_steps_1_2_counted fuel env self opts :
  post (counted opts) (check_steps_1_2 fuel env self opts).
Proof.
  unfold check_steps_1_2. cbv zeta. post_skip.
  destruct (is_federated self && negb (REMOTE_USE_IRODS env)).
  - do 2 post_skip. apply post_ret, counted_nil.
  - eapply post_bind with
      (Q1 := fun s' => counted opts (snd (fst s'), snd s')).
    + apply post_for_each; [|apply counted_nil].
      intros s x Hs. apply check_file_counted, Hs.
    + intros [[all_paths errors] ecount] Hs. cbn [fst snd] in Hs.
      eapply post_bind; [apply resource_check_irods_directory_counted|].
      intros [error2 ecount2] H2. apply post_ret.
      apply counted_extend; assumption.
Qed.

Lemma check_step_3_itemized env self opts s :
  quiet itemized (check_step_3 env self opts s).
Proof. unfold check_step_3. destruct s as [errors ecount]. quiet_auto. Qed.

Lemma check_step_3_counted env self opts s :
  counted opts s -> post (counted opts) (check_step_3 env self opts s).
Proof.
  destruct s as [errors ecount]. intros Hs. unfold check_step_3. cbv zeta.
  post_skip. destruct (negb a).
  - do 2 post_skip. apply post_ret.
    apply counted_error; [exact Hs | reflexivity].
  - apply post_ret. exact Hs.
Qed.

(** ** The closing "affected resource" line *)

Lemma bind_ret_r {A} (m : M A) : bind m (fun a => ret a) = m.
Proof.
  destruct m as [t [a| |]]; simpl; [rewrite app_nil_r|..]; reflexivity.
Qed.

Lemma bind_assoc {A B C} (m : M A) (k : A -> M B) (h : B -> M C) :
  bind (bind m k) h = bind m (fun a => bind (k a) h).
Proof.
  destruct m as [t [a| |]]; simpl; try reflexivity.
  destruct (k a) as [t' [b| |]]; simpl; try reflexivity.
  destruct (h b) as [t'' o]. rewrite app_assoc. reflexivity.
Qed.

Lemma resource_check_irods_files_steps fuel env self opts :
  resource_check_irods_files fuel env self opts =
  bind (check_steps_1_3 fuel env self opts) (check_summary self opts).
Proof.
  unfold resource_check_irods_files, check_steps_1_3.
  rewrite bind_assoc.
  destruct (check_steps_1_2 fuel env self opts) as [t [s| |]]; try reflexivity.
  rewrite !bind_Return.
  destruct (check_step_3 env self opts s) as [t' [s'| |]]; try reflexivity.
  rewrite !bind_Return, bind_ret_r. reflexivity.
Qed.

Lemma check_summary_run self opts errors ecount :
  check_summary self opts (errors, ecount) =
  (summary_events self opts ecount,
   Return (errors ++ summary_lines self opts ecount, ecount)).
Proof.
  unfold check_summary, summary_events, summary_lines.
  destruct (Nat.ltb 0 ecount), (log_errors opts), (echo_errors opts),
    (return_errors opts); cbn; rewrite ?app_nil_r; reflexivity.
Qed.

Lemma check_steps_1_3_itemized fuel env self opts :
  quiet itemized (check_steps_1_3 fuel env self opts).
Proof.
  apply quiet_bind; [apply check_steps_1_2_itemized|].
  intros s. apply check_step_3_itemized.
Qed.

Lemma check_steps_1_3_counted fuel env self opts :
  post (counted opts) (check_steps_1_3 fuel env self opts).
Proof.
  eapply post_bind; [apply check_steps_1_2_counted|].
  intros s Hs. apply check_step_3_counted, Hs.
Qed.

Lemma not_summary_neq self s :
  not_summary s -> String.eqb (affected_resource_msg self) s = false.
Proof.
  intros Hs. apply String.eqb_neq. intros <-.
  unfold not_summary in Hs. discriminate Hs.
Qed.

Lemma occurrences_app m l1 l2 :
  occurrences m (l1 ++ l2) = occurrences m l1 + occurrences m l2.
Proof. unfold occurrences. rewrite List.filter_app, length_app. reflexivity. Qed.

Lemma occurrences_not_summary self l :
  Forall not_summary l -> occurrences (affected_resource_msg self) l = 0.
Proof.
  unfold occurrences. induction 1 as [|s l Hs _ IH]; [reflexivity|].
  cbn [List.filter]. rewrite (not_summary_neq self s Hs). exact IH.
Qed.

Lemma itemized_stdout t : Forall itemized t -> Forall not_summary (stdout t).
Proof.
  induction 1 as [|e t He _ IH]; [constructor|].
  destruct e; cbn [stdout flat_map app]; try exact IH.
  constructor; assumption.
Qed.

Lemma itemized_error_log t :
  Forall itemized t -> Forall not_summary (error_log t).
Proof.
  induction 1 as [|e t He _ IH]; [constructor|].
  destruct e; cbn [error_log flat_map app]; try exact IH.
  constructor; assumption.
Qed.

Lemma stdout_app t1 t2 : stdout (t1 ++ t2) = stdout t1 ++ stdout t2.
Proof. apply flat_map_app. Qed.

Lemma error_log_app t1 t2 : error_log (t1 ++ t2) = error_log t1 ++ error_log t2.
Proof. apply flat_map_app. Qed.

(** C8. When [resource_check_irods_files] returns [(errors, ecount)], the
    "affected resource" line, which names the short id, the resource type
    and the title, occurs exactly once in each enabled sink (error log,
    stdout, returned list) if [ecount > 0], and in no sink if [ecount = 0];
    it comes after the itemized diagnostics of Steps 1 to 3, which are all
    kept. *)
Theorem resource_check_irods_files_summary :
  forall fuel env self opts t errors ecount,
    resource_check_irods_files fuel env self opts = (t, Return (errors, ecount)) ->
    let m := "check_irods_files: affected resource " +:+ short_id self
             +:+ " type is " +:+ resource_type self
             +:+ ", title is '" +:+ title self +:+ "'" in
    let expected (sink : bool) := if sink && Nat.ltb 0 ecount then 1 else 0 in
    occurrences m (error_log t) = expected (log_errors opts)
    /\ occurrences m (stdout t) = expected (echo_errors opts)
    /\ occurrences m errors = expected (return_errors opts)
    /\ exists t0 errors0,
        check_steps_1_3 fuel env self opts = (t0, Return (errors0, ecount))
        /\ t = t0 ++ summary_events self opts ecount
        /\ errors = errors0 ++ summary_lines self opts ecount.
Proof.
  intros fuel env self opts t errors ecount H m expected.
  fold (affected_resource_msg self) in m.
  rewrite resource_check_irods_files_steps in H.
  pose proof (check_steps_1_3_itemized fuel env self opts) as Hq.
  pose proof (check_steps_1_3_counted fuel env self opts) as Hp.
  destruct (check_steps_1_3 fuel env self opts) as [t0 [[errors0 n]| |]];
    try discriminate H.
  rewrite bind_Return, check_summary_run in H. cbn [fst snd] in H.
  injection H as <- <- <-.
  specialize (Hp _ eq_refl) as [_ Herr]. unfold quiet in Hq.
  cbn [fst snd] in Hq, Herr.
  subst m expected. cbv beta.
  rewrite error_log_app, stdout_app, !occurrences_app.
  rewrite (occurrences_not_summary self _ (itemized_error_log _ Hq)).
  rewrite (occurrences_not_summary self _ (itemized_stdout _ Hq)).
  rewrite (occurrences_not_summary self _ Herr).
  unfold summary_events, summary_lines, occurrences.
  repeat split.
  - destruct (Nat.ltb 0 n), (log_errors opts), (echo_errors opts);
      cbn; rewrite ?String.eqb_refl; reflexivity.
  - destruct (Nat.ltb 0 n), (log_errors opts), (echo_errors opts);
      cbn; rewrite ?String.eqb_refl; reflexivity.
  - destruct (Nat.ltb 0 n), (return_errors opts);
      cbn; rewrite ?String.eqb_refl; reflexivity.
  - exists t0, errors0. repeat split.
Qed.

Lemma empty_resource_missing_everything_run :
  resource_check_irods_files 1 missing_everything empty_resource report_all =
  ([CallListdir IrodsStorageDefault "abc/data/contents";
    LoggerError "check_irods_files: listing of iRODS directory abc/data/contents failed";
    CallExists IrodsStorageDefault "abc";
    LoggerError "iRODS directory for resource abc does not exist at all";
    LoggerError "check_irods_files: affected resource abc type is GenericResource, title is 'T'"],
   Return
     (["check_irods_files: listing of iRODS directory abc/data/contents failed";
       "iRODS directory for resource abc does not exist at all";
       "check_irods_files: affected resource abc type is GenericResource, title is 'T'"],
      2)).
Proof. vm_compute. reflexivity. Qed.

Lemma resource_check_irods_files_summary_witness :
  occurrences
    "check_irods_files: affected resource abc type is GenericResource, title is 'T'"
    ["check_irods_files: listing of iRODS directory abc/data/contents failed";
     "iRODS directory for resource abc does not exist at all";
     "check_irods_files: affected resource abc type is GenericResource, title is 'T'"]
  = 1.
Proof.
  pose proof (resource_check_irods_files_summary 1 missing_everything
                empty_resource report_all _ _ _
                empty_resource_missing_everything_run) as H.
  cbv zeta in H. destruct H as (_ & _ & H & _). exact H.
Defined.

(** ** Length of the returned list *)

(** C3 (as stated, refuted). With [stop_on_error=False] and
    [return_errors=True], a resource without records whose storage is gone
    gets three returned lines for an error count of two: the closing
    "affected resource" line is appended but not counted. *)
Lemma errors_longer_than_error_count :
  stop_on_error report_all = false /\ return_errors report_all = true
  /\ exists errors ecount,
      snd (resource_check_irods_files 1 missing_everything empty_resource
             report_all) = Return (errors, ecount)
      /\ List.length errors = 3 /\ ecount = 2
      /\ List.length errors <> ecount.
Proof.
  split; [reflexivity|]. split; [reflexivity|].
  rewrite empty_resource_missing_everything_run.
  eexists _, _. split; [reflexivity|]. cbn. repeat split. lia.
Qed.

Lemma returns_exists env st path : returns (exists_ env st path).
Proof. eexists _, _. reflexivity. Qed.

Lemma returns_listdir env st dir : returns (listdir env st dir).
Proof. eexists _, _. reflexivity. Qed.

Lemma post_listdir env st dir :
  post (fun l => l = irods_listdir env st dir) (listdir env st dir).
Proof. intros l E. inversion E. reflexivity. Qed.

Ltac returns_skip :=
  eapply returns_bind with (Q := fun _ => True);
  [ | intros ? _; exact I | intros ? _ ].

Ltac returns_auto :=
  repeat first
    [ apply returns_ret
    | apply (returns_ret tt)
    | apply returns_emit
    | apply returns_exists
    | apply returns_when
    | returns_skip ].

Lemma resource_check_irods_directory_returns fuel env self dir all_paths opts :
  stop_on_error opts = false ->
  walk_bounded env (get_irods_storage self) fuel dir ->
  returns (resource_check_irods_directory fuel env self dir all_paths opts).
Proof.
  intros Hstop. revert dir. induction fuel as [|fuel IH]; intros dir Hb;
    inversion Hb as [n d Hl | n d ds fs Hl Hds]; subst;
    cbn [resource_check_irods_directory]; cbv zeta;
    (eapply returns_bind;
     [apply returns_listdir | apply post_listdir | intros l ->; rewrite Hl]).
  - (* the listing failed *)
    rewrite Hstop. cbn [when]. returns_auto.
  - (* the listing succeeded *)
    cbn [fst snd]. returns_skip.
    + apply returns_for_each with (I := fun _ => True); [|exact I].
      intros [errors ecount] fname _ _. split; [|intros ? _; exact I].
      unfold check_storage_file. cbv zeta.
      destruct (all_paths !! _); [apply returns_ret|].
      rewrite Hstop. cbn [when]. returns_auto.
    + destruct a as [errors ecount].
      apply returns_for_each with (I := fun _ => True); [|exact I].
      intros [errors' ecount'] dname Hd _. split; [|intros ? _; exact I].
      returns_skip; [apply IH, Hds, Hd|].
      destruct a as [error2 ecount2]. apply returns_ret.
Qed.

Lemma bind_returns_inv {A B} (m : M A) (k : A -> M B) t b :
  bind m k = (t, Return b) ->
  exists t1 a t2, m = (t1, Return a) /\ k a = (t2, Return b) /\ t = t1 ++ t2.
Proof.
  destruct m as [t1 [a| |]]; simpl; try discriminate.
  destruct (k a) as [t2 o] eqn:E. intros H. injection H as <- ->.
  exists t1, a, t2. auto.
Qed.

Lemma for_each_visits {A S} (body : S -> A -> M S) l s t s' :
  for_each body l s = (t, Return s') ->
  forall x, In x l -> exists sx, forall e, In e (fst (body sx x)) -> In e t.
Proof.
  revert s t. induction l as [|y l IH]; intros s t H x Hx; [destruct Hx|].
  cbn [for_each] in H.
  apply bind_returns_inv in H as (t1 & s1 & t2 & E1 & E2 & ->).
  destruct Hx as [<- | Hx].
  - exists s. intros e He. rewrite E1 in He. apply in_or_app. left. exact He.
  - destruct (IH _ _ E2 x Hx) as (sx & Hsx). exists sx.
    intros e He. apply in_or_app. right. apply Hsx, He.
Qed.

Lemma check_file_trace env self opts s f e :
  In e (fst (get_effective_path env f)) ->
  In e (fst (check_file env self opts s f)).
Proof.
  destruct s as [[all_paths errors] ecount]. unfold check_file.
  destruct (get_effective_path env f) as [t [r| |]]; cbn [fst]; intros He;
    try exact He.
  rewrite bind_Return. cbn [fst]. apply in_or_app. left. exact He.
Qed.

Lemma check_file_returns env self opts s f :
  stop_on_error opts = false -> infers_triple env f ->
  returns (check_file env self opts s f).
Proof.
  intros Hstop (t & path & folder & orig & E).
  destruct s as [[all_paths errors] ecount]. unfold check_file.
  eapply returns_bind with (Q := fun r => r = Triple path folder orig).
  - rewrite E. eexists _, _. reflexivity.
  - rewrite E. intros r Hr. inversion Hr. reflexivity.
  - intros r ->. cbv zeta. returns_skip.
    + destruct path; returns_auto.
    + destruct a; [|apply returns_ret].
      rewrite Hstop. cbn [when]. returns_auto.
Qed.

Lemma check_steps_1_2_returns fuel env self opts :
  stop_on_error opts = false ->
  (forall f, In f (files_all self) -> infers_triple env f) ->
  walk_bounded env (get_irods_storage self) fuel (file_path self) ->
  returns (check_steps_1_2 fuel env self opts).
Proof.
  intros Hstop Hfiles Hwalk. unfold check_steps_1_2. cbv zeta.
  returns_skip; [returns_auto|].
  destruct (is_federated self && negb (REMOTE_USE_IRODS env)); [returns_auto|].
  returns_skip.
  - apply returns_for_each with (I := fun _ => True); [|exact I].
    intros s f Hf _. split; [|intros ? _; exact I].
    apply check_file_returns; [exact Hstop | apply Hfiles, Hf].
  - destruct a0 as [[all_paths errors] ecount]. returns_skip.
    + apply resource_check_irods_directory_returns; assumption.
    + destruct a0. apply returns_ret.
Qed.

Lemma check_step_3_returns env self opts s :
  returns (check_step_3 env self opts s).
Proof.
  destruct s as [errors ecount]. unfold check_step_3. cbv zeta.
  returns_skip; [apply returns_exists|]. destruct (negb a); returns_auto.
Qed.

Lemma check_steps_1_3_returns fuel env self opts :
  stop_on_error opts = false ->
  (forall f, In f (files_all self) -> infers_triple env f) ->
  walk_bounded env (get_irods_storage self) fuel (file_path self) ->
  returns (check_steps_1_3 fuel env self opts).
Proof.
  intros Hstop Hfiles Hwalk. unfold check_steps_1_3. returns_skip.
  - apply check_steps_1_2_returns; assumption.
  - apply check_step_3_returns.
Qed.

(** C3 (amended). With [stop_on_error=False] and [return_errors=True]:
    whenever the check returns [(errors, ecount)], [errors] holds one line
    per counted error plus, if [ecount > 0], the uncounted closing line;
    the check does return when every record infers to a triple and the walk
    of the content directory ends within the fuel; and unless Steps 1-2 are
    skipped (federated resource, [REMOTE_USE_IRODS] off), a returning check
    has run [get_effective_path] on every record of the resource. *)
Theorem errors_length_is_count_plus_summary :
  forall fuel env self opts,
    stop_on_error opts = false ->
    return_errors opts = true ->
    (forall t errors ecount,
        resource_check_irods_files fuel env self opts
          = (t, Return (errors, ecount)) ->
        List.length errors = ecount + (if Nat.ltb 0 ecount then 1 else 0))
    /\ ((forall f, In f (files_all self) -> infers_triple env f) ->
        walk_bounded env (get_irods_storage self) fuel (file_path self) ->
        exists t errors ecount,
          resource_check_irods_files fuel env self opts
            = (t, Return (errors, ecount)))
    /\ (is_federated self && negb (REMOTE_USE_IRODS env) = false ->
        forall t errors ecount,
          resource_check_irods_files fuel env self opts
            = (t, Return (errors, ecount)) ->
          forall f e, In f (files_all self) ->
            In e (fst (get_effective_path env f)) -> In e t).
Proof.
  intros fuel env self opts Hstop Hret. split; [|split].
  - intros t errors ecount H.
    rewrite resource_check_irods_files_steps in H.
    apply bind_returns_inv in H as (t1 & [errors0 n] & t2 & E1 & E2 & ->).
    pose proof (check_steps_1_3_counted fuel env self opts) as Hp.
    rewrite E1 in Hp. specialize (Hp _ eq_refl) as [Hlen _].
    cbn [fst snd] in Hlen. rewrite Hret in Hlen.
    rewrite check_summary_run in E2. injection E2 as _ <- <-.
    rewrite length_app, Hlen. unfold summary_lines. rewrite Hret.
    destruct (Nat.ltb 0 n); reflexivity.
  - intros Hfiles Hwalk.
    destruct (check_steps_1_3_returns fuel env self opts Hstop Hfiles Hwalk)
      as (t0 & [errors0 n] & E).
    rewrite resource_check_irods_files_steps, E, bind_Return,
      check_summary_run.
    eexists _, _, _. reflexivity.
  - intros Hskip t errors ecount H f e Hf He.
    rewrite resource_check_irods_files_steps in H.
    apply bind_returns_inv in H as (t1 & s1 & t2 & E1 & _ & ->).
    apply in_or_app. left. unfold check_steps_1_3 in E1.
    apply bind_returns_inv in E1 as (t12 & s12 & t3 & E12 & _ & ->).
    apply in_or_app. left. unfold check_steps_1_2 in E12. cbv zeta in E12.
    apply bind_returns_inv in E12 as (tb & [] & tr & _ & E & ->).
    apply in_or_app. right. rewrite Hskip in E.
    apply bind_returns_inv in E as (tf & sf & tw & Ef & _ & ->).
    apply in_or_app. left.
    destruct (for_each_visits _ _ _ _ _ Ef f Hf) as (sx & Hsx).
    apply Hsx, check_file_trace, He.
Qed.

Lemma sub_folder_storage_bounded :
  walk_bounded sub_folder_storage IrodsStorageDefault 2 "abc/data/contents".
Proof.
  eapply walk_bounded_listed; [reflexivity|].
  intros d [<- | []]. eapply walk_bounded_listed; [reflexivity|].
  intros d [].
Qed.

Lemma one_record_resource_infers :
  forall f, In f (files_all one_record_resource) ->
            infers_triple sub_folder_storage f.
Proof.
  intros f [<- | []]. eexists _, _, _, _. vm_compute. reflexivity.
Qed.

Lemma errors_length_is_count_plus_summary_witness :
  List.length
    ["check_irods_files: listing of iRODS directory abc/data/contents failed";
     "iRODS directory for resource abc does not exist at all";
     "check_irods_files: affected resource abc type is GenericResource, title is 'T'"]
    = 2 + 1
  /\ (exists t errors ecount,
        resource_check_irods_files 2 sub_folder_storage one_record_resource
          report_all = (t, Return (errors, ecount))).
Proof.
  split.
  - exact (proj1 (errors_length_is_count_plus_summary 1 missing_everything
                    empty_resource report_all eq_refl eq_refl)
             _ _ _ empty_resource_missing_everything_run).
  - exact (proj1 (proj2 (errors_length_is_count_plus_summary 2
                           sub_folder_storage one_record_resource report_all
                           eq_refl eq_refl))
             one_record_resource_infers sub_folder_storage_bounded).
Defined.

(** ** Step 3 *)

(** C4 (as stated, refuted). With [stop_on_error=True] the first error of
    Step 1 raises [ValidationError]: although the root path is absent, the
    check ends before Step 3, whose [exists] call is never made. *)
Lemma step_3_not_reached_after_stop_on_error :
  irods_exists missing_everything (get_irods_storage nameless_record_resource)
    (root_path nameless_record_resource) = false
  /\ resource_check_irods_files 1 missing_everything nameless_record_resource
       stop_at_first =
     ([Print "ERROR: no valid file name defined for abc (GenericResource)";
       LoggerError ("check_irods_files: django file None in folder None,"
                    +:+ " resolved to None, does not exist in iRODS")],
      Raise (ValidationError
               ("check_irods_files: django file None in folder None,"
                +:+ " resolved to None, does not exist in iRODS"))).
Proof. split; vm_compute; reflexivity. Qed.

Lemma check_step_3_root_missing env self opts errors ecount :
  irods_exists env (get_irods_storage self) (root_path self) = false ->
  check_step_3 env self opts (errors, ecount) =
    (CallExists (get_irods_storage self) (root_path self)
       :: root_missing_events self opts,
     Return (errors ++ root_missing_lines self opts, ecount + 1)).
Proof.
  intros H. unfold check_step_3. cbv zeta. fold (root_path self).
  unfold exists_. rewrite bind_Return, H. cbn [negb fst snd app].
  fold (root_missing_msg self).
  unfold root_missing_events, root_missing_lines.
  destruct (echo_errors opts), (log_errors opts), (return_errors opts);
    cbn; rewrite ?app_nil_r; reflexivity.
Qed.

Lemma check_steps_1_2_skipped fuel env self opts :
  is_federated self && negb (REMOTE_USE_IRODS env) = true ->
  exists t, check_steps_1_2 fuel env self opts = (t, Return ([], 0))
            /\ storage_calls t = [].
Proof.
  intros Hskip. unfold check_steps_1_2. cbv zeta. rewrite Hskip.
  destruct (is_federated self), (echo_errors opts), (log_errors opts);
    eexists; cbn; split; reflexivity.
Qed.

(** ** A resource without records *)

(** C5 (as stated, refuted). A resource without records whose root
    directory exists and is empty still gets an error count of one: Step 2
    walks the content directory below the root, not the root, and the
    failed listing of that directory is counted. *)
Lemma empty_root_directory_counts_an_error :
  files empty_resource = []
  /\ irods_exists empty_root_directory (get_irods_storage empty_resource)
       (root_path empty_resource) = true
  /\ irods_listdir empty_root_directory (get_irods_storage empty_resource)
       (root_path empty_resource) = Some ([], [])
  /\ snd (resource_check_irods_files 1 empty_root_directory empty_resource
            report_all) =
     Return
       (["check_irods_files: listing of iRODS directory abc/data/contents failed";
         "check_irods_files: affected resource abc type is GenericResource, title is 'T'"],
        1).
Proof. repeat split. Qed.

(** C5 (amended). For a resource with no file records whose root path
    exists and whose content directory (the root of its folder structure,
    where the walk of Step 2 starts) lists as empty, the check returns no
    line and an error count of zero, whatever the options, whether or not
    Steps 1-2 are skipped for a federated resource. *)
Theorem empty_resource_has_no_errors :
  forall fuel env self opts,
    files self = [] ->
    irods_exists env (get_irods_storage self) (root_path self) = true ->
    irods_listdir env (get_irods_storage self) (file_path self) = Some ([], []) ->
    snd (resource_check_irods_files (S fuel) env self opts) = Return ([], 0).
Proof.
  intros fuel env self opts Hfiles Hroot Hlist.
  assert (E12 : snd (check_steps_1_2 (S fuel) env self opts) = Return ([], 0)).
  { unfold check_steps_1_2, files_all. rewrite Hfiles.
    cbn [map for_each resource_check_irods_directory]. cbv zeta.
    unfold listdir. rewrite Hlist.
    destruct (is_federated self), (REMOTE_USE_IRODS env), (echo_errors opts),
      (log_errors opts); reflexivity. }
  rewrite resource_check_irods_files_steps. unfold check_steps_1_3.
  destruct (check_steps_1_2 (S fuel) env self opts) as [t o].
  cbn [snd] in E12. subst o. rewrite bind_Return. cbn [fst snd].
  unfold check_step_3. cbv zeta. fold (root_path self).
  unfold exists_. rewrite bind_Return, Hroot. cbn [negb fst snd ret].
  rewrite bind_Return. reflexivity.
Qed.

Lemma empty_resource_has_no_errors_witness :
  snd (resource_check_irods_files 1 everything_exists empty_resource report_all)
  = Return ([], 0).
Proof.
  apply (empty_resource_has_no_errors 0 everything_exists empty_resource
           report_all); reflexivity.
Defined.

(** ** The storage walk of Step 2 *)

Section Walk.

Variable env : Env.
Variable self : Resource.
Variable all_paths : gmap string Z.
Variable opts : Options.
Hypothesis Hstop : stop_on_error opts = false.

Let st := get_irods_storage self.
Let walk fuel dir := resource_check_irods_directory fuel env self dir all_paths opts.

Lemma check_storage_file_run dir errors ecount fname :
  check_storage_file all_paths opts dir (errors, ecount) fname =
    (file_events all_paths opts dir fname,
     Return (errors ++ file_lines all_paths opts dir fname, ecount + file_count all_paths dir fname)).
Proof.
  unfold check_storage_file, file_events, file_lines, file_count.
  cbv zeta. destruct (all_paths !! _).
  - rewrite app_nil_r, Nat.add_0_r. reflexivity.
  - fold (missing_record_msg (os_path_join dir [fname])).
    rewrite Hstop. unfold error_events, error_lines.
    destruct (echo_errors opts), (log_errors opts), (return_errors opts);
      cbn; rewrite ?app_nil_r; reflexivity.
Qed.

Lemma files_loop_run dir fs errors ecount :
  for_each (check_storage_file all_paths opts dir) fs (errors, ecount) =
    (flat_map (file_events all_paths opts dir) fs,
     Return (errors ++ flat_map (file_lines all_paths opts dir) fs,
             ecount + list_sum (map (file_count all_paths dir) fs))).
Proof.
  revert errors ecount. induction fs as [|f fs IH]; intros errors ecount;
    cbn [for_each flat_map map list_sum fold_right].
  - rewrite app_nil_r, Nat.add_0_r. reflexivity.
  - rewrite check_storage_file_run, bind_Return, IH. cbn [fst snd].
    rewrite <- app_assoc, Nat.add_assoc. reflexivity.
Qed.

Lemma dirs_loop_run W ds errors ecount :
  (forall d, In d ds -> returns (W d)) ->
  dirs_loop W ds (errors, ecount) =
    (flat_map (fun d => fst (W d)) ds,
     Return (errors ++ flat_map (fun d => walk_lines (W d)) ds,
             ecount + list_sum (map (fun d => walk_count (W d)) ds))).
Proof.
  unfold dirs_loop. revert errors ecount.
  induction ds as [|d ds IH]; intros errors ecount Hr;
    cbn [for_each flat_map map list_sum fold_right].
  - rewrite app_nil_r, Nat.add_0_r. reflexivity.
  - destruct (Hr d (or_introl eq_refl)) as (t & [error2 ecount2] & E).
    rewrite E.
    change (walk_lines (t, Return (error2, ecount2))) with error2.
    change (walk_count (t, Return (error2, ecount2))) with ecount2.
    rewrite bind_Return. cbn [fst snd ret]. rewrite app_nil_r, bind_Return.
    rewrite IH by (intros d' Hd'; apply Hr; right; exact Hd').
    cbn [fst snd]. rewrite <- app_assoc, Nat.add_assoc. reflexivity.
Qed.

Lemma dirs_loop_returns_inv W ds s t s' :
  dirs_loop W ds s = (t, Return s') -> forall d, In d ds -> returns (W d).
Proof.
  unfold dirs_loop. revert s t.
  induction ds as [|d ds IH]; intros [errors ecount] t H d' Hd';
    [destruct Hd'|].
  cbn [for_each] in H.
  apply bind_returns_inv in H as (t1 & s1 & t2 & E1 & E2 & ->).
  destruct Hd' as [<- | Hd'].
  - apply bind_returns_inv in E1 as (tw & sw & ? & Ew & _ & _).
    exists tw, sw. exact Ew.
  - eapply IH; eassumption.
Qed.

Lemma walk_failed fuel dir :
  irods_listdir env st dir = None ->
  walk (S fuel) dir =
    (CallListdir st dir :: error_events opts (listing_failed_msg dir),
     Return (error_lines opts (listing_failed_msg dir), 1)).
Proof.
  intros Hl. unfold walk. cbn [resource_check_irods_directory]. cbv zeta.
  unfold listdir. rewrite bind_Return. fold st. rewrite Hl.
  fold (listing_failed_msg dir). rewrite Hstop.
  unfold error_events, error_lines.
  destruct (echo_errors opts), (log_errors opts), (return_errors opts);
    reflexivity.
Qed.

Lemma walk_unfold fuel dir ds fs :
  irods_listdir env st dir = Some (ds, fs) ->
  walk (S fuel) dir =
    bind (emit (CallListdir st dir))
      (fun _ =>
         bind (for_each (check_storage_file all_paths opts dir) fs ([], 0))
           (fun s => dirs_loop (fun d => walk fuel (os_path_join dir [d])) ds s)).
Proof.
  intros Hl. unfold walk. cbn [resource_check_irods_directory]. cbv zeta.
  unfold listdir, emit. rewrite !bind_Return. fold st. rewrite Hl.
  cbn [fst snd]. f_equal.
  - f_equal.
    destruct (for_each (check_storage_file all_paths opts dir) fs ([], 0))
      as [t [[errors ecount]| |]]; reflexivity.
  - destruct (for_each (check_storage_file all_paths opts dir) fs ([], 0))
      as [t [[errors ecount]| |]]; reflexivity.
Qed.

Lemma walk_listed fuel dir ds fs :
  irods_listdir env st dir = Some (ds, fs) ->
  (forall d, In d ds -> returns (walk fuel (os_path_join dir [d]))) ->
  walk (S fuel) dir =
    (CallListdir st dir
       :: flat_map (file_events all_paths opts dir) fs
       ++ flat_map (fun d => fst (walk fuel (os_path_join dir [d]))) ds,
     Return
       (flat_map (file_lines all_paths opts dir) fs
          ++ flat_map (fun d => walk_lines (walk fuel (os_path_join dir [d]))) ds,
        list_sum (map (file_count all_paths dir) fs)
          + list_sum (map (fun d => walk_count (walk fuel (os_path_join dir [d]))) ds))).
Proof.
  intros Hl Hr. rewrite (walk_unfold _ _ _ _ Hl).
  rewrite bind_emit, files_loop_run, bind_Return. cbn [fst snd app].
  rewrite (dirs_loop_run (fun d => walk fuel (os_path_join dir [d])) ds _ _ Hr).
  reflexivity.
Qed.

Lemma walk_children_return fuel dir ds fs t s :
  irods_listdir env st dir = Some (ds, fs) ->
  walk (S fuel) dir = (t, Return s) ->
  forall d, In d ds -> returns (walk fuel (os_path_join dir [d])).
Proof.
  intros Hl H. rewrite (walk_unfold _ _ _ _ Hl) in H.
  apply bind_returns_inv in H as (? & [] & t1 & _ & H & _).
  apply bind_returns_inv in H as (? & s1 & t2 & _ & H & _).
  eapply dirs_loop_returns_inv. exact H.
Qed.

End Walk.

Lemma reported_error opts msg :
  reported opts (error_events opts msg) (error_lines opts msg) msg.
Proof.
  unfold reported, error_events, error_lines.
  repeat split; intros ->; [|destruct (echo_errors opts)|]; cbn; auto.
Qed.

Lemma reported_mono opts t errors t' errors' msg :
  reported opts t errors msg ->
  (forall e, In e t -> In e t') -> (forall l, In l errors -> In l errors') ->
  reported opts t' errors' msg.
Proof. unfold reported. intros (H1 & H2 & H3) Ht He. repeat split; auto. Qed.

Lemma walk_reports env self all_paths opts :
  stop_on_error opts = false ->
  forall fuel dir t errors ecount,
    resource_check_irods_directory fuel env self dir all_paths opts
      = (t, Return (errors, ecount)) ->
    (forall p, storage_file env (get_irods_storage self) dir p ->
               all_paths !! p = None ->
               reported opts t errors (missing_record_msg p))
    /\ (forall d, failed_directory env (get_irods_storage self) dir d ->
                  reported opts t errors (listing_failed_msg d)).
Proof.
  intros Hstop. induction fuel as [|fuel IH]; intros dir t errors ecount H;
    [discriminate H|].
  destruct (irods_listdir env (get_irods_storage self) dir) as [[ds fs]|] eqn:Hl.
  - pose proof (walk_children_return env self all_paths opts _ _ _ _ _ _ Hl H)
      as Hch.
    rewrite (walk_listed env self all_paths opts Hstop _ _ _ _ Hl Hch) in H.
    injection H as <- <- <-.
    assert (Hchild : forall d msg, In d ds ->
      (forall tw ew nw,
          resource_check_irods_directory fuel env self (os_path_join dir [d])
            all_paths opts = (tw, Return (ew, nw)) ->
          reported opts tw ew msg) ->
      reported opts
        (CallListdir (get_irods_storage self) dir
           :: flat_map (file_events all_paths opts dir) fs
           ++ flat_map (fun d => fst (resource_check_irods_directory fuel env
                          self (os_path_join dir [d]) all_paths opts)) ds)
        (flat_map (file_lines all_paths opts dir) fs
           ++ flat_map (fun d => walk_lines (resource_check_irods_directory
                          fuel env self (os_path_join dir [d]) all_paths opts)) ds)
        msg).
    { intros d msg Hd Hrep.
      destruct (Hch d Hd) as (tw & [ew nw] & Ew).
      apply (reported_mono _ _ _ _ _ _ (Hrep _ _ _ Ew)).
      - intros e He. right. apply in_or_app. right.
        apply in_flat_map. exists d. rewrite Ew. auto.
      - intros l Hin. apply in_or_app. right.
        apply in_flat_map. exists d. unfold walk_lines. rewrite Ew. auto. }
    split.
    + intros p Hp Hmiss.
      inversion Hp as [dir0 ds0 fs0 f Hl0 Hf | dir0 ds0 fs0 d p0 Hl0 Hd Hbelow];
        subst; rewrite Hl in Hl0; injection Hl0 as <- <-.
      * apply (reported_mono _ _ _ _ _ _ (reported_error opts _)).
        -- intros e He. right. apply in_or_app. left.
           apply in_flat_map. exists f. split; [exact Hf|].
           unfold file_events. rewrite Hmiss. exact He.
        -- intros l Hin. apply in_or_app. left.
           apply in_flat_map. exists f. split; [exact Hf|].
           unfold file_lines. rewrite Hmiss. exact Hin.
      * apply (Hchild d _ Hd). intros tw ew nw Ew.
        apply (proj1 (IH _ _ _ _ Ew)); assumption.
    + intros d Hd.
      inversion Hd as [dir0 Hl0 | dir0 ds0 fs0 d0 p0 Hl0 Hd0 Hbelow]; subst;
        rewrite Hl in Hl0; [discriminate Hl0|]. injection Hl0 as <- <-.
      apply (Hchild d0 _ Hd0). intros tw ew nw Ew.
      apply (proj2 (IH _ _ _ _ Ew)); assumption.
  - rewrite (walk_failed env self all_paths opts Hstop _ _ Hl) in H.
    injection H as <- <- <-. split.
    + intros p Hp _. inversion Hp; subst; congruence.
    + intros d Hd. inversion Hd; subst; [|congruence].
      apply (reported_mono _ _ _ _ _ _ (reported_error opts _)); [|auto].
      intros e He. right. exact He.
Qed.

(** C6. With [stop_on_error=False], in the walk of Step 2:
    a directory whose listing fails is listed once and yields exactly one
    error, its own; a directory whose listing succeeds yields the errors of
    its files followed by what the walk of each sub-directory yields on its
    own, failed or not, and the counts add up; so a walk that returns has
    reported every file without a record and every failed directory that
    successful listings reach from its root, at any depth; and the walk
    returns whenever the nesting is within the fuel. *)
Theorem walk_survives_listing_failures :
  forall env self all_paths opts,
    stop_on_error opts = false ->
    let st := get_irods_storage self in
    let walk fuel dir :=
      resource_check_irods_directory fuel env self dir all_paths opts in
    (forall fuel dir,
        irods_listdir env st dir = None ->
        walk (S fuel) dir =
          (CallListdir st dir :: error_events opts (listing_failed_msg dir),
           Return (error_lines opts (listing_failed_msg dir), 1)))
    /\ (forall fuel dir ds fs,
          irods_listdir env st dir = Some (ds, fs) ->
          (forall d, In d ds -> returns (walk fuel (os_path_join dir [d]))) ->
          walk (S fuel) dir =
            (CallListdir st dir
               :: flat_map (file_events all_paths opts dir) fs
               ++ flat_map (fun d => fst (walk fuel (os_path_join dir [d]))) ds,
             Return
               (flat_map (file_lines all_paths opts dir) fs
                  ++ flat_map
                       (fun d => walk_lines (walk fuel (os_path_join dir [d]))) ds,
                list_sum (map (file_count all_paths dir) fs)
                + list_sum
                    (map (fun d => walk_count (walk fuel (os_path_join dir [d])))
                       ds))))
    /\ (forall fuel dir t errors ecount,
          walk fuel dir = (t, Return (errors, ecount)) ->
          (forall p, storage_file env st dir p -> all_paths !! p = None ->
                     reported opts t errors (missing_record_msg p))
          /\ (forall d, failed_directory env st dir d ->
                        reported opts t errors (listing_failed_msg d)))
    /\ (forall fuel dir, walk_bounded env st fuel dir -> returns (walk fuel dir)).
Proof.
  intros env self all_paths opts Hstop st walk. repeat apply conj.
  - intros fuel dir Hl. apply walk_failed; assumption.
  - intros fuel dir ds fs Hl Hr. apply walk_listed; assumption.
  - intros fuel dir t errors ecount H. eapply walk_reports; eassumption.
  - intros fuel dir Hb.
    apply resource_check_irods_directory_returns; assumption.
Qed.

Lemma failed_sibling_run :
  resource_check_irods_directory 3 storage_with_failed_sibling
    one_record_resource "abc/data/contents" recorded_paths report_all =
  ([CallListdir IrodsStorageDefault "abc/data/contents";
    CallListdir IrodsStorageDefault "abc/data/contents/bad";
    LoggerError "check_irods_files: listing of iRODS directory abc/data/contents/bad failed";
    CallListdir IrodsStorageDefault "abc/data/contents/sub";
    CallListdir IrodsStorageDefault "abc/data/contents/sub/deep";
    LoggerError "check_irods_files: file abc/data/contents/sub/deep/g.txt in iRODs does not exist in Django"],
   Return
     (["check_irods_files: listing of iRODS directory abc/data/contents/bad failed";
       "check_irods_files: file abc/data/contents/sub/deep/g.txt in iRODs does not exist in Django"],
      2)).
Proof. vm_compute. reflexivity. Qed.

Lemma walk_survives_listing_failures_witness :
  In "check_irods_files: file abc/data/contents/sub/deep/g.txt in iRODs does not exist in Django"
    ["check_irods_files: listing of iRODS directory abc/data/contents/bad failed";
     "check_irods_files: file abc/data/contents/sub/deep/g.txt in iRODs does not exist in Django"].
Proof.
  destruct (walk_survives_listing_failures storage_with_failed_sibling
              one_record_resource recorded_paths report_all eq_refl)
    as (_ & _ & Hrep & _).
  destruct (Hrep _ _ _ _ _ failed_sibling_run) as (Hfiles & _).
  refine (proj2 (proj2 (Hfiles "abc/data/contents/sub/deep/g.txt" _ _)) eq_refl).
  - eapply storage_file_below with (d := "sub"); [reflexivity | cbn; auto |].
    eapply storage_file_below with (d := "deep"); [reflexivity | cbn; auto |].
    eapply (storage_file_here _ _ "abc/data/contents/sub/deep" _ _ "g.txt");
      [reflexivity | cbn; auto].
  - vm_compute. reflexivity.
Defined.

(** ** Facts about the string primitives *)

Lemma append_cons a s t : String a s +:+ t = String a (s +:+ t).
Proof. reflexivity. Qed.

Lemma append_nil_l t : "" +:+ t = t.
Proof. reflexivity. Qed.

Lemma append_assoc s t u : (s +:+ t) +:+ u = s +:+ (t +:+ u).
Proof.
  induction s as [|a s IH]; [reflexivity|].
  rewrite !append_cons, IH. reflexivity.
Qed.

Lemma startswith_app p r : startswith (p +:+ r) p = true.
Proof.
  induction p as [|a p IH]; [reflexivity|].
  rewrite append_cons. cbn [startswith]. rewrite Ascii.eqb_refl. exact IH.
Qed.

Lemma slice_from_app p r : slice_from (String.length p) (p +:+ r) = r.
Proof. induction p as [|a p IH]; [reflexivity | exact IH]. Qed.

Lemma startswith_cons_false a s c :
  Ascii.eqb a c = false -> startswith (String a s) (String c "") = false.
Proof. intros H. cbn [startswith]. rewrite H. reflexivity. Qed.

Lemma nonempty_app_r s t : nonempty t = true -> nonempty (s +:+ t) = true.
Proof. destruct s; [trivial | reflexivity]. Qed.

Lemma nonempty_app_l s t : nonempty s = true -> nonempty (s +:+ t) = true.
Proof. destruct s; [discriminate | reflexivity]. Qed.

Lemma endswith_app s t c :
  nonempty t = true -> endswith (s +:+ t) c = endswith t c.
Proof.
  intros Ht. induction s as [|a s IH]; [reflexivity|].
  rewrite append_cons. cbn [endswith].
  destruct (s +:+ t) eqn:E; [|exact IH].
  pose proof (nonempty_app_r s t Ht) as Hn. rewrite E in Hn. discriminate Hn.
Qed.

Lemma contains_false_startswith s :
  contains sep s = false -> startswith s "/" = false.
Proof.
  destruct s as [|a s]; [reflexivity|]. unfold sep. cbn [contains startswith].
  intros H. apply orb_false_elim in H as [-> _]. reflexivity.
Qed.

(** [join_step] on a left part that needs a separator *)
Lemma join_step_sep path b :
  nonempty path = true -> endswith path sep = false ->
  startswith b "/" = false ->
  join_step path b = path +:+ "/" +:+ b.
Proof. unfold join_step. intros -> -> ->. reflexivity. Qed.

Lemma rfind_None s : contains sep s = false -> rfind sep s = None.
Proof.
  induction s as [|a s IH]; [reflexivity|]. cbn [contains rfind].
  intros H. apply orb_false_elim in H as [Ha Hs]. rewrite (IH Hs), Ha.
  reflexivity.
Qed.

Lemma rfind_last h t :
  contains sep t = false ->
  rfind sep (h +:+ "/" +:+ t) = Some (String.length h).
Proof.
  intros Ht. induction h as [|a h IH].
  - cbn [String.append]. change ("" +:+ "/" +:+ t) with (String sep t).
    cbn [rfind]. rewrite (rfind_None t Ht). reflexivity.
  - rewrite append_cons. cbn [rfind String.length]. rewrite IH. reflexivity.
Qed.

Lemma slice_to_cons n a s : slice_to (S n) (String a s) = String a (slice_to n s).
Proof. reflexivity. Qed.

Lemma slice_to_head h t :
  slice_to (S (String.length h)) (h +:+ "/" +:+ t) = h +:+ "/".
Proof.
  induction h as [|a h IH]; [reflexivity|].
  rewrite !(append_cons a h). cbn [String.length].
  rewrite slice_to_cons, IH. reflexivity.
Qed.

Lemma slice_from_tail h t :
  slice_from (S (String.length h)) (h +:+ "/" +:+ t) = t.
Proof. induction h as [|a h IH]; [reflexivity | exact IH]. Qed.

Lemma rstrip_app_sep h : rstrip sep (h +:+ "/") = rstrip sep h.
Proof.
  induction h as [|a h IH]; [reflexivity|].
  rewrite append_cons. cbn [rstrip]. rewrite IH. reflexivity.
Qed.

Lemma rstrip_id h : endswith h sep = false -> rstrip sep h = h.
Proof.
  induction h as [|a h IH]; [reflexivity|].
  cbn [endswith rstrip]. destruct h as [|b h].
  - intros ->. reflexivity.
  - intros H. rewrite (IH H). reflexivity.
Qed.

Lemma all_char_head a h t :
  Ascii.eqb a sep = false -> all_char sep (String a h +:+ t) = false.
Proof. intros H. rewrite append_cons. cbn [all_char]. rewrite H. reflexivity. Qed.

(** A path holding a separator splits at its last one. *)
Lemma last_sep_decompose s :
  contains sep s = true ->
  exists h t, s = h +:+ "/" +:+ t /\ contains sep t = false.
Proof.
  induction s as [|a s IH]; [discriminate|]. cbn [contains].
  destruct (contains sep s) eqn:Hs.
  - intros _. destruct (IH eq_refl) as (h & t & -> & Ht).
    exists (String a h), t. split; [reflexivity | exact Ht].
  - rewrite orb_false_r. intros Ha. apply Ascii.eqb_eq in Ha. subst a.
    exists "", s. split; [reflexivity | exact Hs].
Qed.

Lemma startswith_decompose s p :
  startswith s p = true -> s = p +:+ slice_from (String.length p) s.
Proof.
  revert s. induction p as [|b p IH]; intros s; [reflexivity|].
  destruct s as [|a s]; [discriminate|]. cbn [startswith].
  intros H. apply andb_prop in H as [Hab Hs].
  apply Ascii.eqb_eq in Hab. subst b.
  rewrite append_cons. cbn [String.length slice_from]. f_equal. apply IH, Hs.
Qed.

(** ** Well-formed fully-qualified paths *)

Lemma has_double_sep_endswith h t :
  has_double_sep (h +:+ "/" +:+ t) = false -> endswith h sep = false.
Proof.
  induction h as [|a h IH]; [reflexivity|].
  rewrite (append_cons a h). cbn [has_double_sep].
  intros H. apply orb_false_elim in H as [H1 H2].
  destruct h as [|b h].
  - cbn [endswith]. change ("" +:+ "/" +:+ t) with (String "/" t) in H1.
    cbn [startswith] in H1. rewrite Ascii.eqb_refl, andb_true_r in H1.
    exact H1.
  - apply IH, H2.
Qed.

Lemma os_path_split_clean rel :
  clean_relative rel = true -> contains sep rel = true ->
  exists h t,
    os_path_split rel = (h, t) /\ rel = h +:+ "/" +:+ t
    /\ nonempty h = true /\ startswith h "/" = false
    /\ endswith h sep = false /\ contains sep t = false.
Proof.
  intros Hc Hs. destruct (last_sep_decompose rel Hs) as (h & t & -> & Ht).
  unfold clean_relative in Hc. apply andb_prop in Hc as [H1 H2].
  apply negb_true_iff in H1, H2.
  destruct h as [|a h]; [discriminate H1|].
  rewrite (append_cons a h) in H1. cbn [startswith] in H1.
  rewrite andb_true_r in H1.
  pose proof (has_double_sep_endswith _ _ H2) as Hend.
  exists (String a h), t. repeat split; try assumption.
  - unfold os_path_split.
    rewrite (rfind_last _ _ Ht), slice_to_head, slice_from_tail.
    rewrite (all_char_head a h "/" H1). cbn [nonempty negb andb].
    rewrite (append_cons a h). cbn [nonempty].
    rewrite <- (append_cons a h), rstrip_app_sep, (rstrip_id _ Hend).
    reflexivity.
  - cbn [startswith]. rewrite H1. reflexivity.
Qed.

Lemma join_step_data x : exists z, join_step x "data" = z +:+ "data".
Proof.
  unfold join_step. cbn [startswith Ascii.eqb Bool.eqb andb].
  destruct (negb (nonempty x) || endswith x sep).
  - exists x. reflexivity.
  - exists (x +:+ "/"). rewrite append_assoc. reflexivity.
Qed.

Lemma os_path_join_data_contents x :
  os_path_join x ["data"; "contents"] = join_step x "data" +:+ "/contents".
Proof.
  unfold os_path_join. cbn [fold_left].
  destruct (join_step_data x) as (z & ->).
  apply join_step_sep; [apply nonempty_app_r| |]; try reflexivity.
  rewrite endswith_app; reflexivity.
Qed.

Lemma file_path_shape r :
  nonempty (file_path r) = true /\ endswith (file_path r) sep = false.
Proof.
  unfold file_path. rewrite os_path_join_data_contents. split.
  - apply nonempty_app_r. reflexivity.
  - rewrite endswith_app; reflexivity.
Qed.

Lemma join_step_data_under f sid :
  nonempty f = true ->
  join_step (f +:+ "/" +:+ sid) "data" = f +:+ "/" +:+ join_step sid "data".
Proof.
  intros Hf. unfold join_step. cbn [startswith Ascii.eqb Bool.eqb andb].
  rewrite (nonempty_app_l _ _ Hf). cbn [negb orb].
  destruct sid as [|a sid].
  - rewrite endswith_app by reflexivity. cbn [endswith Ascii.eqb Bool.eqb].
    cbn [nonempty negb orb]. rewrite !append_assoc. reflexivity.
  - rewrite endswith_app by reflexivity.
    change ("/" +:+ String a sid) with (String "/" (String a sid)).
    cbn [endswith nonempty negb orb].
    change (match sid with
            | "" => Ascii.eqb a sep
            | String _ _ => endswith sid sep
            end) with (endswith (String a sid) sep).
    destruct (endswith (String a sid) sep); rewrite !append_assoc; reflexivity.
Qed.

(** On a federated resource in plain form, the content directory is the
    federation path, a separator, and the local content directory. *)
Lemma file_path_federated r f :
  resource_federation_path r = Some f -> is_federated r = true ->
  plain_federation r = true ->
  file_path r = f +:+ "/" +:+ os_path_join (short_id r) ["data"; "contents"].
Proof.
  intros Hf Hfed Hplain. unfold plain_federation in Hplain.
  rewrite Hfed, Hf in Hplain. cbn [str] in Hplain.
  apply andb_prop in Hplain as [H1 H2]. apply negb_true_iff in H1, H2.
  assert (Hne : nonempty f = true).
  { unfold is_federated in Hfed. rewrite Hf in Hfed. exact Hfed. }
  unfold file_path, root_path. rewrite Hfed, Hf. cbn [str].
  rewrite !os_path_join_data_contents.
  unfold os_path_join at 1. cbn [fold_left].
  rewrite (join_step_sep f (short_id r) Hne H1 H2).
  rewrite (join_step_data_under _ _ Hne), !append_assoc. reflexivity.
Qed.

Lemma file_path_unfederated r :
  is_federated r = false ->
  file_path r = os_path_join (short_id r) ["data"; "contents"].
Proof. intros H. unfold file_path, root_path. rewrite H. reflexivity. Qed.

Lemma bind_then_ret {A B C} (m : M A) (b : B) (k : B -> M C) :
  bind (bind m (fun _ => ret b)) k = bind m (fun _ => k b).
Proof.
  destruct m as [t [a| |]]; try reflexivity.
  rewrite !bind_Return. cbn [ret fst snd]. rewrite bind_Return, app_nil_r.
  reflexivity.
Qed.

(** Rebuilding a canonical relative path under the content directory. *)
Lemma get_resource_file_path_rebuilds r rel :
  clean_relative rel = true ->
  (contains sep rel = true ->
   let '(folder, base) := os_path_split rel in
   get_resource_file_path r base (Some folder) = file_path r +:+ "/" +:+ rel)
  /\ (contains sep rel = false ->
      get_resource_file_path r rel None = file_path r +:+ "/" +:+ rel).
Proof.
  intros Hclean. destruct (file_path_shape r) as [Hne Hend]. split.
  - intros Hc.
    destruct (os_path_split_clean rel Hclean Hc)
      as (h & t & -> & -> & Hh & Hhs & Hhe & Ht).
    unfold get_resource_file_path, os_path_join. cbn [fold_left].
    rewrite (join_step_sep _ h Hne Hend Hhs).
    rewrite join_step_sep.
    + rewrite !append_assoc. reflexivity.
    + apply nonempty_app_l, Hne.
    + rewrite endswith_app; [|apply nonempty_app_r, Hh].
      rewrite endswith_app; assumption.
    + apply contains_false_startswith, Ht.
  - intros Hc. unfold get_resource_file_path, os_path_join. cbn [fold_left].
    apply join_step_sep; [assumption..|].
    apply contains_false_startswith, Hc.
Qed.

(** On [file_path(resource)/rel], [resource_path_is_acceptable] is two
    existence tests of that very path and the split of [rel]. *)
Lemma resource_path_is_acceptable_canonical env r rel test_exists :
  plain_federation r = true -> clean_relative rel = true ->
  exists fb msg,
    resource_path_is_acceptable env r (file_path r +:+ "/" +:+ rel) test_exists =
      (check_exists env test_exists (get_irods_storage r)
         (file_path r +:+ "/" +:+ rel) msg ;;
       check_exists env test_exists (get_irods_storage r)
         (file_path r +:+ "/" +:+ rel) "Local path does not exist in irods" ;;
       ret fb)
    /\ get_resource_file_path r (snd fb) (fst fb) = file_path r +:+ "/" +:+ rel.
Proof.
  intros Hplain Hclean.
  destruct (get_resource_file_path_rebuilds r rel Hclean) as [Hsplit Hbare].
  set (P := file_path r +:+ "/" +:+ rel) in *.
  set (loc := os_path_join (short_id r) ["data"; "contents"] +:+ "/").
  assert (Hsecond : forall msg,
    (check_exists env test_exists (get_irods_storage r) P msg ;;
     (if contains sep rel then
        let '(folder, base) := os_path_split rel in
        let abspath := get_resource_file_path r base (Some folder) in
        check_exists env test_exists (get_irods_storage r) abspath
          "Local path does not exist in irods" ;;
        ret (Some folder, base)
      else
        let folder := None in
        let base := rel in
        let abspath := get_resource_file_path r base folder in
        check_exists env test_exists (get_irods_storage r) abspath
          "Local path does not exist in irods" ;;
        ret (folder, base))) =
    (check_exists env test_exists (get_irods_storage r) P msg ;;
     check_exists env test_exists (get_irods_storage r) P
       "Local path does not exist in irods" ;;
     ret (if contains sep rel then (Some (fst (os_path_split rel)),
                                    snd (os_path_split rel))
          else (None, rel)))
    /\ get_resource_file_path r
         (snd (if contains sep rel then (Some (fst (os_path_split rel)),
                                         snd (os_path_split rel))
               else (None, rel)))
         (fst (if contains sep rel then (Some (fst (os_path_split rel)),
                                         snd (os_path_split rel))
               else (None, rel))) = P).
  { intros msg. destruct (contains sep rel).
    - specialize (Hsplit eq_refl). destruct (os_path_split rel) as [h t].
      cbv zeta. cbn [fst snd]. rewrite Hsplit. split; reflexivity.
    - specialize (Hbare eq_refl). cbv zeta. cbn [fst snd]. rewrite Hbare.
      split; reflexivity. }
  assert (Hlocal : is_federated r = false ->
                   startswith P loc = true
                   /\ slice_from (String.length loc) P = rel).
  { intros Hfed. unfold P, loc. rewrite (file_path_unfederated r Hfed).
    rewrite <- append_assoc. split; [apply startswith_app | apply slice_from_app]. }
  unfold resource_path_is_acceptable. cbv zeta. fold loc.
  destruct (resource_federation_path r) as [f|] eqn:Hf.
  - destruct (nonempty f) eqn:Hne.
    + assert (Hfed : is_federated r = true).
      { unfold is_federated. rewrite Hf. exact Hne. }
      assert (HP : P = (f +:+ "/") +:+ (loc +:+ rel)).
      { unfold P, loc. rewrite (file_path_federated r f Hf Hfed Hplain).
        rewrite !append_assoc. reflexivity. }
      assert (S1 : startswith P (f +:+ "/") = true).
      { rewrite HP. apply startswith_app. }
      assert (S2 : slice_from (String.length (f +:+ "/")) P = loc +:+ rel).
      { rewrite HP. apply slice_from_app. }
      rewrite S1. cbn [andb]. rewrite S2, startswith_app, slice_from_app.
      rewrite bind_then_ret.
      eexists _, _. apply Hsecond.
    + assert (Hfed : is_federated r = false).
      { unfold is_federated. rewrite Hf. exact Hne. }
      destruct (Hlocal Hfed) as [S1 S2]. cbn [andb]. rewrite S1, S2.
      rewrite bind_then_ret. eexists _, _. apply Hsecond.
  - assert (Hfed : is_federated r = false).
    { unfold is_federated. rewrite Hf. reflexivity. }
    destruct (Hlocal Hfed) as [S1 S2]. rewrite S1, S2.
    rewrite bind_then_ret. eexists _, _. apply Hsecond.
Qed.

Lemma has_double_sep_app_r a b :
  has_double_sep (a +:+ b) = false -> has_double_sep b = false.
Proof.
  induction a as [|c a IH]; [trivial|].
  rewrite append_cons. cbn [has_double_sep]. intros H.
  apply orb_false_elim in H as [_ H]. apply IH, H.
Qed.

Lemma has_double_sep_after h t :
  has_double_sep (h +:+ "/" +:+ t) = false -> startswith t "/" = false.
Proof.
  intros H. apply has_double_sep_app_r in H.
  change ("/" +:+ t) with (String "/" t) in H. cbn [has_double_sep] in H.
  apply orb_false_elim in H as [H _].
  rewrite Ascii.eqb_refl in H. exact H.
Qed.

Lemma startswith_sep_app s t :
  nonempty s = true -> startswith (s +:+ t) "/" = startswith s "/".
Proof. destruct s; [discriminate | reflexivity]. Qed.

(** A well-formed fully-qualified path is the content directory the code
    computes, a separator, and a canonical relative path; and its resource is
    in plain form. *)
Lemma well_formed_fully_qualified_shape r P :
  well_formed_fully_qualified r P = true ->
  plain_federation r = true
  /\ exists rel, P = file_path r +:+ "/" +:+ rel /\ clean_relative rel = true.
Proof.
  unfold well_formed_fully_qualified. intros H.
  apply andb_prop in H as [H Hdouble]. apply andb_prop in H as [Hsid Hstart].
  apply negb_true_iff in Hdouble.
  apply startswith_decompose in Hstart.
  remember (slice_from (String.length (canonical_root r +:+ "/data/contents/")) P)
    as rel eqn:Hrel. clear Hrel.
  rewrite append_assoc in Hstart. subst P.
  (* the root does not end in a separator, the rest is canonical *)
  pose proof (has_double_sep_endswith (canonical_root r)
                ("data/contents/" +:+ rel) Hdouble) as Hroot.
  assert (Hclean : clean_relative rel = true).
  { unfold clean_relative.
    rewrite (has_double_sep_after (canonical_root r +:+ "/data/contents") rel)
      by (rewrite append_assoc; exact Hdouble).
    rewrite (has_double_sep_app_r (canonical_root r +:+ "/data/contents/") rel)
      by (rewrite append_assoc; exact Hdouble).
    reflexivity. }
  assert (Hjoin : forall x, nonempty x = true -> endswith x sep = false ->
            os_path_join x ["data"; "contents"] = x +:+ "/data/contents").
  { intros x Hx Hend. rewrite os_path_join_data_contents.
    rewrite (join_step_sep x "data" Hx Hend eq_refl), append_assoc.
    reflexivity. }
  unfold canonical_root in *. unfold plain_federation.
  destruct (is_federated r) eqn:Hfed.
  - destruct (resource_federation_path r) as [f|] eqn:Hf;
      [|unfold is_federated in Hfed; rewrite Hf in Hfed; discriminate Hfed].
    cbn [str] in *.
    assert (Hne : nonempty f = true).
    { unfold is_federated in Hfed. rewrite Hf in Hfed. exact Hfed. }
    rewrite !append_assoc in Hdouble.
    pose proof (has_double_sep_endswith f
                  (short_id r +:+ "/data/contents/" +:+ rel) Hdouble) as Hfend.
    pose proof (has_double_sep_after f
                  (short_id r +:+ "/data/contents/" +:+ rel) Hdouble) as Hsstart.
    rewrite (startswith_sep_app _ _ Hsid) in Hsstart.
    rewrite endswith_app in Hroot by reflexivity.
    change ("/" +:+ short_id r) with (String "/" "" +:+ short_id r) in Hroot.
    rewrite endswith_app in Hroot by exact Hsid.
    rewrite Hfend, Hsstart. split; [reflexivity|].
    exists rel. split; [|exact Hclean].
    assert (Hplain : plain_federation r = true).
    { unfold plain_federation. rewrite Hfed, Hf. cbn [str].
      rewrite Hfend, Hsstart. reflexivity. }
    rewrite (file_path_federated r f Hf Hfed Hplain).
    rewrite (Hjoin _ Hsid Hroot), !append_assoc. reflexivity.
  - split; [reflexivity|]. exists rel. split; [|exact Hclean].
    rewrite (file_path_unfederated r Hfed), (Hjoin _ Hsid Hroot).
    rewrite !append_assoc. reflexivity.
Qed.

(** C7. For every resource and every well-formed fully-qualified path [P]
    of it ([root/data/contents/rel] without empty segments): whenever
    [get_path_from_storage_path] (the split by [resource_path_is_acceptable]
    followed by the rebuild by [get_resource_file_path]) returns, it returns
    [P] itself, so resolving its result again gives the same events and the
    same path; and without existence tests it always returns [P]. *)
Theorem fully_qualified_resolution_is_identity :
  forall env rfile P test_exists,
    well_formed_fully_qualified (resource rfile) P = true ->
    (forall t Q,
        get_path_from_storage_path env rfile P test_exists = (t, Return Q) ->
        Q = P
        /\ get_path_from_storage_path env rfile Q test_exists = (t, Return Q))
    /\ get_path_from_storage_path env rfile P false = ([], Return P).
Proof.
  intros env rfile P test_exists H.
  apply well_formed_fully_qualified_shape in H
    as (Hplain & rel & -> & Hclean).
  assert (Hid : forall te t Q,
    get_path_from_storage_path env rfile
      (file_path (resource rfile) +:+ "/" +:+ rel) te = (t, Return Q) ->
    Q = file_path (resource rfile) +:+ "/" +:+ rel).
  { intros te t Q HQ.
    destruct (resource_path_is_acceptable_canonical env (resource rfile) rel
                te Hplain Hclean) as (fb & msg & E & Hfb).
    unfold get_path_from_storage_path, path_is_acceptable in HQ.
    rewrite E in HQ.
    apply bind_returns_inv in HQ as (t1 & a & t2 & E1 & E2 & _).
    apply bind_returns_inv in E1 as (? & [] & ? & _ & E1 & _).
    apply bind_returns_inv in E1 as (? & [] & ? & _ & E1 & _).
    injection E1 as _ <-. destruct fb as [folder base].
    injection E2 as _ <-. exact Hfb. }
  split.
  - intros t Q HQ. pose proof (Hid _ _ _ HQ) as ->. split; [reflexivity | exact HQ].
  - destruct (resource_path_is_acceptable_canonical env (resource rfile) rel
                false Hplain Hclean) as ([folder base] & msg & E & Hfb).
    unfold get_path_from_storage_path, path_is_acceptable. rewrite E.
    rewrite !check_exists_off, !bind_ret. cbn [fst snd] in Hfb.
    unfold get_path. rewrite Hfb. reflexivity.
Qed.

Lemma fully_qualified_resolution_is_identity_witness :
  get_path_from_storage_path sub_folder_storage sub_folder_file
    "abc/data/contents/sub/g.txt" false
    = ([], Return "abc/data/contents/sub/g.txt")
  /\ get_path_from_storage_path everything_exists federated_file
       "/otherZone/home/proxy/abc/data/contents/f.txt" false
       = ([], Return "/otherZone/home/proxy/abc/data/contents/f.txt").
Proof.
  split.
  - exact (proj2 (fully_qualified_resolution_is_identity sub_folder_storage
                    sub_folder_file "abc/data/contents/sub/g.txt" true eq_refl)).
  - exact (proj2 (fully_qualified_resolution_is_identity everything_exists
                    federated_file
                    "/otherZone/home/proxy/abc/data/contents/f.txt" true
                    eq_refl)).
Defined.

(** Outside the well-formed paths the rebuild can differ from the input:
    a doubled separator is collapsed. *)
Example doubled_separator_is_collapsed :
  get_path_from_storage_path everything_exists sub_folder_file
    "abc/data/contents/sub//g.txt" false
  = ([], Return "abc/data/contents/sub/g.txt").
Proof. reflexivity. Qed.


(** Nor does the rebuild return its input when the federation path ends in
    a separator, which [resource_path_is_acceptable] does not expect: the
    prefix test [fedpath + '/'] then misses the path. *)
Example trailing_separator_in_federation_path :
  let r := {| short_id := "abc"; resource_federation_path := Some "zone/";
              resource_type := "GenericResource"; title := "T"; files := [] |} in
  let f := {| resource := r;
              record := {| resource_file_name := None;
                           fed_resource_file_name := None;
                           fed_resource_file_name_or_path := None;
                           file_folder := None |} |} in
  file_path r = "zone/abc/data/contents"
  /\ well_formed_fully_qualified r "zone/abc/data/contents/f.txt" = false
  /\ get_path_from_storage_path everything_exists f
       "zone/abc/data/contents/f.txt" false
     = ([], Return "zone/abc/data/contents/zone/abc/data/contents/f.txt").
Proof. repeat split. Qed.

(** * Further properties of the code *)

(** ** A record without any name *)

(** X1. A row whose three name columns are all absent after normalization
    touches no storage: [get_effective_path] prints the one line
    "no valid file name defined" and returns [(None, file_folder, None)]. *)
Theorem get_effective_path_no_name :
  forall env file,
    present_names (record file) = [] ->
    get_effective_path env file =
      ([Print ("ERROR: no valid file name defined for "
               +:+ short_id (resource file)
               +:+ " (" +:+ resource_type (resource file) +:+ ")")],
       Return (Triple None (file_folder (record file)) None)).
Proof.
  intros env file H. unfold present_names in H. unfold get_effective_path.
  destruct (normalize_name (resource_file_name (record file)));
    [destruct (normalize_name (fed_resource_file_name (record file)));
     destruct (normalize_name (fed_resource_file_name_or_path (record file)));
     discriminate H|].
  destruct (normalize_name (fed_resource_file_name (record file)));
    [destruct (normalize_name (fed_resource_file_name_or_path (record file)));
     discriminate H|].
  destruct (normalize_name (fed_resource_file_name_or_path (record file)));
    [discriminate H|].
  reflexivity.
Qed.

Lemma get_effective_path_no_name_witness :
  get_effective_path missing_everything nameless_file =
    ([Print "ERROR: no valid file name defined for abc (GenericResource)"],
     Return (Triple None (Some "sub") None)).
Proof.
  apply (get_effective_path_no_name missing_everything nameless_file).
  reflexivity.
Defined.

(** ** What inference can raise *)

Lemma safe_ret {A} R (a : A) : safe R (ret a).
Proof. exact I. Qed.

Lemma safe_emit R e : safe R (emit e).
Proof. exact I. Qed.

Lemma safe_raise {A} (R : Exn -> Prop) e : R e -> safe R (raise (A:=A) e).
Proof. intros H. exact H. Qed.

Lemma safe_exists R env st path : safe R (exists_ env st path).
Proof. exact I. Qed.

Lemma safe_bind {A B} R (m : M A) (k : A -> M B) :
  safe R m -> (forall a, safe R (k a)) -> safe R (bind m k).
Proof.
  unfold safe. destruct m as [t [a| |]]; simpl; intros Hm Hk; try exact Hm.
  specialize (Hk a). destruct (k a) as [t' o]. exact Hk.
Qed.

Lemma safe_when R b (m : M unit) : safe R m -> safe R (when b m).
Proof. intros H. destruct b; [exact H | exact I]. Qed.

Lemma safe_weaken {A} (R R' : Exn -> Prop) (m : M A) :
  safe R m -> (forall e, R e -> R' e) -> safe R' m.
Proof. unfold safe. destruct (snd m); auto. Qed.

(** A [try] whose body raises nothing but [ValidationError] lets only the
    handler's exceptions through. *)
Lemma safe_try {A} R (body handler : M A) :
  safe is_ValidationError body -> safe R handler ->
  safe R (try_except_ValidationError body handler).
Proof.
  unfold safe, try_except_ValidationError.
  destruct body as [t [a|[msg|msg]|]]; simpl; intros Hb Hh;
    try exact I; try contradiction.
  - destruct handler as [t' o]. exact Hh.
  - destruct Hb as (m & Hm). discriminate Hm.
Qed.

Lemma safe_for_each {A S} R (body : S -> A -> M S) l s :
  (forall s x, safe R (body s x)) -> safe R (for_each body l s).
Proof.
  intros Hb. revert s. induction l as [|x l IH]; intros s; cbn [for_each].
  - exact I.
  - apply safe_bind; [apply Hb | intros s'; apply IH].
Qed.

Ltac safe_auto :=
  repeat first
    [ progress cbv zeta
    | lazymatch goal with
      | |- safe _ (ret _) => exact I
      | |- safe _ (emit _) => exact I
      | |- safe _ (print _) => exact I
      | |- safe _ (exists_ _ _ _) => exact I
      | |- safe _ (when _ _) => apply safe_when
      | |- safe _ (bind _ _) => apply safe_bind; [|intros ?]
      | |- safe _ (if ?b then _ else _) => destruct b eqn:?
      | |- safe _ (match ?x with _ => _ end) => destruct x eqn:?
      end ].

Lemma check_exists_safe env test_exists storage path msg :
  safe is_ValidationError (check_exists env test_exists storage path msg).
Proof.
  unfold check_exists. destruct test_exists; [|exact I].
  apply safe_bind; [exact I|]. intros e. destruct (negb e); [|exact I].
  exists msg. reflexivity.
Qed.

Lemma resource_path_is_acceptable_safe env r path test_exists :
  safe is_ValidationError (resource_path_is_acceptable env r path test_exists).
Proof.
  pose proof check_exists_safe as Hce.
  unfold resource_path_is_acceptable.
  repeat first
    [ apply Hce
    | lazymatch goal with
      | |- safe _ (raise _) => apply safe_raise; eexists; reflexivity
      end
    | progress safe_auto ].
Qed.

(** Without existence tests the only exception is the malformed federated
    path, and only a federated resource can give it. *)
Lemma resource_path_is_acceptable_safe_off env r path :
  safe (fun e => e = ValidationError "Malformed federated resource path"
                 /\ is_federated r = true)
    (resource_path_is_acceptable env r path false).
Proof.
  unfold resource_path_is_acceptable. rewrite !check_exists_off.
  unfold is_federated.
  destruct (resource_federation_path r) as [f|]; [destruct (nonempty f)|];
    cbn [andb];
    repeat first
      [ lazymatch goal with
        | |- safe _ (raise _) => apply safe_raise; split; reflexivity
        | |- safe _ (check_exists _ false _ _ _) => exact I
        end
      | progress safe_auto ].
Qed.

Lemma get_path_from_short_path_safe_off R env file path :
  safe R (get_path_from_short_path env file path false).
Proof. unfold get_path_from_short_path. safe_auto. Qed.

Lemma qualify_in_record_folder_safe R env file folder base :
  safe R (qualify_in_record_folder env file folder base).
Proof.
  unfold qualify_in_record_folder.
  destruct folder; apply get_path_from_short_path_safe_off.
Qed.

Lemma effective_path_part1_safe R env file path folder inferred :
  safe R (effective_path_part1 env file path folder inferred).
Proof.
  pose proof (qualify_in_record_folder_safe R) as Hq.
  unfold effective_path_part1, path_is_acceptable.
  repeat first
    [ apply Hq
    | lazymatch goal with
      | |- safe _ (try_except_ValidationError _ _) =>
          apply safe_try;
          [apply safe_bind;
           [apply resource_path_is_acceptable_safe | intros ?] |]
      end
    | progress safe_auto ].
Qed.

Lemma effective_path_part2_safe R env file path folder inferred :
  safe R (effective_path_part2 env file path folder inferred).
Proof.
  pose proof (qualify_in_record_folder_safe R) as Hq.
  unfold effective_path_part2, path_is_acceptable.
  repeat first
    [ apply Hq
    | lazymatch goal with
      | |- safe _ (try_except_ValidationError _ _) =>
          apply safe_try;
          [apply safe_bind;
           [apply resource_path_is_acceptable_safe | intros ?] |]
      end
    | progress safe_auto ].
Qed.

Lemma effective_path_part3_safe env file path :
  safe (fun e => e = ValidationError "Malformed federated resource path"
                 /\ is_federated (resource file) = true)
    (effective_path_part3 env file path).
Proof.
  unfold effective_path_part3, get_path_from_storage_path, path_is_acceptable.
  repeat first
    [ apply resource_path_is_acceptable_safe_off
    | apply get_path_from_short_path_safe_off
    | progress safe_auto ].
Qed.

(** X2. [get_effective_path] consumes no fuel, and the only exception it can
    raise is the "Malformed federated resource path" [ValidationError] of
    part 3, which no [try] surrounds: that takes a federated resource and a
    row with a [fed_resource_file_name_or_path]. *)
Theorem get_effective_path_raises_only_malformed :
  forall env file,
    snd (get_effective_path env file) <> OutOfFuel
    /\ forall e,
        snd (get_effective_path env file) = Raise e ->
        e = ValidationError "Malformed federated resource path"
        /\ is_federated (resource file) = true
        /\ normalize_name (fed_resource_file_name_or_path (record file)) <> None.
Proof.
  intros env file.
  assert (H : safe (fun e =>
            e = ValidationError "Malformed federated resource path"
            /\ is_federated (resource file) = true
            /\ normalize_name
                 (fed_resource_file_name_or_path (record file)) <> None)
          (get_effective_path env file)).
  { unfold get_effective_path.
    destruct (normalize_name (fed_resource_file_name_or_path (record file)))
      as [nop|] eqn:Hnop.
    - repeat first
        [ apply effective_path_part1_safe
        | apply effective_path_part2_safe
        | eapply safe_weaken;
          [apply effective_path_part3_safe|];
          intros e [-> Hfed]; repeat split; [exact Hfed | discriminate]
        | apply safe_for_each; intros ? ?
        | progress safe_auto ].
    - repeat first
        [ apply effective_path_part1_safe
        | apply effective_path_part2_safe
        | apply safe_for_each; intros ? ?
        | progress safe_auto ]. }
  unfold safe in H. split.
  - intros E. rewrite E in H. exact H.
  - intros e E. rewrite E in H. exact H.
Qed.

Lemma get_effective_path_raises_only_malformed_witness :
  ValidationError "Malformed federated resource path"
    = ValidationError "Malformed federated resource path"
  /\ is_federated (resource malformed_name_or_path_file) = true
  /\ normalize_name (fed_resource_file_name_or_path
                       (record malformed_name_or_path_file)) <> None.
Proof.
  apply (proj2 (get_effective_path_raises_only_malformed missing_everything
                  malformed_name_or_path_file)).
  vm_compute. reflexivity.
Defined.

(** ** Which storage is asked *)

Lemma quiet_for_each_in {A S} P (body : S -> A -> M S) l s :
  (forall s x, In x l -> quiet P (body s x)) -> quiet P (for_each body l s).
Proof.
  revert s. induction l as [|x l IH]; intros s Hb; cbn [for_each].
  - apply quiet_ret.
  - apply quiet_bind; [apply Hb; left; reflexivity|].
    intros s'. apply IH. intros s0 y Hy. apply Hb. right. exact Hy.
Qed.

Ltac quiet_by closer :=
  repeat first
    [ progress cbv zeta
    | lazymatch goal with
      | |- quiet _ (ret _) => apply quiet_ret
      | |- quiet _ (raise _) => apply quiet_raise
      | |- quiet _ (emit _) => apply quiet_emit; closer
      | |- quiet _ (print _) => apply quiet_emit; closer
      | |- quiet _ (logger_error _) => apply quiet_emit; closer
      | |- quiet _ (logger_info _) => apply quiet_emit; closer
      | |- quiet _ (exists_ _ _ _) => apply quiet_exists; closer
      | |- quiet _ (listdir _ _ _) => apply quiet_listdir; closer
      | |- quiet _ (when _ _) => apply quiet_when
      | |- quiet _ (try_except_ValidationError _ _) => apply quiet_try
      | |- quiet _ (bind _ _) => apply quiet_bind; [|intros ?]
      | |- quiet _ (if ?b then _ else _) => destruct b
      | |- quiet _ (match ?x with _ => _ end) => destruct x
      end ].

Lemma get_effective_path_asks_only env file :
  quiet (asks_only (get_irods_storage (resource file)))
    (get_effective_path env file).
Proof.
  unfold get_effective_path, effective_path_part1, effective_path_part2,
    effective_path_part3, qualify_in_record_folder,
    get_path_from_storage_path, get_path_from_short_path,
    path_is_acceptable, resource_path_is_acceptable, check_exists.
  repeat first
    [ apply quiet_for_each; intros ? ?
    | progress quiet_by ltac:(first [exact I | reflexivity]) ].
Qed.

Lemma asks_only_stays_on st e : asks_only st e -> stays_on st e.
Proof. destruct e; simpl; trivial. contradiction. Qed.

Lemma check_file_stays_on env self opts s f :
  resource f = self ->
  quiet (stays_on (get_irods_storage self)) (check_file env self opts s f).
Proof.
  intros <-. destruct s as [[all_paths errors] ecount]. unfold check_file.
  apply quiet_bind.
  - eapply Forall_impl; [apply get_effective_path_asks_only|].
    intros e. apply asks_only_stays_on.
  - intros r. quiet_by ltac:(first [exact I | reflexivity]).
Qed.

Lemma resource_check_irods_directory_stays_on fuel env self dir all_paths opts :
  quiet (stays_on (get_irods_storage self))
    (resource_check_irods_directory fuel env self dir all_paths opts).
Proof.
  revert dir. induction fuel as [|fuel IH]; intros dir;
    cbn [resource_check_irods_directory]; [constructor|].
  cbv zeta. apply quiet_bind; [apply quiet_listdir; reflexivity|].
  intros [[ds fs]|].
  - apply quiet_bind.
    + apply quiet_for_each. intros [errors ecount] fname.
      unfold check_storage_file.
      quiet_by ltac:(first [exact I | reflexivity]).
    + intros [errors ecount]. apply quiet_for_each.
      intros [errors' ecount'] dname. apply quiet_bind; [apply IH|].
      intros [error2 ecount2]. apply quiet_ret.
  - quiet_by ltac:(first [exact I | reflexivity]).
Qed.

(** X3. A check talks to one storage only, the one of the resource's kind
    ([IrodsStorage("federated")] for a federated resource, [IrodsStorage()]
    otherwise): every [exists] and [listdir] call of
    [resource_check_irods_files] goes there; and [get_effective_path] never
    lists a directory. *)
Theorem check_stays_on_own_storage :
  forall fuel env self opts,
    Forall (stays_on (get_irods_storage self))
      (fst (resource_check_irods_files fuel env self opts))
    /\ forall f,
        Forall (asks_only (get_irods_storage (resource f)))
          (fst (get_effective_path env f)).
Proof.
  intros fuel env self opts. split; [|intros f; apply get_effective_path_asks_only].
  change (quiet (stays_on (get_irods_storage self))
            (resource_check_irods_files fuel env self opts)).
  unfold resource_check_irods_files, check_steps_1_2, check_step_3,
    check_summary.
  repeat first
    [ apply resource_check_irods_directory_stays_on
    | apply quiet_for_each_in; intros ? f Hf;
      apply check_file_stays_on;
      unfold files_all in Hf; apply in_map_iff in Hf as (? & <- & _);
      reflexivity
    | progress quiet_by ltac:(first [exact I | reflexivity]) ].
Qed.

(** ** The triple [get_effective_path] returns *)

(** The final guard of [get_effective_path] on the inferred path. *)
Lemma get_effective_path_triple_inv env file t inferred folder orig :
  get_effective_path env file = (t, Return (Triple inferred folder orig)) ->
  orig = head (present_names (record file))
  /\ exists t0 tg,
      t = t0 ++ tg
      /\ (match inferred with
          | Some p =>
              let* e := exists_ env (get_irods_storage (resource file)) p in
              when (negb e)
                (print ("ERROR: inferred path '" +:+ p +:+ "' does not exist"))
          | None => ret tt
          end ;;
          when (bool_decide (inferred = None))
            (print ("ERROR: no valid file name defined for "
                    +:+ short_id (resource file) +:+ " ("
                    +:+ resource_type (resource file) +:+ ")")))
         = (tg, Return tt).
Proof.
  unfold get_effective_path, present_names.
  destruct (normalize_name (resource_file_name (record file))) as [n1|];
    destruct (normalize_name (fed_resource_file_name (record file))) as [n2|];
    destruct (normalize_name (fed_resource_file_name_or_path (record file)))
      as [n3|];
    cbn [append_name app List.length Nat.ltb Nat.leb head]; intros H;
    try (apply bind_returns_inv in H as (? & ? & ? & _ & H & _);
         apply bind_returns_inv in H as (? & ? & ? & _ & H & _);
         discriminate H);
    apply bind_returns_inv in H as (tA & [ip0 o0] & ? & EA & H & ->);
    apply bind_returns_inv in H as (tB & [[ip1 fo1] o1] & ? & EB & H & ->);
    apply bind_returns_inv in H as (tg1 & [] & ? & EG1 & H & ->);
    apply bind_returns_inv in H as (tg2 & [] & ? & EG2 & H & ->);
    injection H as <- <- <- <-;
    try (apply bind_returns_inv in EA as (? & ? & ? & _ & EA & _));
    try (apply bind_returns_inv in EB as (? & [? ?] & ? & _ & EB & _));
    try (apply bind_returns_inv in EB as (? & ? & ? & _ & EB & _));
    injection EA as _ <- <-; injection EB as _ <- <- <-;
    (split; [reflexivity|]);
    exists (tA ++ tB), (tg1 ++ tg2 ++ []);
    (split; [rewrite <- !app_assoc; reflexivity|]);
    rewrite EG1, bind_Return, EG2, app_nil_r; reflexivity.
Qed.

(** X4. Whenever [get_effective_path] returns a triple, its [orig_path] is
    the one name the row holds after normalization (or [None] if it holds
    none), as stored: stripping [data/contents/] or qualifying the name
    changes the inferred path, never the reported original. *)
Theorem get_effective_path_reports_original_name :
  forall env file t inferred folder orig,
    get_effective_path env file = (t, Return (Triple inferred folder orig)) ->
    orig = head (present_names (record file)).
Proof.
  intros env file t inferred folder orig H.
  apply (get_effective_path_triple_inv _ _ _ _ _ _ H).
Qed.

Lemma get_effective_path_reports_original_name_witness :
  Some "abc/data/contents/sub/g.txt"
    = head (present_names (record sub_folder_file)).
Proof.
  eapply (get_effective_path_reports_original_name sub_folder_storage
            sub_folder_file).
  vm_compute. reflexivity.
Defined.

(** X5. Whenever [get_effective_path] returns an inferred path, it has asked
    storage whether that path exists, as its last storage call; if it does
    not exist the path is still returned, after the line "inferred path ...
    does not exist"; and when it returns no inferred path it has printed
    "no valid file name defined". *)
Theorem get_effective_path_final_guard :
  forall env file t inferred folder orig,
    get_effective_path env file = (t, Return (Triple inferred folder orig)) ->
    match inferred with
    | Some p =>
        exists t0,
          t = t0 ++ CallExists (get_irods_storage (resource file)) p
                 :: (if irods_exists env (get_irods_storage (resource file)) p
                     then []
                     else [Print ("ERROR: inferred path '" +:+ p
                                  +:+ "' does not exist")])
    | None =>
        exists t0,
          t = t0 ++ [Print ("ERROR: no valid file name defined for "
                            +:+ short_id (resource file) +:+ " ("
                            +:+ resource_type (resource file) +:+ ")")]
    end.
Proof.
  intros env file t inferred folder orig H.
  destruct (get_effective_path_triple_inv _ _ _ _ _ _ H)
    as (_ & t0 & tg & -> & Hg).
  destruct inferred as [p|].
  - exists t0. f_equal. unfold exists_ in Hg.
    rewrite bind_Return in Hg. cbn [fst snd] in Hg.
    destruct (irods_exists env (get_irods_storage (resource file)) p);
      cbn in Hg; injection Hg as <-; reflexivity.
  - exists t0. f_equal. cbn in Hg. injection Hg as <-. reflexivity.
Qed.

Lemma get_effective_path_final_guard_witness :
  exists t0,
    [CallExists IrodsStorageDefault "abc/data/contents/sub/g.txt";
     CallExists IrodsStorageDefault "abc/data/contents/sub/g.txt";
     CallExists IrodsStorageDefault "abc/data/contents/sub/g.txt"]
    = t0 ++ [CallExists IrodsStorageDefault "abc/data/contents/sub/g.txt"].
Proof.
  exact (get_effective_path_final_guard sub_folder_storage sub_folder_file
           _ (Some "abc/data/contents/sub/g.txt") (Some "sub")
           (Some "abc/data/contents/sub/g.txt") eq_refl).
Defined.

(** ** Step 1 as a whole *)

Lemma returns_value {A} (m : M A) a : snd m = Return a -> exists t, m = (t, Return a).
Proof. destruct m as [t o]. cbn. intros ->. exists t. reflexivity. Qed.

Lemma check_file_run env self opts all_paths errors ecount f :
  stop_on_error opts = false -> infers_triple env f ->
  exists t,
    check_file env self opts (all_paths, errors, ecount) f =
      (t, Return (claimed_paths env [f] all_paths,
                  errors ++ record_lines env self opts f,
                  ecount + (if record_missing env self f then 1 else 0))).
Proof.
  intros Hstop (t & path & folder & orig & E). apply returns_value.
  unfold check_file, claimed_paths, record_lines, record_missing, record_msg,
    record_path.
  cbn [fold_left]. rewrite !E, bind_Return. cbn [fst snd]. cbv zeta.
  rewrite Hstop. unfold error_lines, exists_.
  destruct path as [p|];
    [destruct (irods_exists env (get_irods_storage self) p)|];
    destruct (echo_errors opts), (log_errors opts), (return_errors opts);
    cbn; rewrite ?app_nil_r, ?Nat.add_0_r; reflexivity.
Qed.

Lemma claimed_paths_cons env f l all_paths :
  claimed_paths env (f :: l) all_paths =
  claimed_paths env l (claimed_paths env [f] all_paths).
Proof. reflexivity. Qed.

Lemma step_1_run env self opts l all_paths errors ecount :
  stop_on_error opts = false ->
  (forall f, In f l -> infers_triple env f) ->
  exists t,
    for_each (check_file env self opts) l (all_paths, errors, ecount) =
      (t, Return (claimed_paths env l all_paths,
                  errors ++ flat_map (record_lines env self opts) l,
                  ecount + List.length
                             (List.filter (record_missing env self) l))).
Proof.
  intros Hstop. revert all_paths errors ecount.
  induction l as [|f l IH]; intros all_paths errors ecount Hl.
  - exists []. cbn. rewrite app_nil_r, Nat.add_0_r. reflexivity.
  - destruct (check_file_run env self opts all_paths errors ecount f Hstop
                (Hl f (or_introl eq_refl))) as (t1 & E1).
    destruct (IH (claimed_paths env [f] all_paths)
                (errors ++ record_lines env self opts f)
                (ecount + (if record_missing env self f then 1 else 0))
                (fun g Hg => Hl g (or_intror Hg))) as (t2 & E2).
    exists (t1 ++ t2). cbn [for_each]. rewrite E1, bind_Return, E2.
    cbn [fst snd flat_map List.filter]. rewrite claimed_paths_cons.
    rewrite <- app_assoc.
    apply f_equal2; [reflexivity|]. apply f_equal.
    apply f_equal2; [reflexivity|].
    destruct (record_missing env self f); cbn [List.length]; lia.
Qed.

(** A Step 1 loop that returns has got a triple for every record. *)
Lemma step_1_returns_inv env self opts l s t s' :
  for_each (check_file env self opts) l s = (t, Return s') ->
  forall f, In f l -> infers_triple env f.
Proof.
  revert s t. induction l as [|g l IH]; intros s t H f Hf; [destruct Hf|].
  cbn [for_each] in H.
  apply bind_returns_inv in H as (t1 & s1 & t2 & E1 & E2 & ->).
  destruct Hf as [<- | Hf]; [|eapply IH; eassumption].
  destruct s as [[all_paths errors] ecount]. unfold check_file in E1.
  apply bind_returns_inv in E1 as (tg & r & ? & Eg & E1 & _).
  destruct r as [|path folder orig]; [discriminate E1|].
  exists tg, path, folder, orig. exact Eg.
Qed.

Lemma claimed_paths_lookup env l all_paths p :
  is_Some (claimed_paths env l all_paths !! p) <->
  is_Some (all_paths !! p) \/ exists f, In f l /\ record_path env f = Some p.
Proof.
  revert all_paths. induction l as [|f l IH]; intros all_paths.
  - cbn. split; [auto|]. intros [H | (f & [] & _)]. exact H.
  - rewrite claimed_paths_cons, IH. unfold claimed_paths at 1.
    cbn [fold_left]. split.
    + intros [H | (g & Hg & Hp)]; [|right; exists g; split; [right|]; assumption].
      destruct (record_path env f) as [q|] eqn:Hq; [|left; exact H].
      destruct (decide (q = p)) as [->|Hne].
      * right. exists f. split; [left; reflexivity | exact Hq].
      * rewrite lookup_insert_ne in H by exact Hne. left. exact H.
    + intros [H | (g & [<- | Hg] & Hp)].
      * left. destruct (record_path env f) as [q|]; [|exact H].
        destruct (decide (q = p)) as [->|Hne].
        -- rewrite lookup_insert_eq. eexists. reflexivity.
        -- rewrite lookup_insert_ne by exact Hne. exact H.
      * left. rewrite Hp, lookup_insert_eq. eexists. reflexivity.
      * right. exists g. split; assumption.
Qed.

(** ** Step 2 reports nothing it has not found *)

Lemma string_length_app a b :
  String.length (a +:+ b) = String.length a + String.length b.
Proof.
  induction a as [|c a IH]; [reflexivity|].
  rewrite append_cons. cbn [String.length]. rewrite IH. reflexivity.
Qed.

Lemma append_inj_l a x y : a +:+ x = a +:+ y -> x = y.
Proof.
  induction a as [|c a IH]; [trivial|].
  rewrite !append_cons. intros H. injection H as H. apply IH, H.
Qed.

Lemma append_inj_r x y b : x +:+ b = y +:+ b -> x = y.
Proof.
  revert y. induction x as [|c x IH]; intros [|d y] H.
  - reflexivity.
  - apply (f_equal String.length) in H.
    rewrite !string_length_app in H. cbn [String.length] in H. lia.
  - apply (f_equal String.length) in H.
    rewrite !string_length_app in H. cbn [String.length] in H. lia.
  - rewrite (append_cons c x), (append_cons d y) in H.
    injection H as -> H. f_equal. apply IH, H.
Qed.

Lemma missing_record_msg_inj p q :
  missing_record_msg p = missing_record_msg q -> p = q.
Proof.
  unfold missing_record_msg. intros H.
  apply append_inj_l in H. apply append_inj_r in H. exact H.
Qed.

Lemma walk_lines_justified env self all_paths opts :
  stop_on_error opts = false ->
  forall fuel dir t errors ecount,
    resource_check_irods_directory fuel env self dir all_paths opts
      = (t, Return (errors, ecount)) ->
    forall line, In line errors ->
      justified_line env (get_irods_storage self) all_paths dir line.
Proof.
  intros Hstop. induction fuel as [|fuel IH]; intros dir t errors ecount H;
    [discriminate H|].
  destruct (irods_listdir env (get_irods_storage self) dir) as [[ds fs]|] eqn:Hl.
  - pose proof (walk_children_return env self all_paths opts _ _ _ _ _ _ Hl H)
      as Hch.
    rewrite (walk_listed env self all_paths opts Hstop _ _ _ _ Hl Hch) in H.
    injection H as <- <- <-. intros line Hin.
    apply in_app_or in Hin as [Hin | Hin]; apply in_flat_map in Hin.
    + destruct Hin as (f & Hf & Hin). unfold file_lines in Hin.
      destruct (all_paths !! os_path_join dir [f]) eqn:Hap; [destruct Hin|].
      unfold error_lines in Hin.
      destruct (return_errors opts); [|destruct Hin].
      destruct Hin as [<- | []]. left.
      exists (os_path_join dir [f]). repeat split; [|exact Hap].
      eapply storage_file_here; eassumption.
    + destruct Hin as (d & Hd & Hin).
      destruct (Hch d Hd) as (tw & [ew nw] & Ew).
      change (In line (walk_lines (resource_check_irods_directory fuel env
                self (os_path_join dir [d]) all_paths opts))) in Hin.
      rewrite Ew in Hin. unfold walk_lines in Hin.
      cbn [snd] in Hin.
      destruct (IH _ _ _ _ Ew line Hin) as [(p & Hp & Hap & ->) | (d' & Hd' & ->)].
      * left. exists p. repeat split; [|exact Hap].
        eapply storage_file_below; eassumption.
      * right. exists d'. split; [|reflexivity].
        eapply failed_directory_below; eassumption.
  - rewrite (walk_failed env self all_paths opts Hstop _ _ Hl) in H.
    injection H as <- <- <-. intros line Hin. unfold error_lines in Hin.
    destruct (return_errors opts); [|destruct Hin].
    destruct Hin as [<- | []]. right. exists dir. split; [|reflexivity].
    apply failed_directory_here, Hl.
Qed.

(** X6. With [stop_on_error=False], a walk of Step 2 that returns has not
    invented anything: every returned line is the "does not exist in Django"
    line of a file that successful listings reach from the walk's root and
    that [all_paths] does not hold, or the "listing ... failed" line of a
    reached directory whose listing fails; and with [return_errors] the
    count is the number of lines. *)
Theorem walk_reports_only_what_it_found :
  forall env self all_paths opts fuel dir t errors ecount,
    stop_on_error opts = false ->
    resource_check_irods_directory fuel env self dir all_paths opts
      = (t, Return (errors, ecount)) ->
    (forall line, In line errors ->
       justified_line env (get_irods_storage self) all_paths dir line)
    /\ (return_errors opts = true -> List.length errors = ecount).
Proof.
  intros env self all_paths opts fuel dir t errors ecount Hstop H. split.
  - eapply walk_lines_justified; eassumption.
  - intros Hret.
    pose proof (resource_check_irods_directory_counted fuel env self dir
                  all_paths opts) as Hc.
    rewrite H in Hc. destruct (Hc _ eq_refl) as [Hlen _].
    cbn [fst snd] in Hlen. rewrite Hret in Hlen. exact Hlen.
Qed.

Lemma walk_reports_only_what_it_found_witness :
  justified_line storage_with_failed_sibling IrodsStorageDefault recorded_paths
    "abc/data/contents"
    "check_irods_files: listing of iRODS directory abc/data/contents/bad failed".
Proof.
  apply (proj1 (walk_reports_only_what_it_found storage_with_failed_sibling
                  one_record_resource recorded_paths report_all 3
                  "abc/data/contents" _ _ _ eq_refl failed_sibling_run)).
  left. reflexivity.
Defined.

(** ** The three steps together *)

Lemma check_step_3_run env self opts errors ecount :
  check_step_3 env self opts (errors, ecount) =
    (CallExists (get_irods_storage self) (root_path self)
       :: (if irods_exists env (get_irods_storage self) (root_path self)
           then [] else root_missing_events self opts),
     Return
       (errors ++ (if irods_exists env (get_irods_storage self) (root_path self)
                   then [] else root_missing_lines self opts),
        ecount + (if irods_exists env (get_irods_storage self) (root_path self)
                  then 0 else 1))).
Proof.
  destruct (irods_exists env (get_irods_storage self) (root_path self)) eqn:E.
  - unfold check_step_3. cbv zeta. fold (root_path self).
    unfold exists_. rewrite bind_Return, E. cbn [negb fst snd ret app].
    rewrite app_nil_r, Nat.add_0_r. reflexivity.
  - apply check_step_3_root_missing, E.
Qed.

Lemma resource_check_irods_files_run fuel env self opts t errors ecount :
  resource_check_irods_files fuel env self opts = (t, Return (errors, ecount)) ->
  exists t12 e12 n12,
    check_steps_1_2 fuel env self opts = (t12, Return (e12, n12))
    /\ errors =
         (e12 ++ (if irods_exists env (get_irods_storage self) (root_path self)
                  then [] else root_missing_lines self opts))
         ++ summary_lines self opts ecount
    /\ ecount =
         n12 + (if irods_exists env (get_irods_storage self) (root_path self)
                then 0 else 1).
Proof.
  intros H. rewrite resource_check_irods_files_steps in H.
  apply bind_returns_inv in H as (t13 & [e13 n13] & ts & E13 & Es & _).
  unfold check_steps_1_3 in E13.
  apply bind_returns_inv in E13 as (t12 & [e12 n12] & t3 & E12 & E3 & _).
  rewrite check_step_3_run in E3. injection E3 as _ <- <-.
  rewrite check_summary_run in Es. injection Es as _ <- <-.
  exists t12, e12, n12. auto.
Qed.

Lemma check_steps_1_2_run fuel env self opts t errors ecount :
  stop_on_error opts = false ->
  is_federated self && negb (REMOTE_USE_IRODS env) = false ->
  check_steps_1_2 fuel env self opts = (t, Return (errors, ecount)) ->
  (forall f, In f (files_all self) -> infers_triple env f)
  /\ exists tw e2 n2,
      resource_check_irods_directory fuel env self (file_path self)
        (claimed_paths env (files_all self) ∅) opts = (tw, Return (e2, n2))
      /\ errors = flat_map (record_lines env self opts) (files_all self) ++ e2
      /\ ecount = List.length
                    (List.filter (record_missing env self) (files_all self))
                  + n2.
Proof.
  intros Hstop Hskip H. unfold check_steps_1_2 in H. cbv zeta in H.
  apply bind_returns_inv in H as (tb & [] & ? & _ & H & _).
  rewrite Hskip in H.
  apply bind_returns_inv in H as (tf & [[ap e1] n1] & ? & Ef & H & _).
  pose proof (step_1_returns_inv _ _ _ _ _ _ _ Ef) as Hinf.
  destruct (step_1_run env self opts (files_all self) ∅ [] 0 Hstop Hinf)
    as (tf' & Ef').
  rewrite Ef in Ef'. injection Ef' as _ -> -> ->.
  apply bind_returns_inv in H as (tw & [e2 n2] & ? & Ew & H & _).
  injection H as _ <- <-.
  split; [exact Hinf|]. exists tw, e2, n2. auto.
Qed.

Lemma record_lines_not_file_line env self opts f line :
  In line (record_lines env self opts f) -> is_file_line line = false.
Proof.
  unfold record_lines, error_lines, record_msg.
  destruct (record_missing env self f); [|intros []].
  destruct (return_errors opts); [|intros []].
  intros [<- | []].
  destruct (snd (get_effective_path env f)) as [[|path folder orig]| |];
    reflexivity.
Qed.

(** X7. Reconciliation. For a check with [stop_on_error=False] and
    [return_errors=True] that is not skipped and returns: a file that
    successful listings reach from the content directory is reported as
    "does not exist in Django" if and only if no record of the resource
    infers its path. A record claims its inferred path whether or not that
    path exists in storage. *)
Theorem storage_file_reported_iff_unclaimed :
  forall fuel env self opts t errors ecount,
    stop_on_error opts = false ->
    return_errors opts = true ->
    is_federated self && negb (REMOTE_USE_IRODS env) = false ->
    resource_check_irods_files fuel env self opts = (t, Return (errors, ecount)) ->
    forall p,
      storage_file env (get_irods_storage self) (file_path self) p ->
      (In (missing_record_msg p) errors <->
       forall f, In f (files_all self) -> record_path env f <> Some p).
Proof.
  intros fuel env self opts t errors ecount Hstop Hret Hskip H p Hp.
  apply resource_check_irods_files_run in H
    as (t12 & e12 & n12 & E12 & -> & _).
  destruct (check_steps_1_2_run _ _ _ _ _ _ _ Hstop Hskip E12)
    as (Hinf & tw & e2 & n2 & Ew & -> & _).
  assert (Hclaimed :
    claimed_paths env (files_all self) ∅ !! p = None <->
    forall f, In f (files_all self) -> record_path env f <> Some p).
  { rewrite eq_None_not_Some, claimed_paths_lookup. split.
    - intros Hno f Hf Hrp. apply Hno. right. exists f. auto.
    - intros Hno [Hs | (f & Hf & Hrp)].
      + rewrite lookup_empty in Hs. destruct Hs as (? & Hs). discriminate Hs.
      + exact (Hno f Hf Hrp). }
  rewrite <- Hclaimed. split.
  - intros Hin.
    assert (Hin2 : In (missing_record_msg p) e2).
    { apply in_app_or in Hin as [Hin | Hin].
      - apply in_app_or in Hin as [Hin | Hin].
        + apply in_app_or in Hin as [Hin | Hin]; [|exact Hin].
          apply in_flat_map in Hin as (f & _ & Hin).
          apply record_lines_not_file_line in Hin. discriminate Hin.
        + destruct (irods_exists env (get_irods_storage self) (root_path self));
            [destruct Hin|].
          unfold root_missing_lines in Hin. rewrite Hret in Hin.
          destruct Hin as [Hin | []].
          apply (f_equal is_file_line) in Hin. discriminate Hin.
      - unfold summary_lines in Hin.
        destruct (Nat.ltb 0 ecount && return_errors opts); [|destruct Hin].
        destruct Hin as [Hin | []].
        apply (f_equal is_file_line) in Hin. discriminate Hin. }
    destruct (walk_lines_justified env self _ opts Hstop _ _ _ _ _ Ew _ Hin2)
      as [(q & _ & Hq & Heq) | (d & _ & Heq)].
    + apply missing_record_msg_inj in Heq. subst q. exact Hq.
    + apply (f_equal is_file_line) in Heq. discriminate Heq.
  - intros Hnone.
    destruct (walk_reports env self _ opts Hstop _ _ _ _ _ Ew) as [Hfiles _].
    destruct (Hfiles p Hp Hnone) as (_ & _ & Hr).
    apply in_or_app. left. apply in_or_app. left. apply in_or_app. right.
    apply Hr, Hret.
Qed.

Lemma sub_folder_check_run :
  resource_check_irods_files 2 sub_folder_storage one_record_resource report_all =
  ([CallExists IrodsStorageDefault "abc/data/contents/f.txt";
    Print ("INFO: found unqualified unfederated name '{}' with folder {}"
           +:+ " qualified to 'f.txt'");
    CallExists IrodsStorageDefault "abc/data/contents/f.txt";
    CallExists IrodsStorageDefault "abc/data/contents/f.txt";
    CallListdir IrodsStorageDefault "abc/data/contents";
    CallListdir IrodsStorageDefault "abc/data/contents/sub";
    LoggerError ("check_irods_files: file abc/data/contents/sub/g.txt"
                 +:+ " in iRODs does not exist in Django");
    CallExists IrodsStorageDefault "abc";
    LoggerError ("check_irods_files: affected resource abc type is"
                 +:+ " GenericResource, title is 'T'")],
   Return
     ([("check_irods_files: file abc/data/contents/sub/g.txt"
        +:+ " in iRODs does not exist in Django");
       ("check_irods_files: affected resource abc type is"
        +:+ " GenericResource, title is 'T'")],
      1)).
Proof. vm_compute. reflexivity. Qed.

Lemma sub_folder_g_txt_listed :
  storage_file sub_folder_storage IrodsStorageDefault "abc/data/contents"
    "abc/data/contents/sub/g.txt".
Proof.
  eapply storage_file_below with (d := "sub"); [reflexivity | cbn; auto |].
  eapply (storage_file_here _ _ "abc/data/contents/sub" _ _ "g.txt");
    [reflexivity | cbn; auto].
Qed.

Lemma storage_file_reported_iff_unclaimed_witness :
  In (missing_record_msg "abc/data/contents/sub/g.txt")
    [("check_irods_files: file abc/data/contents/sub/g.txt"
      +:+ " in iRODs does not exist in Django");
     ("check_irods_files: affected resource abc type is"
      +:+ " GenericResource, title is 'T'")]
  <-> (forall f, In f (files_all one_record_resource) ->
         record_path sub_folder_storage f
           <> Some "abc/data/contents/sub/g.txt").
Proof.
  exact (storage_file_reported_iff_unclaimed 2 sub_folder_storage
           one_record_resource report_all _ _ _ eq_refl eq_refl eq_refl
           sub_folder_check_run _ sub_folder_g_txt_listed).
Defined.

(** X8. The comment on the last line of [resource_check_irods_files]:
    [errors] is empty unless [return_errors=True], whatever was counted and
    whatever the other options are. *)
Theorem errors_empty_unless_return_errors :
  forall fuel env self opts t errors ecount,
    return_errors opts = false ->
    resource_check_irods_files fuel env self opts = (t, Return (errors, ecount)) ->
    errors = [].
Proof.
  intros fuel env self opts t errors ecount Hret H.
  rewrite resource_check_irods_files_steps in H.
  pose proof (check_steps_1_3_counted fuel env self opts) as Hp.
  destruct (check_steps_1_3 fuel env self opts) as [t0 [[errors0 n]| |]];
    try discriminate H.
  rewrite bind_Return, check_summary_run in H. injection H as _ <- _.
  destruct (Hp _ eq_refl) as [Hlen _]. cbn [fst snd] in Hlen.
  rewrite Hret in Hlen. apply length_zero_iff_nil in Hlen. subst errors0.
  unfold summary_lines. rewrite Hret, andb_false_r. reflexivity.
Qed.

Lemma errors_empty_unless_return_errors_witness :
  walk_lines (resource_check_irods_files 1 missing_everything empty_resource
                echo_only) = []
  /\ walk_count (resource_check_irods_files 1 missing_everything empty_resource
                   echo_only) = 2.
Proof.
  split; [|reflexivity].
  apply (errors_empty_unless_return_errors 1 missing_everything empty_resource
           echo_only
           (fst (resource_check_irods_files 1 missing_everything empty_resource
                   echo_only)) _ 2 eq_refl).
  vm_compute. reflexivity.
Defined.

(** X9. The returned list in full. With [stop_on_error=False], a check that
    is not skipped and returns gives: the line of each counted record, in
    the order of the records; then the lines of the walk of the content
    directory against the paths the records claim; then the line of a
    missing root; then the closing line. The count is the number of counted
    records plus the count of the walk plus one for a missing root. *)
Theorem resource_check_irods_files_report :
  forall fuel env self opts t errors ecount,
    stop_on_error opts = false ->
    is_federated self && negb (REMOTE_USE_IRODS env) = false ->
    resource_check_irods_files fuel env self opts = (t, Return (errors, ecount)) ->
    let walk :=
      resource_check_irods_directory fuel env self (file_path self)
        (claimed_paths env (files_all self) ∅) opts in
    let root_exists :=
      irods_exists env (get_irods_storage self) (root_path self) in
    returns walk
    /\ errors =
         flat_map (record_lines env self opts) (files_all self)
         ++ walk_lines walk
         ++ (if root_exists then [] else root_missing_lines self opts)
         ++ summary_lines self opts ecount
    /\ ecount =
         List.length (List.filter (record_missing env self) (files_all self))
         + walk_count walk
         + (if root_exists then 0 else 1).
Proof.
  intros fuel env self opts t errors ecount Hstop Hskip H walk root_exists.
  apply resource_check_irods_files_run in H
    as (t12 & e12 & n12 & E12 & -> & ->).
  destruct (check_steps_1_2_run _ _ _ _ _ _ _ Hstop Hskip E12)
    as (_ & tw & e2 & n2 & Ew & -> & ->).
  fold walk in Ew. fold root_exists.
  split; [exists tw, (e2, n2); exact Ew|].
  unfold walk_lines, walk_count. rewrite Ew. cbn [snd fst].
  rewrite <- !app_assoc. split; reflexivity.
Qed.

Lemma resource_check_irods_files_report_witness :
  1 = List.length
        (List.filter (record_missing sub_folder_storage one_record_resource)
           (files_all one_record_resource))
      + walk_count
          (resource_check_irods_directory 2 sub_folder_storage
             one_record_resource (file_path one_record_resource)
             (claimed_paths sub_folder_storage
                (files_all one_record_resource) ∅)
             report_all)
      + 0.
Proof.
  exact (proj2 (proj2 (resource_check_irods_files_report 2 sub_folder_storage
                         one_record_resource report_all _ _ _ eq_refl eq_refl
                         sub_folder_check_run))).
Defined.

(** ** Stopping at the first error *)

Lemma post_stop {B} (Q : B -> Prop) opts e (k : M B) :
  stop_on_error opts = true ->
  post Q (when (stop_on_error opts) (raise e) ;; k).
Proof. intros ->. intros b E. discriminate E. Qed.

Lemma check_file_stop env self opts s f :
  stop_on_error opts = true ->
  post (fun s' => (snd (fst s'), snd s') = (snd (fst s), snd s)
                  /\ record_missing env self f = false)
    (check_file env self opts s f).
Proof.
  intros Hstop. unfold check_file. destruct s as [[all_paths errors] ecount].
  cbv zeta. unfold record_missing, record_path.
  destruct (get_effective_path env f) as [tg [[|path folder orig]| |]];
    try (intros b E; discriminate E).
  rewrite bind_Return. cbn [snd].
  destruct path as [p|].
  - unfold exists_. rewrite !bind_Return. cbn [fst snd].
    destruct (irods_exists env (get_irods_storage self) p); cbn [negb].
    + intros b E. injection E as <-. auto.
    + rewrite Hstop. intros b E.
      destruct (echo_errors opts), (log_errors opts); discriminate E.
  - rewrite bind_ret, Hstop. intros b E.
    destruct (echo_errors opts), (log_errors opts); discriminate E.
Qed.

Lemma check_storage_file_stop all_paths opts dir s fname :
  stop_on_error opts = true ->
  post (fun s' => s' = s) (check_storage_file all_paths opts dir s fname).
Proof.
  intros Hstop. unfold check_storage_file. destruct s as [errors ecount].
  cbv zeta. destruct (all_paths !! _).
  - apply post_ret. reflexivity.
  - rewrite Hstop. intros b E.
    destruct (echo_errors opts), (log_errors opts); discriminate E.
Qed.

Lemma resource_check_irods_directory_stop fuel env self dir all_paths opts :
  stop_on_error opts = true ->
  post (fun s => s = ([], 0))
    (resource_check_irods_directory fuel env self dir all_paths opts).
Proof.
  intros Hstop. revert dir.
  induction fuel as [|fuel IH]; intros dir;
    cbn [resource_check_irods_directory].
  - intros b E. discriminate E.
  - cbv zeta. unfold listdir. rewrite bind_Return.
    destruct (irods_listdir env (get_irods_storage self) dir) as [[ds fs]|].
    + cbn [fst snd].
      eapply post_bind with (Q1 := fun s => s = ([], 0)).
      * apply post_for_each; [|reflexivity].
        intros s x ->. apply check_storage_file_stop, Hstop.
      * intros [errors ecount] E. injection E as -> ->.
        apply post_for_each; [|reflexivity].
        intros s d ->.
        eapply post_bind; [apply IH|].
        intros [error2 ecount2] E. injection E as -> ->.
        apply post_ret. reflexivity.
    + rewrite Hstop. intros b E.
      destruct (echo_errors opts), (log_errors opts); discriminate E.
Qed.

Lemma step_1_stop env self opts l s t s' :
  stop_on_error opts = true ->
  for_each (check_file env self opts) l s = (t, Return s') ->
  (snd (fst s'), snd s') = (snd (fst s), snd s)
  /\ forall f, In f l -> record_missing env self f = false.
Proof.
  intros Hstop. revert s t.
  induction l as [|f l IH]; intros s t Ef; cbn [for_each] in Ef.
  - injection Ef as _ <-. split; [reflexivity | intros f []].
  - apply bind_returns_inv in Ef as (t1 & s1 & ? & E1 & Ef & _).
    destruct (check_file_stop env self opts s f Hstop _ (f_equal snd E1))
      as [Eq Hf].
    destruct (IH _ _ Ef) as [Eq' Hl].
    split; [congruence|]. intros f' [<- | Hin]; auto.
Qed.

Lemma check_steps_1_2_stop fuel env self opts :
  stop_on_error opts = true ->
  post (fun s => s = ([], 0)
                 /\ (is_federated self && negb (REMOTE_USE_IRODS env) = false ->
                     forall f, In f (files_all self) ->
                       record_missing env self f = false))
    (check_steps_1_2 fuel env self opts).
Proof.
  intros Hstop. unfold check_steps_1_2. cbv zeta. post_skip.
  destruct (is_federated self && negb (REMOTE_USE_IRODS env)) eqn:Hskip.
  - post_skip. post_skip. apply post_ret. split; [reflexivity|discriminate].
  - intros b E.
    apply returns_value in E as (t & E).
    apply bind_returns_inv in E as (tf & [[ap e1] n1] & ? & Ef & E & _).
    apply bind_returns_inv in E as (tw & [e2 n2] & ? & Ew & E & _).
    injection E as _ <-.
    pose proof (resource_check_irods_directory_stop fuel env self
                  (file_path self) ap opts Hstop _ (f_equal snd Ew)) as E2.
    injection E2 as -> ->.
    destruct (step_1_stop env self opts _ _ _ _ Hstop Ef) as [Eq Hall].
    cbn [fst snd] in Eq.
    injection Eq as -> ->.
    split; [reflexivity | intros _; exact Hall].
Qed.

(** X10. With [stop_on_error=True] a check that returns has found nothing
    in Steps 1 and 2: the only error it can carry is the missing root of
    Step 3, which is counted and reported but never raised; and unless
    Steps 1-2 were skipped, every record inferred a path that exists in the
    storage of the resource. *)
Theorem stop_on_error_leaves_only_missing_root :
  forall fuel env self opts t errors ecount,
    stop_on_error opts = true ->
    resource_check_irods_files fuel env self opts = (t, Return (errors, ecount)) ->
    let root_exists :=
      irods_exists env (get_irods_storage self) (root_path self) in
    ecount = (if root_exists then 0 else 1)
    /\ errors = (if root_exists then []
                 else root_missing_lines self opts ++ summary_lines self opts 1)
    /\ (is_federated self && negb (REMOTE_USE_IRODS env) = false ->
        forall f, In f (files_all self) ->
          exists p, record_path env f = Some p
                    /\ irods_exists env (get_irods_storage self) p = true).
Proof.
  intros fuel env self opts t errors ecount Hstop H root_exists.
  apply resource_check_irods_files_run in H
    as (t12 & e12 & n12 & E12 & -> & ->).
  destruct (check_steps_1_2_stop fuel env self opts Hstop _ (f_equal snd E12))
    as [Eq Hall].
  injection Eq as -> ->. fold root_exists.
  split; [reflexivity|]. split.
  - destruct root_exists; reflexivity.
  - intros Hskip f Hf. specialize (Hall Hskip f Hf).
    unfold record_missing in Hall.
    destruct (record_path env f) as [p|]; [|discriminate Hall].
    exists p. split; [reflexivity|].
    apply negb_false_iff, Hall.
Qed.

Lemma stop_on_error_leaves_only_missing_root_witness :
  exists p,
    record_path everything_exists
      {| resource := one_record_resource;
         record := {| resource_file_name := Some "f.txt";
                      fed_resource_file_name := None;
                      fed_resource_file_name_or_path := None;
                      file_folder := None |} |} = Some p
    /\ irods_exists everything_exists IrodsStorageDefault p = true.
Proof.
  refine (proj2 (proj2 (stop_on_error_leaves_only_missing_root 1
                          everything_exists one_record_resource stop_at_first
                          _ [] 0 eq_refl _)) eq_refl _ _).
  - vm_compute. reflexivity.
  - left. reflexivity.
Defined.

(** ** Step 3 and [stop_on_error] *)

Lemma stops_bind {A B} t1 e1 (a : A) (m : M A) t2 e2 (b : B) (k : A -> M B) :
  stops_at_first_error t1 e1 a m ->
  (e1 = [] -> stops_at_first_error t2 e2 b (k a)) ->
  stops_at_first_error (t1 ++ t2) (e1 ++ e2) b (bind m k).
Proof.
  intros Hm Hk. destruct e1 as [|msg e1]; cbn [stops_at_first_error app] in *.
  - subst m. specialize (Hk eq_refl). rewrite bind_Return.
    destruct e2 as [|msg e2]; cbn [stops_at_first_error] in *.
    + rewrite Hk. reflexivity.
    + destruct Hk as (t' & rest & -> & ->).
      exists (t1 ++ t'), rest. rewrite app_assoc. split; reflexivity.
  - destruct Hm as (t' & rest & -> & ->).
    exists t', (rest ++ t2). rewrite app_assoc. split; reflexivity.
Qed.

Lemma stops_bind_ret {A B} t e (a : A) (m : M A) (b : B) (k : A -> M B) :
  stops_at_first_error t e a m -> k a = ret b ->
  stops_at_first_error t e b (bind m k).
Proof.
  intros Hm Hk.
  rewrite <- (app_nil_r t), <- (app_nil_r e).
  apply (stops_bind t e a m [] [] b k Hm). intros _. exact Hk.
Qed.

Lemma stops_for_each {A S} (body : S -> A -> M S)
    (tr : A -> list Event) (ln : A -> list string) (s : S) l :
  (forall x, In x l -> stops_at_first_error (tr x) (ln x) s (body s x)) ->
  stops_at_first_error (flat_map tr l) (flat_map ln l) s (for_each body l s).
Proof.
  induction l as [|x l IH]; intros Hb; cbn [for_each flat_map].
  - reflexivity.
  - apply (stops_bind _ _ s); [apply Hb; left; reflexivity|].
    intros _. apply IH. intros y Hy. apply Hb. right. exact Hy.
Qed.

Lemma check_storage_file_stops all_paths opts dir fname :
  stop_on_error opts = true ->
  stops_at_first_error
    (file_events all_paths (without_stop opts) dir fname)
    (file_lines all_paths (without_stop opts) dir fname)
    ([], 0)
    (check_storage_file all_paths opts dir ([], 0) fname).
Proof.
  intros Hstop. unfold check_storage_file, file_events, file_lines. cbv zeta.
  destruct (all_paths !! os_path_join dir [fname]); [reflexivity|].
  fold (missing_record_msg (os_path_join dir [fname])). rewrite Hstop.
  unfold error_events, error_lines, without_stop. cbn [echo_errors log_errors
    return_errors stops_at_first_error].
  destruct (echo_errors opts), (log_errors opts), (return_errors opts);
    eexists _, []; (split; [symmetry; apply app_nil_r | reflexivity]).
Qed.

Lemma resource_check_irods_directory_stops env self all_paths opts :
  stop_on_error opts = true ->
  forall fuel dir,
    returns (resource_check_irods_directory fuel env self dir all_paths
               (without_stop opts)) ->
    stops_at_first_error
      (fst (resource_check_irods_directory fuel env self dir all_paths
              (without_stop opts)))
      (walk_lines (resource_check_irods_directory fuel env self dir all_paths
                     (without_stop opts)))
      ([], 0)
      (resource_check_irods_directory fuel env self dir all_paths opts).
Proof.
  intros Hstop. induction fuel as [|fuel IH]; intros dir Hr.
  - destruct Hr as (t & s & E). discriminate E.
  - destruct (irods_listdir env (get_irods_storage self) dir)
      as [[ds fs]|] eqn:Hl.
    + destruct Hr as (t & s & E).
      pose proof (walk_children_return env self all_paths (without_stop opts)
                    fuel dir ds fs t s Hl E) as Hch.
      pose proof (walk_listed env self all_paths (without_stop opts) eq_refl
                    fuel dir ds fs Hl Hch) as Ew.
      cbv beta in Hch, Ew. rewrite Ew.
      unfold walk_lines at 1. cbn [fst snd].
      cbn [resource_check_irods_directory]. cbv zeta.
      apply (stops_bind [CallListdir (get_irods_storage self) dir] []
               (Some (ds, fs))).
      { unfold listdir. rewrite Hl. reflexivity. }
      intros _. cbn [fst snd].
      apply (stops_bind _ _ ([], 0)).
      { apply stops_for_each. intros f _.
        apply check_storage_file_stops, Hstop. }
      intros _.
      apply (stops_for_each _
               (fun d => fst (resource_check_irods_directory fuel env self
                                (os_path_join dir [d]) all_paths
                                (without_stop opts)))
               (fun d => walk_lines
                           (resource_check_irods_directory fuel env self
                              (os_path_join dir [d]) all_paths
                              (without_stop opts)))).
      intros d Hd.
      apply (stops_bind_ret _ _ ([], 0)); [apply IH, Hch, Hd | reflexivity].
    + pose proof (walk_failed env self all_paths (without_stop opts) eq_refl
                    fuel dir Hl) as Ew.
      cbv beta in Ew. rewrite Ew.
      unfold walk_lines. cbn [fst snd resource_check_irods_directory].
      cbv zeta. unfold listdir. rewrite bind_Return, Hl. cbn [fst snd].
      fold (listing_failed_msg dir). rewrite Hstop.
      unfold error_events, error_lines, without_stop. cbn [echo_errors
        log_errors return_errors stops_at_first_error].
      destruct (echo_errors opts), (log_errors opts), (return_errors opts);
        eexists _, []; (split; [symmetry; apply app_nil_r | reflexivity]).
Qed.

Lemma check_file_stops env self opts all_paths f :
  stop_on_error opts = true -> infers_triple env f ->
  stops_at_first_error
    (fst (check_file env self (without_stop opts) (all_paths, [], 0) f))
    (record_lines env self (without_stop opts) f)
    (claimed_paths env [f] all_paths, [], 0)
    (check_file env self opts (all_paths, [], 0) f).
Proof.
  intros Hstop (t & path & folder & orig & E).
  unfold check_file, claimed_paths, record_lines, record_missing, record_msg,
    record_path.
  cbn [fold_left]. rewrite !E, !bind_Return. cbn [fst snd]. cbv zeta.
  rewrite Hstop. unfold error_lines, exists_, without_stop.
  cbn [echo_errors log_errors return_errors stop_on_error].
  destruct path as [p|];
    [destruct (irods_exists env (get_irods_storage self) p)|];
    destruct (echo_errors opts), (log_errors opts), (return_errors opts);
    cbn; rewrite ?app_nil_r; try reflexivity;
    eexists _, []; (split; [symmetry; apply app_nil_r | reflexivity]).
Qed.

Lemma step_1_stops env self opts l :
  stop_on_error opts = true ->
  (forall f, In f l -> infers_triple env f) ->
  forall all_paths,
    stops_at_first_error
      (fst (for_each (check_file env self (without_stop opts)) l
              (all_paths, [], 0)))
      (flat_map (record_lines env self (without_stop opts)) l)
      (claimed_paths env l all_paths, [], 0)
      (for_each (check_file env self opts) l (all_paths, [], 0)).
Proof.
  intros Hstop. induction l as [|f l IH]; intros Hl all_paths.
  - reflexivity.
  - cbn [for_each flat_map].
    pose proof (check_file_stops env self opts all_paths f Hstop
                  (Hl f (or_introl eq_refl))) as Hf.
    destruct (check_file_run env self (without_stop opts) all_paths [] 0 f
                eq_refl (Hl f (or_introl eq_refl))) as (t1 & E1).
    rewrite E1 in Hf |- *. rewrite bind_Return. cbn [fst] in *.
    rewrite claimed_paths_cons.
    apply (stops_bind _ _ _ _ _ _ _ _ Hf).
    intros Hnone. unfold record_lines in Hnone |- *.
    destruct (record_missing env self f); [discriminate Hnone|].
    apply IH. intros g Hg. apply Hl. right. exact Hg.
Qed.

Lemma check_steps_1_2_stops fuel env self opts t errors ecount :
  stop_on_error opts = true ->
  check_steps_1_2 fuel env self (without_stop opts)
    = (t, Return (errors, ecount)) ->
  stops_at_first_error t errors ([], 0) (check_steps_1_2 fuel env self opts).
Proof.
  intros Hstop H.
  destruct (is_federated self && negb (REMOTE_USE_IRODS env)) eqn:Hskip.
  - unfold check_steps_1_2 in *. cbv zeta in *. rewrite Hskip in *.
    unfold without_stop in H. cbn [echo_errors log_errors] in H.
    destruct (is_federated self), (echo_errors opts), (log_errors opts);
      injection H as <- <- _; reflexivity.
  - destruct (check_steps_1_2_run fuel env self (without_stop opts) t errors
                ecount eq_refl Hskip H)
      as (Hinf & tw & e2 & n2 & Ew & -> & _).
    destruct (step_1_run env self (without_stop opts) (files_all self) ∅ [] 0
                eq_refl Hinf) as (t1 & E1).
    pose proof (step_1_stops env self opts (files_all self) Hstop Hinf ∅)
      as H1.
    rewrite E1 in H1. cbn [fst] in H1.
    pose proof (resource_check_irods_directory_stops env self
                  (claimed_paths env (files_all self) ∅) opts Hstop fuel
                  (file_path self) (ex_intro _ tw (ex_intro _ _ Ew))) as H2.
    rewrite Ew in H2. unfold walk_lines in H2. cbn [fst snd] in H2.
    assert (Hb : exists tb,
      when (is_federated self)
        (when (echo_errors opts)
           (print ("check_irods_files: federation prefix is "
                   +:+ str (resource_federation_path self))) ;;
         when (log_errors opts)
           (logger_info ("check_irods_files: federation prefix is "
                         +:+ str (resource_federation_path self))))
      = (tb, Return tt)).
    { destruct (is_federated self), (echo_errors opts), (log_errors opts);
        eexists; reflexivity. }
    destruct Hb as (tb & Eb).
    unfold check_steps_1_2 in H |- *. cbv zeta in H |- *.
    rewrite Hskip in H |- *.
    unfold without_stop in H at 1 2. cbn [echo_errors log_errors] in H.
    rewrite Eb in H |- *. rewrite bind_Return in H.
    rewrite E1, bind_Return, Ew, bind_Return in H. cbn [fst snd ret] in H.
    injection H as <- _.
    apply (stops_bind tb [] tt); [reflexivity|]. intros _.
    rewrite app_nil_r.
    apply (stops_bind _ _ _ _ _ _ _ _ H1). intros _.
    apply (stops_bind_ret _ _ ([], 0)); [exact H2 | reflexivity].
Qed.

(** C4 (amended). When the root storage path is absent: if Steps 1-2 are
    skipped (federated resource, [REMOTE_USE_IRODS] off) the check returns
    with an error count of one; and whenever Steps 1-2 end without raising,
    with any list and any count, Step 3 runs next, asks storage for the root
    path, reports the missing root to the enabled sinks and adds one to the
    count, after which only the closing line follows. With
    [stop_on_error=True], compared with the run of Steps 1-2 that goes on
    after an error ([stop_on_error=False], lines kept): if that run ends
    with no line, Steps 1-2 end the same way with no error and Step 3 runs
    as said; if it ends with lines, the check raises [ValidationError] with
    the first of them, after a prefix of the trace of that run of
    Steps 1-2, so Step 3 is not reached. *)
Theorem step_3_runs_after_steps_1_2 :
  forall fuel env self opts,
    irods_exists env (get_irods_storage self) (root_path self) = false ->
    (is_federated self && negb (REMOTE_USE_IRODS env) = true ->
     exists t errors,
       resource_check_irods_files fuel env self opts = (t, Return (errors, 1))
       /\ storage_calls t = [CallExists (get_irods_storage self) (root_path self)])
    /\ (forall t errors ecount,
         check_steps_1_2 fuel env self opts = (t, Return (errors, ecount)) ->
         resource_check_irods_files fuel env self opts =
           (t ++ CallExists (get_irods_storage self) (root_path self)
              :: root_missing_events self opts
              ++ summary_events self opts (ecount + 1),
            Return ((errors ++ root_missing_lines self opts)
                      ++ summary_lines self opts (ecount + 1),
                    ecount + 1)))
    /\ (stop_on_error opts = true ->
        forall t errors ecount,
          check_steps_1_2 fuel env self (without_stop opts)
            = (t, Return (errors, ecount)) ->
          match errors with
          | [] => check_steps_1_2 fuel env self opts = (t, Return ([], 0))
          | msg :: _ =>
              exists t' rest,
                t = t' ++ rest
                /\ resource_check_irods_files fuel env self opts
                   = (t', Raise (ValidationError msg))
          end).
Proof.
  intros fuel env self opts Hroot.
  assert (Hrun : forall t errors ecount,
    check_steps_1_2 fuel env self opts = (t, Return (errors, ecount)) ->
    resource_check_irods_files fuel env self opts =
      (t ++ CallExists (get_irods_storage self) (root_path self)
         :: root_missing_events self opts
         ++ summary_events self opts (ecount + 1),
       Return ((errors ++ root_missing_lines self opts)
                 ++ summary_lines self opts (ecount + 1),
               ecount + 1))).
  { intros t errors ecount E.
    rewrite resource_check_irods_files_steps. unfold check_steps_1_3.
    rewrite E, bind_Return, (check_step_3_root_missing _ _ _ _ _ Hroot).
    cbn [fst snd]. rewrite bind_Return, check_summary_run. cbn [fst snd].
    rewrite <- app_assoc. reflexivity. }
  split; [|split; [exact Hrun|]].
  - intros Hskip.
    destruct (check_steps_1_2_skipped fuel env self opts Hskip) as (t & E & Hc).
    rewrite (Hrun _ _ _ E). eexists _, _. split; [reflexivity|].
    unfold storage_calls in *. rewrite List.filter_app, Hc. cbn [app List.filter is_storage_call].
    f_equal. rewrite List.filter_app.
    unfold root_missing_events, summary_events.
    destruct (echo_errors opts), (log_errors opts); reflexivity.
  - intros Hstop t errors ecount E.
    pose proof (check_steps_1_2_stops fuel env self opts t errors ecount
                  Hstop E) as Hs.
    destruct errors as [|msg errors]; cbn [stops_at_first_error] in Hs.
    + exact Hs.
    + destruct Hs as (t' & rest & -> & E').
      exists t', rest. split; [reflexivity|].
      unfold resource_check_irods_files. rewrite E'. reflexivity.
Qed.

Lemma nameless_record_steps_1_2_run :
  check_steps_1_2 1 missing_everything nameless_record_resource
    (without_stop stop_at_first) =
  ([Print "ERROR: no valid file name defined for abc (GenericResource)";
    LoggerError ("check_irods_files: django file None in folder None,"
                 +:+ " resolved to None, does not exist in iRODS");
    CallListdir IrodsStorageDefault "abc/data/contents";
    LoggerError "check_irods_files: listing of iRODS directory abc/data/contents failed"],
   Return
     ([("check_irods_files: django file None in folder None,"
        +:+ " resolved to None, does not exist in iRODS");
       "check_irods_files: listing of iRODS directory abc/data/contents failed"],
      2)).
Proof. vm_compute. reflexivity. Qed.

Lemma step_3_runs_after_steps_1_2_witness :
  (exists t errors,
      resource_check_irods_files 0 missing_everything federated_resource
        report_all = (t, Return (errors, 1))
      /\ storage_calls t =
           [CallExists IrodsStorageFederated "/otherZone/home/proxy/abc"])
  /\ snd (resource_check_irods_files 1 missing_everything empty_resource
            report_all) =
       Return
         ((["check_irods_files: listing of iRODS directory abc/data/contents failed"]
             ++ root_missing_lines empty_resource report_all)
            ++ summary_lines empty_resource report_all (1 + 1), 1 + 1)
  /\ (exists t' rest,
        [Print "ERROR: no valid file name defined for abc (GenericResource)";
         LoggerError ("check_irods_files: django file None in folder None,"
                      +:+ " resolved to None, does not exist in iRODS");
         CallListdir IrodsStorageDefault "abc/data/contents";
         LoggerError "check_irods_files: listing of iRODS directory abc/data/contents failed"]
        = t' ++ rest
        /\ resource_check_irods_files 1 missing_everything
             nameless_record_resource stop_at_first
           = (t', Raise (ValidationError
                           ("check_irods_files: django file None in folder None,"
                            +:+ " resolved to None, does not exist in iRODS")))).
Proof.
  split; [|split].
  - exact (proj1 (step_3_runs_after_steps_1_2 0 missing_everything
                    federated_resource report_all eq_refl) eq_refl).
  - rewrite (proj1 (proj2 (step_3_runs_after_steps_1_2 1 missing_everything
                             empty_resource report_all eq_refl))
               [CallListdir IrodsStorageDefault "abc/data/contents";
                LoggerError "check_irods_files: listing of iRODS directory abc/data/contents failed"]
               ["check_irods_files: listing of iRODS directory abc/data/contents failed"]
               1 eq_refl).
    reflexivity.
  - exact (proj2 (proj2 (step_3_runs_after_steps_1_2 1 missing_everything
                           nameless_record_resource stop_at_first eq_refl))
             eq_refl _ _ _ nameless_record_steps_1_2_run).
Defined.

(** ** Short paths *)

Lemma os_path_split_no_sep rel :
  contains sep rel = false -> os_path_split rel = ("", rel).
Proof.
  intros H. unfold os_path_split. rewrite (rfind_None _ H). reflexivity.
Qed.

Lemma get_path_short_clean rfile rel :
  clean_relative rel = true ->
  (let '(folder, base) := os_path_split rel in
   get_path rfile base (if String.eqb folder "" then None else Some folder))
  = file_path (resource rfile) +:+ "/" +:+ rel.
Proof.
  intros Hclean.
  destruct (get_resource_file_path_rebuilds (resource rfile) rel Hclean)
    as [Hsep Hnosep].
  destruct (contains sep rel) eqn:Hc.
  - specialize (Hsep eq_refl).
    destruct (os_path_split_clean rel Hclean Hc)
      as (h & t & E & _ & Hh & _).
    rewrite E in Hsep |- *. destruct h as [|a h]; [discriminate Hh|].
    exact Hsep.
  - rewrite (os_path_split_no_sep _ Hc). exact (Hnosep eq_refl).
Qed.

(** X11. A short path in canonical form (no leading and no doubled
    separator) is resolved to that path under the content directory of the
    resource: without the existence test nothing is asked; with it storage
    is asked once, about the resolved path, and [ValidationError] is raised
    if it is absent. If moreover the resource is in plain form (unfederated,
    or federated with a federation path that has no trailing separator and
    a short id that has no leading one), resolving the result again as a
    storage path, without the existence test, gives it back. *)
Theorem short_path_resolves_under_content_directory :
  forall env rfile rel,
    clean_relative rel = true ->
    let path := file_path (resource rfile) +:+ "/" +:+ rel in
    let st := get_irods_storage (resource rfile) in
    get_path_from_short_path env rfile rel false = ([], Return path)
    /\ get_path_from_short_path env rfile rel true =
         ([CallExists st path],
          if irods_exists env st path then Return path
          else Raise (ValidationError
                        ("path " +:+ path +:+ " does not exist in iRODS")))
    /\ (plain_federation (resource rfile) = true ->
        get_path_from_storage_path env rfile path false = ([], Return path)).
Proof.
  intros env rfile rel Hclean path st.
  pose proof (get_path_short_clean rfile rel Hclean) as E.
  fold path in E. unfold get_path_from_short_path.
  destruct (os_path_split rel) as [folder base]. rewrite E.
  split; [reflexivity|]. split.
  - fold st. unfold exists_. rewrite bind_Return. cbn [fst snd].
    destruct (irods_exists env st path); reflexivity.
  - intros Hplain.
    destruct (resource_path_is_acceptable_canonical env (resource rfile) rel
                false Hplain Hclean) as ([fo ba] & msg & Ea & Hfb).
    unfold get_path_from_storage_path, path_is_acceptable. fold path in Ea, Hfb.
    rewrite Ea. cbn [fst snd] in Hfb. unfold get_path.
    cbn. rewrite Hfb. reflexivity.
Qed.

Lemma short_path_resolves_under_content_directory_witness :
  get_path_from_short_path missing_everything sub_folder_file "sub/g.txt" true =
    ([CallExists IrodsStorageDefault "abc/data/contents/sub/g.txt"],
     Raise (ValidationError
              "path abc/data/contents/sub/g.txt does not exist in iRODS")).
Proof.
  exact (proj1 (proj2 (short_path_resolves_under_content_directory
                         missing_everything sub_folder_file "sub/g.txt"
                         eq_refl))).
Defined.

(** ** Absolute names *)

Lemma os_path_split_absolute rel :
  clean_relative rel = true ->
  exists h t,
    os_path_split ("/" +:+ rel) = (h, t)
    /\ nonempty h = true /\ startswith h "/" = true
    /\ join_step h t = "/" +:+ rel.
Proof.
  intros Hclean. destruct (contains sep rel) eqn:Hc.
  - destruct (os_path_split_clean rel Hclean Hc)
      as (h & t & _ & -> & Hh & Hhs & Hhe & Ht).
    exists ("/" +:+ h), t.
    assert (Hend : endswith ("/" +:+ h) sep = false).
    { rewrite endswith_app by exact Hh. exact Hhe. }
    split; [|split; [reflexivity|split; [reflexivity|]]].
    + unfold os_path_split.
      rewrite <- (append_assoc "/" h ("/" +:+ t)).
      rewrite (rfind_last _ _ Ht), slice_to_head, slice_from_tail.
      destruct h as [|a h]; [discriminate Hh|].
      cbn [startswith] in Hhs. rewrite andb_true_r in Hhs.
      assert (Hall : all_char sep (("/" +:+ String a h) +:+ "/") = false).
      { change (("/" +:+ String a h) +:+ "/")
          with (String "/" (String a h +:+ "/")).
        cbn [all_char]. rewrite (all_char_head a h "/" Hhs).
        apply andb_false_r. }
      rewrite Hall.
      change (nonempty (("/" +:+ String a h) +:+ "/")) with true.
      cbn [negb andb].
      rewrite rstrip_app_sep, (rstrip_id _ Hend). reflexivity.
    + rewrite join_step_sep; [rewrite append_assoc; reflexivity
                             |reflexivity|exact Hend|].
      apply contains_false_startswith, Ht.
  - exists "/", rel. split; [|split; [reflexivity|split; [reflexivity|]]].
    + unfold os_path_split.
      change ("/" +:+ rel) with ("" +:+ "/" +:+ rel).
      rewrite (rfind_last "" rel Hc), slice_to_head, slice_from_tail.
      reflexivity.
    + unfold join_step.
      rewrite (contains_false_startswith _ Hc). reflexivity.
Qed.

Lemma get_path_from_short_path_absolute env rfile rel :
  clean_relative rel = true ->
  get_path_from_short_path env rfile ("/" +:+ rel) false
    = ([], Return ("/" +:+ rel)).
Proof.
  intros Hclean.
  destruct (os_path_split_absolute rel Hclean) as (h & t & E & Hne & Hs & Hj).
  unfold get_path_from_short_path. rewrite E.
  destruct h as [|a h]; [discriminate Hne|].
  change (String.eqb (String a h) "") with false. cbv iota.
  unfold get_path, get_resource_file_path, os_path_join. cbn [fold_left].
  unfold join_step at 2. rewrite Hs, Hj. reflexivity.
Qed.

(** X12. An absolute name is not confined to the resource. A short path
    made of one separator followed by a relative path in canonical form (no
    leading and no doubled separator) is returned as it is by
    [get_path_from_short_path] without the existence test, since
    [os.path.join] drops what precedes an absolute component; so a row
    whose only name is a [fed_resource_file_name_or_path] of that form
    which does not start with the content directory of its resource gets
    that very path as its inferred path, whatever storage holds. *)
Theorem absolute_name_or_path_is_inferred_as_is :
  forall env file rel,
    clean_relative rel = true ->
    let P := "/" +:+ rel in
    get_path_from_short_path env file P false = ([], Return P)
    /\ (present_names (record file) = [P] ->
        normalize_name (fed_resource_file_name_or_path (record file)) = Some P ->
        startswith P (file_path (resource file)) = false ->
        snd (get_effective_path env file)
          = Return (Triple (Some P) (file_folder (record file)) (Some P))).
Proof.
  intros env file rel Hclean P.
  pose proof (get_path_from_short_path_absolute env file rel Hclean) as Hshort.
  fold P in Hshort. split; [exact Hshort|].
  intros Hnames H3 Hout. unfold present_names in Hnames.
  unfold get_effective_path. rewrite H3 in Hnames |- *.
  destruct (normalize_name (resource_file_name (record file))) as [n1|];
    [destruct (normalize_name (fed_resource_file_name (record file)));
     discriminate Hnames|].
  destruct (normalize_name (fed_resource_file_name (record file))) as [n2|];
    [discriminate Hnames|].
  cbn [append_name app List.length Nat.ltb Nat.leb].
  rewrite bind_ret. unfold effective_path_part3.
  change (startswith P "data/contents/") with false. cbv iota zeta.
  unfold when, print, exists_.
  destruct (is_federated (resource file)); cbn [negb];
    rewrite ?bind_emit, !bind_ret, Hout, Hshort; cbn;
    destruct (irods_exists env (get_irods_storage (resource file)) P);
    reflexivity.
Qed.

Lemma absolute_name_or_path_is_inferred_as_is_witness :
  snd (get_effective_path missing_everything absolute_name_file) =
    Return (Triple (Some "/otherZone/home/bob/x.txt") None
              (Some "/otherZone/home/bob/x.txt")).
Proof.
  exact (proj2 (absolute_name_or_path_is_inferred_as_is missing_everything
                  absolute_name_file "otherZone/home/bob/x.txt" eq_refl)
           eq_refl eq_refl eq_refl).
Defined.

(** ** The listing of [resource_dump] and the walk of the check *)

Lemma returns_snd {A} (m : M A) : returns m <-> exists a, snd m = Return a.
Proof.
  split.
  - intros (t & a & ->). exists a. reflexivity.
  - intros (a & E). exists (fst m), a. destruct m. cbn in E. subst. reflexivity.
Qed.

Lemma returns_bind_iff {A B} t (a : A) (k : A -> M B) :
  returns (bind (t, Return a) k) <-> returns (k a).
Proof.
  rewrite bind_Return, !returns_snd. reflexivity.
Qed.

Lemma same_storage_calls_bind {A1 A2 B1 B2}
    (m1 : M A1) (m2 : M A2) (k1 : A1 -> M B1) (k2 : A2 -> M B2) :
  same_storage_calls m1 m2 ->
  (forall a b, same_storage_calls (k1 a) (k2 b)) ->
  same_storage_calls (bind m1 k1) (bind m2 k2).
Proof.
  intros [Hc Hr] Hk. rewrite !returns_snd in Hr.
  destruct m1 as [t1 [a| |]], m2 as [t2 [b| |]]; cbn [fst snd] in *;
    try (exfalso; destruct Hr as [Hr1 Hr2];
         first [ destruct (Hr1 (ex_intro _ _ eq_refl)) as (? & E)
               | destruct (Hr2 (ex_intro _ _ eq_refl)) as (? & E) ];
         discriminate E);
    try (split; [exact Hc|]; rewrite !returns_snd;
         split; intros (? & E); discriminate E).
  destruct (Hk a b) as [Hc' Hr']. split.
  - rewrite !bind_Return. cbn [fst]. unfold storage_calls in *.
    rewrite !List.filter_app, Hc, Hc'. reflexivity.
  - rewrite !returns_bind_iff. exact Hr'.
Qed.

Lemma same_storage_calls_after {A B1 B2}
    (m : M A) (k1 : A -> M B1) (k2 : A -> M B2) :
  (forall a, same_storage_calls (k1 a) (k2 a)) ->
  same_storage_calls (bind m k1) (bind m k2).
Proof.
  intros Hk. destruct m as [t [a| |]].
  - destruct (Hk a) as [Hc Hr]. split.
    + rewrite !bind_Return. cbn [fst]. unfold storage_calls in *.
      rewrite !List.filter_app, Hc. reflexivity.
    + rewrite !returns_bind_iff. exact Hr.
  - split; [reflexivity|]. rewrite !returns_snd.
    split; intros (? & E); discriminate E.
  - split; [reflexivity|]. rewrite !returns_snd.
    split; intros (? & E); discriminate E.
Qed.

Lemma same_storage_calls_silent {A B} (m1 : M A) (m2 : M B) :
  silent m1 -> silent m2 -> same_storage_calls m1 m2.
Proof. intros [C1 R1] [C2 R2]. split; [congruence | tauto]. Qed.

Lemma same_storage_calls_silent_l {A B C} (m : M A) (k : A -> M B) (m2 : M C) :
  silent m -> (forall a, same_storage_calls (k a) m2) ->
  same_storage_calls (bind m k) m2.
Proof.
  intros [Hc (t & a & ->)] Hk. cbn [fst] in Hc. destruct (Hk a) as [Hc' Hr].
  split.
  - rewrite bind_Return. cbn [fst]. unfold storage_calls in *.
    rewrite List.filter_app, Hc. exact Hc'.
  - rewrite returns_bind_iff. exact Hr.
Qed.

Lemma same_storage_calls_then_silent {A B C} (m1 : M A) (m2 : M B) (k : B -> M C) :
  same_storage_calls m1 m2 -> (forall b, silent (k b)) ->
  same_storage_calls m1 (bind m2 k).
Proof.
  intros [Hc Hr] Hk. destruct m2 as [t2 [b| |]].
  - destruct (Hk b) as [Hc' Hr']. split.
    + rewrite bind_Return. cbn [fst] in *. unfold storage_calls in *.
      rewrite List.filter_app, Hc', app_nil_r. exact Hc.
    + rewrite returns_bind_iff. rewrite Hr. split; intros _; [exact Hr'|].
      exists t2, b. reflexivity.
  - rewrite bind_Raise. split; [exact Hc|]. rewrite Hr, !returns_snd.
    split; intros (? & E); discriminate E.
  - rewrite bind_OutOfFuel. split; [exact Hc|]. rewrite Hr, !returns_snd.
    split; intros (? & E); discriminate E.
Qed.

Lemma same_storage_calls_for_each {A S1 S2}
    (b1 : S1 -> A -> M S1) (b2 : S2 -> A -> M S2) l :
  (forall s1 s2 x, In x l -> same_storage_calls (b1 s1 x) (b2 s2 x)) ->
  forall s1 s2, same_storage_calls (for_each b1 l s1) (for_each b2 l s2).
Proof.
  induction l as [|x l IH]; intros Hb s1 s2; cbn [for_each].
  - apply same_storage_calls_silent; (split; [reflexivity | apply returns_ret]).
  - apply same_storage_calls_bind; [apply Hb; left; reflexivity|].
    intros a b. apply IH. intros ? ? y Hy. apply Hb. right. exact Hy.
Qed.

Lemma silent_for_each {A S} (body : S -> A -> M S) l s :
  (forall s x, silent (body s x)) -> silent (for_each body l s).
Proof.
  intros Hb. revert s. induction l as [|x l IH]; intros s; cbn [for_each].
  - split; [reflexivity | apply returns_ret].
  - destruct (Hb s x) as [Hc (t & s' & E)]. rewrite E in Hc |- *.
    destruct (IH s') as [Hc' Hr]. rewrite bind_Return. split.
    + cbn [fst] in *. unfold storage_calls in *.
      rewrite List.filter_app, Hc, Hc'. reflexivity.
    + apply returns_snd. apply returns_snd in Hr. exact Hr.
Qed.

Lemma silent_print_loop (line : string -> string) l :
  silent (for_each (fun _ f => print (line f)) l tt).
Proof.
  induction l as [|f l [Hc Hr]]; cbn [for_each].
  - split; [reflexivity | apply returns_ret].
  - unfold print. rewrite bind_emit. split; [exact Hc|].
    apply returns_snd. apply returns_snd in Hr. exact Hr.
Qed.

Lemma resource_list_same_storage_calls env session_output self all_paths opts :
  stop_on_error opts = false ->
  forall fuel dir depth,
    same_storage_calls
      (resource_list fuel env session_output (get_irods_storage self) dir depth)
      (resource_check_irods_directory fuel env self dir all_paths opts).
Proof.
  intros Hstop. induction fuel as [|fuel IH]; intros dir depth.
  - split; [reflexivity|]. rewrite !returns_snd.
    split; intros (? & E); discriminate E.
  - cbn [resource_list resource_check_irods_directory]. cbv zeta.
    apply same_storage_calls_after. intros [[ds fs]|]; cbn [fst snd].
    + unfold print at 1. rewrite bind_emit.
      assert (Hrest : same_storage_calls
        (for_each (fun _ f => print (indent depth +:+ " " +:+ f +:+ " (file)"))
           fs tt ;;
         for_each (fun _ f =>
                     resource_list fuel env session_output
                       (get_irods_storage self) (os_path_join dir [f])
                       (depth + 1)) ds tt)
        (let* (errors, ecount) :=
           for_each (check_storage_file all_paths opts dir) fs ([], 0) in
         for_each (fun '(errors, ecount) dname =>
                     let* (error2, ecount2) :=
                       resource_check_irods_directory fuel env self
                         (os_path_join dir [dname]) all_paths opts in
                     ret (errors ++ error2, ecount + ecount2))
           ds (errors, ecount))).
      { apply same_storage_calls_bind.
        - apply same_storage_calls_silent.
          + apply (silent_print_loop
                     (fun f => indent depth +:+ " " +:+ f +:+ " (file)")).
          + rewrite (files_loop_run all_paths opts Hstop). split.
            * cbn [fst]. unfold storage_calls.
              induction fs as [|f fs IHfs]; [reflexivity|].
              cbn [flat_map]. rewrite List.filter_app, IHfs, app_nil_r.
              unfold file_events, error_events.
              destruct (all_paths !! _); [reflexivity|].
              destruct (echo_errors opts), (log_errors opts); reflexivity.
            * eexists _, _. reflexivity.
        - intros [] [errors ecount].
          apply same_storage_calls_for_each. intros [] [e n] d _.
          apply same_storage_calls_then_silent; [apply IH|].
          intros [e2 n2]. split; [reflexivity | apply returns_ret]. }
      destruct Hrest as [Hc Hr]. split; [exact Hc|].
      rewrite <- Hr, !returns_snd. reflexivity.
    + apply same_storage_calls_silent.
      * split; [reflexivity|]. eexists _, _. reflexivity.
      * rewrite Hstop.
        destruct (echo_errors opts), (log_errors opts);
          (split; [reflexivity | eexists _, _; reflexivity]).
Qed.

(** X13. The listing of [resource_dump] visits what Step 2 of the check
    visits. With [stop_on_error=False], [resource_list] and
    [__resource_check_irods_directory] started on the same directory of the
    same storage make the same [listdir] calls in the same order, whatever
    the paths the records claim and whatever the sinks; and so does
    [resource_dump], whose listing starts at the content directory. *)
Theorem resource_dump_lists_what_the_check_walks :
  forall env print_args session_output self all_paths opts fuel,
    stop_on_error opts = false ->
    (forall dir depth,
        same_storage_calls
          (resource_list fuel env session_output (get_irods_storage self)
             dir depth)
          (resource_check_irods_directory fuel env self dir all_paths opts))
    /\ same_storage_calls
         (resource_dump fuel env print_args session_output self)
         (resource_check_irods_directory fuel env self (file_path self)
            all_paths opts).
Proof.
  intros env print_args session_output self all_paths opts fuel Hstop.
  pose proof (resource_list_same_storage_calls env session_output self
                all_paths opts Hstop fuel) as H.
  split; [exact H|].
  unfold resource_dump. cbv zeta. fold (file_path self).
  unfold print at 1 2 3 4. rewrite !bind_emit.
  assert (Hrest : same_storage_calls
    (for_each
       (fun _ f =>
          print ("  f.resource_file.name is "
                 +:+ str (resource_file_name (record f))) ;;
          print ("  f.fed_resource_file.name is "
                 +:+ str (fed_resource_file_name (record f))) ;;
          print ("  f.fed_resource_file_name_or_path is "
                 +:+ str (fed_resource_file_name_or_path (record f))))
       (files_all self) tt ;;
     print "According to iRODS, files are:" ;;
     resource_list fuel env session_output (get_irods_storage self)
       (file_path self) 1)
    (resource_check_irods_directory fuel env self (file_path self)
       all_paths opts)).
  { apply same_storage_calls_silent_l.
    - apply silent_for_each. intros [] f.
      split; [reflexivity | eexists _, _; reflexivity].
    - intros []. unfold print. rewrite bind_emit.
      destruct (H (file_path self) 1) as [Hc Hr]. split; [exact Hc|].
      rewrite <- Hr, !returns_snd. reflexivity. }
  destruct Hrest as [Hc Hr]. split; [exact Hc|].
  rewrite <- Hr, !returns_snd. reflexivity.
Qed.

Lemma resource_dump_lists_what_the_check_walks_witness :
  same_storage_calls
    (resource_dump 3 storage_with_failed_sibling python_print_args
       no_session_output one_record_resource)
    (resource_check_irods_directory 3 storage_with_failed_sibling
       one_record_resource "abc/data/contents" recorded_paths report_all).
Proof.
  exact (proj2 (resource_dump_lists_what_the_check_walks
                  storage_with_failed_sibling python_print_args
                  no_session_output one_record_resource recorded_paths
                  report_all 3 eq_refl)).
Defined.

Lemma never_raises_bind {A B} (m : M A) (k : A -> M B) :
  never_raises m -> (forall a, never_raises (k a)) -> never_raises (bind m k).
Proof.
  intros Hm Hk e. destruct m as [t [a| |]].
  - rewrite bind_Return. apply Hk.
  - exfalso. exact (Hm e0 eq_refl).
  - discriminate.
Qed.

Lemma never_raises_returns {A} (m : M A) : returns m -> never_raises m.
Proof. intros (t & a & ->) e. discriminate. Qed.

Lemma never_raises_for_each {A S} (body : S -> A -> M S) l s :
  (forall s x, never_raises (body s x)) -> never_raises (for_each body l s).
Proof.
  intros Hb. revert s. induction l as [|x l IH]; intros s; cbn [for_each].
  - intros e. discriminate.
  - apply never_raises_bind; [apply Hb | exact IH].
Qed.

Lemma resource_list_never_raises fuel env session_output st dir depth :
  never_raises (resource_list fuel env session_output st dir depth).
Proof.
  revert dir depth. induction fuel as [|fuel IH]; intros dir depth.
  - intros e. discriminate.
  - cbn [resource_list]. cbv zeta.
    apply never_raises_bind; [intros e; discriminate|].
    intros [[ds fs]|]; cbn [fst snd].
    + apply never_raises_bind; [intros e; discriminate|]. intros _.
      apply never_raises_bind.
      * apply never_raises_returns.
        apply (silent_print_loop
                 (fun f => indent depth +:+ " " +:+ f +:+ " (file)")).
      * intros _. apply never_raises_for_each. intros s x. apply IH.
    + intros e. discriminate.
Qed.

(** X14. [resource_dump] never ends in an exception, whatever storage
    answers: a listing that fails is printed, not raised. And it returns
    whenever the nesting of the content directory is within the fuel. *)
Theorem resource_dump_never_raises :
  forall fuel env print_args session_output self,
    never_raises (resource_dump fuel env print_args session_output self)
    /\ (walk_bounded env (get_irods_storage self) fuel (file_path self) ->
        returns (resource_dump fuel env print_args session_output self)).
Proof.
  intros fuel env print_args session_output self. split.
  - unfold resource_dump. cbv zeta.
    repeat (apply never_raises_bind; [intros e; discriminate | intros _]).
    apply never_raises_bind.
    + apply never_raises_for_each. intros s f e. discriminate.
    + intros _. apply never_raises_bind; [intros e; discriminate | intros _].
      apply resource_list_never_raises.
  - intros Hb.
    pose (opts := {| stop_on_error := false; log_errors := false;
                     echo_errors := false; return_errors := false |}).
    assert (Hw : returns (resource_check_irods_directory fuel env self
                            (file_path self) ∅ opts)).
    { apply resource_check_irods_directory_returns; [reflexivity | exact Hb]. }
    unfold resource_dump. cbv zeta. fold (file_path self).
    unfold print at 1 2 3 4. rewrite !bind_emit.
    apply returns_snd. cbn [snd].
    destruct (resource_list_same_storage_calls env session_output self ∅ opts
                eq_refl fuel (file_path self) 1) as [_ Hr].
    apply Hr in Hw. destruct Hw as (tl & [] & El).
    assert (Hf : returns (for_each
       (fun _ f =>
          print ("  f.resource_file.name is "
                 +:+ str (resource_file_name (record f))) ;;
          print ("  f.fed_resource_file.name is "
                 +:+ str (fed_resource_file_name (record f))) ;;
          print ("  f.fed_resource_file_name_or_path is "
                 +:+ str (fed_resource_file_name_or_path (record f))))
       (files_all self) tt)).
    { apply silent_for_each. intros [] f.
      split; [reflexivity | eexists _, _; reflexivity]. }
    destruct Hf as (tf & [] & ->). rewrite bind_Return.
    unfold print. rewrite bind_emit, El. exists tt. reflexivity.
Qed.

Lemma resource_dump_never_raises_witness :
  returns (resource_dump 2 sub_folder_storage python_print_args
             no_session_output one_record_resource).
Proof.
  exact (proj2 (resource_dump_never_raises 2 sub_folder_storage
                  python_print_args no_session_output one_record_resource)
           sub_folder_storage_bounded).
Defined.

(** ** The management command *)

Lemma bind_print {B} msg (k : unit -> M B) :
  bind (print msg) k = (Print msg :: fst (k tt), snd (k tt)).
Proof. apply bind_emit. Qed.

Lemma handle_all_resources_run env objects :
  handle_all_resources env objects =
    (Print "LOOKING FOR ERRORS FOR ALL RESOURCES"
       :: flat_map
            (fun r =>
               CallExists (get_irods_storage r) (root_path r)
                 :: (if irods_exists env (get_irods_storage r) (root_path r)
                     then []
                     else [Print ("ERROR: " +:+ root_path r
                                  +:+ " does not exist")]))
            objects,
     Return tt).
Proof.
  unfold handle_all_resources. unfold print at 1. rewrite bind_emit.
  match goal with
  | |- (_ :: fst ?m, snd ?m) = (_ :: ?t, _) =>
      assert (E : m = (t, Return tt)); [|rewrite E; reflexivity]
  end.
  induction objects as [|r l IH]; [reflexivity|].
  cbn [for_each flat_map]. cbv zeta. unfold exists_ at 1.
  rewrite bind_assoc, bind_Return. cbn [fst snd].
  destruct (irods_exists env (get_irods_storage r) (root_path r));
    cbn [negb when];
    [rewrite bind_ret | rewrite !bind_print];
    rewrite IH; reflexivity.
Qed.

(** X15. Without resource ids the command checks nothing but the roots: it
    prints its heading, asks storage once per resource whether the root
    path exists, prints one line per missing root, and finishes; it lists
    no directory, and the [log] option changes nothing. *)
Theorem handle_without_ids_tests_roots_only :
  forall fuel env print_args session_output objects options,
    resource_ids options = [] ->
    handle fuel env print_args session_output objects options =
      (Print "LOOKING FOR ERRORS FOR ALL RESOURCES"
         :: flat_map
              (fun r =>
                 CallExists (get_irods_storage r) (root_path r)
                   :: (if irods_exists env (get_irods_storage r) (root_path r)
                       then []
                       else [Print ("ERROR: " +:+ root_path r
                                    +:+ " does not exist")]))
              objects,
       Finished).
Proof.
  intros fuel env print_args session_output objects options H.
  unfold handle. rewrite H. cbn [List.length Nat.ltb Nat.leb].
  rewrite handle_all_resources_run. reflexivity.
Qed.

Lemma handle_without_ids_tests_roots_only_witness :
  handle 0 empty_root_directory python_print_args no_session_output
    [one_record_resource; federated_resource]
    {| resource_ids := []; log := true |} =
  ([Print "LOOKING FOR ERRORS FOR ALL RESOURCES";
    CallExists IrodsStorageDefault "abc";
    CallExists IrodsStorageFederated "/otherZone/home/proxy/abc";
    Print "ERROR: /otherZone/home/proxy/abc does not exist"],
   Finished).
Proof.
  exact (handle_without_ids_tests_roots_only 0 empty_root_directory
           python_print_args no_session_output
           [one_record_resource; federated_resource]
           {| resource_ids := []; log := true |} eq_refl).
Defined.

(** X16. An id that matches no resource does not end the loop of the
    command: after the "not found" line the heading is printed and
    [resource_dump] is called on the local [resource]. If the id is the
    first one, that local is unassigned and the command ends in
    [UnboundLocalError], whatever ids follow; if it follows an id that was
    found, the resource of that earlier id is dumped a second time under
    the heading of the unknown one. *)
Theorem handle_unknown_id_reuses_resource :
  forall fuel env print_args session_output objects options rid,
    objects_get objects rid = DoesNotExist ->
    let not_found :=
      Print ("Resource with id " +:+ rid +:+ " not found in Django Resources") in
    let heading id := Print ("LOOKING FOR ERRORS FOR RESOURCE " +:+ id) in
    (forall rest,
        resource_ids options = rid :: rest ->
        handle fuel env print_args session_output objects options =
          ([not_found; heading rid], UnboundLocalError "resource"))
    /\ (forall rid0 r dump,
          resource_ids options = [rid0; rid] ->
          objects_get objects rid0 = Found r ->
          resource_dump fuel env print_args session_output r
            = (dump, Return tt) ->
          handle fuel env print_args session_output objects options =
            (heading rid0 :: dump ++ not_found :: heading rid :: dump,
             Finished)).
Proof.
  intros fuel env print_args session_output objects options rid Hrid
    not_found heading.
  split.
  - intros rest H. unfold handle. rewrite H.
    cbn [List.length Nat.ltb Nat.leb handle_resource_ids].
    rewrite Hrid. reflexivity.
  - intros rid0 r dump H H0 Hdump. unfold handle. rewrite H.
    cbn [List.length Nat.ltb Nat.leb handle_resource_ids].
    rewrite H0, Hrid, Hdump. cbn [app]. rewrite app_nil_r. reflexivity.
Qed.

Lemma handle_unknown_id_reuses_resource_witness :
  handle 2 sub_folder_storage python_print_args no_session_output
    [one_record_resource] {| resource_ids := ["zzz"; "abc"]; log := false |} =
  ([Print "Resource with id zzz not found in Django Resources";
    Print "LOOKING FOR ERRORS FOR RESOURCE zzz"],
   UnboundLocalError "resource").
Proof.
  exact (proj1 (handle_unknown_id_reuses_resource 2 sub_folder_storage
                  python_print_args no_session_output [one_record_resource]
                  {| resource_ids := ["zzz"; "abc"]; log := false |} "zzz"
                  eq_refl)
           ["abc"] eq_refl).
Defined.

(** ** A record with more than one name *)

Lemma get_effective_path_bare_none env file :
  1 < List.length (present_names (record file)) ->
  snd (get_effective_path env file) = Return BareNone.
Proof.
  intros H. unfold get_effective_path. fold (present_names (record file)).
  apply Nat.ltb_lt in H. rewrite H. rewrite bind_print. cbn [snd].
  rewrite for_each_print_names, bind_Return. reflexivity.
Qed.

Lemma bind_raises_eq {A B} (m : M A) (k : A -> M B) e :
  snd m = Raise e -> bind m k = (fst m, Raise e).
Proof. destruct m as [t o]. cbn [fst snd]. intros ->. reflexivity. Qed.

Lemma bind_raises {A B} (m : M A) (k : A -> M B) e :
  snd m = Raise e -> snd (bind m k) = Raise e.
Proof. intros H. rewrite (bind_raises_eq _ _ _ H). reflexivity. Qed.

Lemma check_file_no_listdir env self opts s f :
  quiet no_listdir (check_file env self opts s f).
Proof.
  destruct s as [[all_paths errors] ecount]. unfold check_file.
  apply quiet_bind.
  - eapply Forall_impl; [apply get_effective_path_asks_only|].
    intros [] He; try exact I. exact He.
  - intros r. quiet_by ltac:(exact I).
Qed.

Lemma step_1_type_error env self opts l s :
  stop_on_error opts = false ->
  (forall f, In f l -> returns (get_effective_path env f)) ->
  (exists f, In f l /\ 1 < List.length (present_names (record f))) ->
  snd (for_each (check_file env self opts) l s)
    = Raise (TypeError "'NoneType' object is not iterable").
Proof.
  intros Hstop. revert s.
  induction l as [|g l IH]; intros s Hret (f & Hin & Hn); [destruct Hin|].
  cbn [for_each]. destruct s as [[all_paths errors] ecount].
  destruct (Hret g (or_introl eq_refl)) as (tg & [|path folder orig] & Eg).
  - apply bind_raises. unfold check_file. rewrite Eg. reflexivity.
  - destruct (check_file_run env self opts all_paths errors ecount g Hstop)
      as (t1 & E1).
    { exists tg, path, folder, orig. exact Eg. }
    rewrite E1, bind_Return. cbn [snd]. apply IH.
    + intros h Hh. apply Hret. right. exact Hh.
    + destruct Hin as [<- | Hin]; [|exists f; auto].
      apply (get_effective_path_bare_none env) in Hn.
      rewrite Eg in Hn. discriminate Hn.
Qed.

(** X17. One record with more than one name aborts the whole check. With
    [stop_on_error=False], on a resource that is not skipped and whose
    records all pass [get_effective_path] without an exception, a record
    with more than one name makes [resource_check_irods_files] end in
    [TypeError]: Steps 2 and 3 are not reached and no error list or count
    is returned, whatever the sinks. *)
Theorem record_with_two_names_aborts_check :
  forall fuel env self opts,
    stop_on_error opts = false ->
    is_federated self && negb (REMOTE_USE_IRODS env) = false ->
    (forall f, In f (files_all self) -> returns (get_effective_path env f)) ->
    (exists f, In f (files_all self)
               /\ 1 < List.length (present_names (record f))) ->
    snd (resource_check_irods_files fuel env self opts)
      = Raise (TypeError "'NoneType' object is not iterable")
    /\ Forall no_listdir
         (fst (resource_check_irods_files fuel env self opts)).
Proof.
  intros fuel env self opts Hstop Hskip Hret Hex.
  pose proof (step_1_type_error env self opts (files_all self) (∅, [], 0)
                Hstop Hret Hex) as E1.
  assert (Hq : quiet no_listdir (check_steps_1_2 fuel env self opts)
               /\ snd (check_steps_1_2 fuel env self opts)
                  = Raise (TypeError "'NoneType' object is not iterable")).
  { unfold check_steps_1_2. cbv zeta. rewrite Hskip.
    rewrite (bind_raises_eq (for_each _ _ _) _ _ E1). split.
    - apply quiet_bind; [quiet_by ltac:(exact I)|]. intros _.
      change (quiet no_listdir
                (for_each (check_file env self opts) (files_all self)
                   (∅, [], 0))).
      apply quiet_for_each. intros s f. apply check_file_no_listdir.
    - destruct (is_federated self), (echo_errors opts), (log_errors opts);
        reflexivity. }
  destruct Hq as [Hq E12]. unfold resource_check_irods_files.
  rewrite (bind_raises_eq _ _ _ E12). split; [reflexivity | exact Hq].
Qed.

Lemma record_with_two_names_aborts_check_witness :
  snd (resource_check_irods_files 1 everything_exists two_names_resource
         report_all)
    = Raise (TypeError "'NoneType' object is not iterable").
Proof.
  refine (proj1 (record_with_two_names_aborts_check 1 everything_exists
                   two_names_resource report_all eq_refl eq_refl _ _)).
  - intros f [<- | []]. eexists _, _. vm_compute. reflexivity.
  - eexists. split; [left; reflexivity|]. vm_compute. lia.
Defined.

(** ** Names that are not fully qualified *)

(** X18. An unfederated name on a federated resource is never resolved:
    for a row whose only name is [resource_file.name], on a federated
    resource, [get_effective_path] asks storage nothing, prints the two
    error lines and returns no inferred path, so Step 1 counts the record
    as missing whatever storage holds. *)
Theorem unfederated_name_on_federated_resource_rejected :
  forall env file name,
    is_federated (resource file) = true ->
    present_names (record file) = [name] ->
    normalize_name (resource_file_name (record file)) = Some name ->
    get_effective_path env file =
      ([Print ("ERROR: unfederated file declared for federated resource "
               +:+ short_id (resource file)
               +:+ " (" +:+ resource_type (resource file) +:+ "): " +:+ name);
        Print ("ERROR: no valid file name defined for "
               +:+ short_id (resource file)
               +:+ " (" +:+ resource_type (resource file) +:+ ")")],
       Return (Triple None (file_folder (record file)) (Some name)))
    /\ forall self, record_missing env self file = true.
Proof.
  intros env file name Hfed Hnames H1.
  assert (E : get_effective_path env file =
      ([Print ("ERROR: unfederated file declared for federated resource "
               +:+ short_id (resource file)
               +:+ " (" +:+ resource_type (resource file) +:+ "): " +:+ name);
        Print ("ERROR: no valid file name defined for "
               +:+ short_id (resource file)
               +:+ " (" +:+ resource_type (resource file) +:+ ")")],
       Return (Triple None (file_folder (record file)) (Some name)))).
  { unfold present_names in Hnames. unfold get_effective_path.
    rewrite H1 in Hnames |- *.
    destruct (normalize_name (fed_resource_file_name (record file)));
      [destruct (normalize_name
                   (fed_resource_file_name_or_path (record file)));
       discriminate Hnames|].
    destruct (normalize_name (fed_resource_file_name_or_path (record file)));
      [discriminate Hnames|].
    cbn [append_name app List.length Nat.ltb Nat.leb].
    unfold effective_path_part1. cbv zeta. rewrite Hfed. reflexivity. }
  split; [exact E|].
  intros self. unfold record_missing, record_path. rewrite E. reflexivity.
Qed.

Lemma unfederated_name_on_federated_resource_rejected_witness :
  record_missing everything_exists federated_resource unfederated_name_file
    = true.
Proof.
  exact (proj2 (unfederated_name_on_federated_resource_rejected
                  everything_exists unfederated_name_file "f.txt"
                  eq_refl eq_refl eq_refl) federated_resource).
Defined.

Lemma get_path_from_short_path_clean_off env rfile rel :
  clean_relative rel = true ->
  get_path_from_short_path env rfile rel false
    = ([], Return (file_path (resource rfile) +:+ "/" +:+ rel)).
Proof.
  intros Hclean. pose proof (get_path_short_clean rfile rel Hclean) as E.
  unfold get_path_from_short_path.
  destruct (os_path_split rel) as [folder base]. rewrite E. reflexivity.
Qed.

(** X19. The folder of the record wins over the folder in the name. Take a
    row on an unfederated resource whose only name is a
    [resource_file.name] that does not start with the content directory of
    the resource. Let [base] be the base name ([os.path.split]) of the name
    after an optional [data/contents/] header is stripped, and let [rel] be
    [os.path.join(file_folder, base)], or [base] when the row declares no
    folder. If [rel] is in canonical form (no leading and no doubled
    separator), [get_effective_path] returns the content directory, a
    separator and [rel] as the inferred path, with the row's [file_folder]
    and the name as stored: the folder part of the name is discarded. *)
Theorem unqualified_name_uses_record_folder :
  forall env file name,
    is_federated (resource file) = false ->
    present_names (record file) = [name] ->
    normalize_name (resource_file_name (record file)) = Some name ->
    startswith name (file_path (resource file)) = false ->
    let stripped :=
      if startswith name "data/contents/"
      then slice_from (String.length "data/contents/") name else name in
    let base := snd (os_path_split stripped) in
    let rel :=
      match file_folder (record file) with
      | Some ff => os_path_join ff [base]
      | None => base
      end in
    clean_relative rel = true ->
    snd (get_effective_path env file) =
      Return (Triple (Some (file_path (resource file) +:+ "/" +:+ rel))
                (file_folder (record file)) (Some name)).
Proof.
  intros env file name Hunfed Hnames H1 Hout stripped base rel Hclean.
  unfold present_names in Hnames. unfold get_effective_path.
  rewrite H1 in Hnames |- *.
  destruct (normalize_name (fed_resource_file_name (record file)));
    [destruct (normalize_name
                 (fed_resource_file_name_or_path (record file)));
     discriminate Hnames|].
  destruct (normalize_name (fed_resource_file_name_or_path (record file)));
    [discriminate Hnames|].
  cbn [append_name app List.length Nat.ltb Nat.leb].
  assert (E1 : snd (effective_path_part1 env file name
                      (file_folder (record file)) None)
               = Return (Some (file_path (resource file) +:+ "/" +:+ rel))).
  { unfold effective_path_part1. cbv zeta. rewrite Hunfed, Hout.
    assert (Es : exists ts,
      (if startswith name "data/contents/"
       then print ("INFO stripping data/contents/ from unfederated path "
                   +:+ name) ;;
            ret (slice_from (String.length "data/contents/") name)
       else ret name) = (ts, Return stripped)).
    { unfold stripped. destruct (startswith name "data/contents/");
        eexists; reflexivity. }
    destruct Es as (ts & ->). rewrite bind_Return. cbn [snd].
    fold base. destruct (os_path_split stripped) as [folder base'] eqn:Esplit.
    cbn [snd] in base. subst base.
    assert (Eq : qualify_in_record_folder env file
                   (file_folder (record file)) base'
                 = ([], Return (file_path (resource file) +:+ "/" +:+ rel))).
    { unfold qualify_in_record_folder. unfold rel in *.
      destruct (file_folder (record file));
        apply get_path_from_short_path_clean_off, Hclean. }
    rewrite Eq. unfold exists_.
    generalize (file_path (resource file) +:+ "/" +:+ rel) as p.
    generalize (get_irods_storage (resource file)) as st. intros st p.
    destruct (bool_decide _ && bool_decide _); cbn;
      destruct (irods_exists env st p); reflexivity. }
  destruct (effective_path_part1 env file name (file_folder (record file)) None)
    as [t1 o1]. cbn [snd] in E1. subst o1.
  rewrite bind_Return. cbn [snd]. unfold exists_.
  generalize (file_path (resource file) +:+ "/" +:+ rel) as p.
  generalize (get_irods_storage (resource file)) as st. intros st p.
  cbn. destruct (irods_exists env st p); reflexivity.
Qed.

Lemma unqualified_name_uses_record_folder_witness :
  snd (get_effective_path missing_everything misfiled_file) =
    Return (Triple (Some "abc/data/contents/y/f.txt") (Some "y")
              (Some "x/f.txt")).
Proof.
  exact (unqualified_name_uses_record_folder missing_everything misfiled_file
           "x/f.txt" eq_refl eq_refl eq_refl eq_refl eq_refl).
Defined.
